(** * The statement compiler of the query engine (query/compile.go)

    A shallow embedding of the two drafts of [compile.go] and the
    properties of the statement compiler that follow from the code.  The
    first draft ([Draft1]) has each expression return its output edge; the
    second ([Draft2]) hands every expression the edge it must fill.  The
    syntax tree (package [influxql]) and the edges and nodes of the graph
    are declared in files of the repository that are not at hand; they are
    modelled from the specification and marked so.

    Go values are modelled as follows.
    - [int], [int64] and [time.Duration] are [Z]; the only arithmetic the
      compiler performs on them ([%], comparison with zero) cannot overflow.
    - A pointer to a graph object is an index into the arena [Heap]; a nil
      pointer is [None].
    - A function returning [(T, error)] returns a [result]: [Ok], [Err] for
      a returned error value, [Panic] for a run-time panic.
    - A method mutating its receiver is a computation in the monad [M]
      whose state is the receiver together with the arena. *)

From Stdlib Require Import ZArith Ascii String List Lia.
From stdpp Require Import base option list strings pretty gmap.

#[local] Set Warnings "-register-all".
Local Open Scope Z_scope.

(** ** Go's [time] package (standard library) *)

Module time.

(** A [Duration] is a signed 64-bit count of nanoseconds. *)
Definition Duration : Type := Z.
(** A [Time] is an instant, kept as the nanoseconds elapsed since the
    zero time (January 1, year 1, 00:00:00 UTC). *)
Definition Time : Type := Z.

Definition Nanosecond : Duration := 1.
Definition Second : Duration := 1000000000 * Nanosecond.
Definition Minute : Duration := 60 * Second.

Definition minDuration : Duration := - 2 ^ 63.
Definition maxDuration : Duration := 2 ^ 63 - 1.

(** [t.IsZero()] *)
Definition IsZero (t : Time) : bool := t =? 0.

(** [t.UTC()] changes the location, not the instant. *)
Definition UTC (t : Time) : Time := t.

(** [t.Truncate(d)]: [t] rounded down to a multiple of [d] since the zero
    time; [t] itself when [d <= 0]. *)
Definition Truncate (t : Time) (d : Duration) : Time :=
  if d <=? 0 then t else t - t `mod` d.

(** [t.Sub(u)]: the duration [t - u], saturated to the range of
    [Duration]. *)
Definition Sub (t u : Time) : Duration :=
  if t - u <? minDuration then minDuration
  else if maxDuration <? t - u then maxDuration
  else t - u.

End time.

(** ** The syntax tree of the query language (package [influxql]) *)

Module influxql.

(** Modelled from the spec: [influxql.DataType], the value types a
    wildcard can exclude. *)
Module DataType.
Inductive t :=
| Unknown | Float | Integer | String | Boolean | Time | Duration | Tag
| AnyField.
Global Instance eq_dec : EqDecision t.
Proof. solve_decision. Defined.

Definition to_nat (x : t) : nat :=
  match x with
  | Unknown => 0 | Float => 1 | Integer => 2 | String => 3 | Boolean => 4
  | Time => 5 | Duration => 6 | Tag => 7 | AnyField => 8
  end%nat.
Definition of_nat (n : nat) : t :=
  match n with
  | 0 => Unknown | 1 => Float | 2 => Integer | 3 => String | 4 => Boolean
  | 5 => Time | 6 => Duration | 7 => Tag | _ => AnyField
  end%nat.
Global Instance countable : Countable t.
Proof. apply (inj_countable' to_nat of_nat). by intros []. Defined.
End DataType.

(** Modelled from the spec: [influxql.Token], the operator of a binary
    expression, and the compiled pattern of a regex literal; both are
    opaque to the compiler. *)
Definition Token : Type := nat.
Definition Regexp : Type := string.

(** Modelled from the spec: [influxql.VarRef], a bare field or tag
    reference. *)
Record VarRef := mkVarRef { Val : string; Type_ : DataType.t }.

(** Modelled from the spec: [influxql.Expr], the expression node kinds of
    section 6 (bare reference, function call, distinct, binary
    expression, wildcard, regex literal, duration, time and integer
    literals) with the remaining literal kinds and the parenthesis of the
    language. *)
Inductive Expr :=
| Ref (ref : VarRef)
| Call (Name : string) (Args : list Expr)
| Distinct (Val : string)
| BinaryExpr (Op : Token) (LHS RHS : Expr)
| ParenExpr (e : Expr)
| Wildcard (Type_ : Token)
| RegexLiteral (Val : Regexp)
| DurationLiteral (Val : time.Duration)
| TimeLiteral (Val : time.Time)
| IntegerLiteral (Val : Z)
| NumberLiteral (Val : Z * Z)
| StringLiteral (Val : string)
| BooleanLiteral (Val : bool).

(** Modelled from the spec: the type assertion [e.(influxql.Literal)],
    true of the literal value nodes. *)
Definition isLiteral (e : Expr) : bool :=
  match e with
  | RegexLiteral _ | DurationLiteral _ | TimeLiteral _ | IntegerLiteral _
  | NumberLiteral _ | StringLiteral _ | BooleanLiteral _ => true
  | _ => false
  end.

(** Modelled from the spec: the method [NewCall] of [Distinct], the call
    [distinct(val)] a [Distinct] node stands for. *)
Definition NewCall (val : string) : string * list Expr :=
  ("distinct", [Ref (mkVarRef val DataType.Unknown)]).

(** Modelled from the spec: [influxql.Source]; a measurement, or another
    kind of source (a subquery), identified opaquely. *)
Inductive Source :=
| Measurement (Name : string)
| SubQuery (id : string).

Definition isMeasurement (s : Source) : bool :=
  match s with Measurement _ => true | SubQuery _ => false end.

(** Modelled from the spec: [influxql.Interval], the time bucketing. *)
Record Interval := mkInterval { Duration : time.Duration; Offset : time.Duration }.

(** Modelled from the spec: a selected field, a grouping dimension and
    the parsed SELECT statement. *)
Record Field := mkField { FieldExpr : Expr; Alias : string }.
Record Dimension := mkDimension { DimExpr : Expr }.
Record SelectStatement := mkSelect {
  Fields : list Field;
  Sources : list Source;
  Dimensions : list Dimension
}.

End influxql.

(** ** Results and errors *)

(** An argument of [fmt.Errorf]: a string or an integer, or an expression
    printed through its [String] method. *)
Inductive fmtarg :=
| AStr (s : string)
| AInt (n : Z)
| AExpr (e : influxql.Expr).

(** An [error] value keeps the way it was built. *)
Inductive error :=
| errors_New (text : string)
| fmt_Errorf (format : string) (args : list fmtarg).

Inductive result (A : Type) :=
| Ok (a : A)
| Err (e : error)
| Panic (v : string).
Arguments Ok {A} a.
Arguments Err {A} e.
Arguments Panic {A} v.

(** The values the Go run time panics with. *)
Definition nil_dereference : string :=
  "runtime error: invalid memory address or nil pointer dereference".
Definition divide_by_zero : string := "runtime error: integer divide by zero".

(** Decimal rendering of [%d]. *)
Definition render_int (n : Z) : string :=
  pretty n.

(** [fmt.Sprintf] for the verbs [%s] and [%d] the compiler uses; [show]
    is the [String] method of expressions. *)
Fixpoint Sprintf (show : influxql.Expr → string) (format : string)
    (args : list fmtarg) : string :=
  match format with
  | EmptyString => EmptyString
  | String "%"%char (String v rest) =>
      match args with
      | a :: args' =>
          (match a with
           | AStr s => s
           | AInt n => render_int n
           | AExpr e => show e
           end) +:+ Sprintf show rest args'
      | [] => String "%"%char (String v (Sprintf show rest []))
      end
  | String ch rest => String ch (Sprintf show rest args)
  end.

(** [err.Error()] *)
Definition Error (show : influxql.Expr → string) (e : error) : string :=
  match e with
  | errors_New text => text
  | fmt_Errorf format args => Sprintf show format args
  end.

(** ** The operator graph (edges and nodes of package [query]) *)

(** Pointers into the arena. *)
Definition NodeRef : Type := nat.
Definition WriteEdgeRef : Type := nat.
Definition ReadEdgeRef : Type := nat.

(** Modelled from the spec: the producer half of an edge (section 4.1),
    [WriteEdge]; [Node] is the producing node, [Output] the consumer half
    it is paired with. *)
Module WriteEdge.
Record t := mk { Node : option NodeRef; Output : option ReadEdgeRef }.
End WriteEdge.

(** Modelled from the spec: the consumer half of an edge, [ReadEdge];
    [Node] is the consuming node, [Input] the producer half. *)
Module ReadEdge.
Record t := mk { Node : option NodeRef; Input : option WriteEdgeRef }.
End ReadEdge.

(** Modelled from the spec: the operator node variants of section 2, each
    with its input and output edge handles. *)
Module Node.
Inductive t :=
| Merge (InputNodes : list ReadEdgeRef) (Output : option WriteEdgeRef)
| IteratorCreator (Expr : option influxql.VarRef)
    (Measurement : string) (Output : option WriteEdgeRef)
| FunctionCall (Name : string) (Input : option ReadEdgeRef)
    (Output : option WriteEdgeRef)
| Distinct (Input : option ReadEdgeRef) (Output : option WriteEdgeRef)
| TopBottomSelector (Dimensions : list influxql.VarRef)
    (Input : option ReadEdgeRef) (Output : option WriteEdgeRef)
| BinaryExpr (Op : influxql.Token) (LHS RHS : option ReadEdgeRef)
    (Output : option WriteEdgeRef)
| AuxiliaryFields (Aux : list influxql.VarRef)
    (Input : option ReadEdgeRef) (Output : option WriteEdgeRef)
    (outputs : list WriteEdgeRef).

(** [n.Input = e] *)
Definition setInput (e : option ReadEdgeRef) (n : t) : t :=
  match n with
  | FunctionCall name _ o => FunctionCall name e o
  | Distinct _ o => Distinct e o
  | TopBottomSelector d _ o => TopBottomSelector d e o
  | AuxiliaryFields a _ o os => AuxiliaryFields a e o os
  | _ => n
  end.

(** [n.Output = e] *)
Definition setOutput (e : option WriteEdgeRef) (n : t) : t :=
  match n with
  | Merge i _ => Merge i e
  | IteratorCreator x m _ => IteratorCreator x m e
  | FunctionCall name i _ => FunctionCall name i e
  | Distinct i _ => Distinct i e
  | TopBottomSelector d i _ => TopBottomSelector d i e
  | BinaryExpr op l r _ => BinaryExpr op l r e
  | AuxiliaryFields a i _ os => AuxiliaryFields a i e os
  end.

(** [n.LHS = e] and [n.RHS = e] *)
Definition setLHS (e : option ReadEdgeRef) (n : t) : t :=
  match n with BinaryExpr op _ r o => BinaryExpr op e r o | _ => n end.
Definition setRHS (e : option ReadEdgeRef) (n : t) : t :=
  match n with BinaryExpr op l _ o => BinaryExpr op l e o | _ => n end.
End Node.

(** The arena: every node and edge half allocated so far, addressed by
    position. *)
Record Heap := mkHeap {
  nodes : list Node.t;
  wedges : list WriteEdge.t;
  redges : list ReadEdge.t
}.

Definition empty_heap : Heap := mkHeap [] [] [].

Module heap.

(** [&T{...}] for a node. *)
Definition new (n : Node.t) (h : Heap) : NodeRef * Heap :=
  (length (nodes h), mkHeap (nodes h ++ [n]) (wedges h) (redges h)).

(** An assignment to fields of the node [p] points to. *)
Definition update (p : NodeRef) (f : Node.t → Node.t) (h : Heap) : Heap :=
  mkHeap (alter f p (nodes h)) (wedges h) (redges h).

(** [e.Node = n] on a consumer half and on a producer half. *)
Definition setReadNode (e : ReadEdgeRef) (n : option NodeRef) (h : Heap)
    : Heap :=
  mkHeap (nodes h) (wedges h)
    (alter (λ r, ReadEdge.mk n (ReadEdge.Input r)) e (redges h)).
Definition setWriteNode (e : WriteEdgeRef) (n : option NodeRef) (h : Heap)
    : Heap :=
  mkHeap (nodes h)
    (alter (λ w, WriteEdge.mk n (WriteEdge.Output w)) e (wedges h))
    (redges h).

(** [e.Output] of a producer half. *)
Definition writeOutput (e : WriteEdgeRef) (h : Heap) : option ReadEdgeRef :=
  w ← wedges h !! e; WriteEdge.Output w.

(** Modelled from the spec: [AddEdge(in, out)], the operation
    [create(producer?, consumer?)] of section 4.1; either end may be nil.
    It returns the producer half and the consumer half. *)
Definition AddEdge (input output : option NodeRef) (h : Heap)
    : (WriteEdgeRef * ReadEdgeRef) * Heap :=
  let w := length (wedges h) in
  let r := length (redges h) in
  ((w, r),
   mkHeap (nodes h)
     (wedges h ++ [WriteEdge.mk input (Some r)])
     (redges h ++ [ReadEdge.mk output (Some w)])).

(** Modelled from the spec: [NewEdge(in)], an edge whose consumer is not
    bound yet. *)
Definition NewEdge (input : option NodeRef) (h : Heap)
    : (WriteEdgeRef * ReadEdgeRef) * Heap :=
  AddEdge input None h.

(** Modelled from the spec: [(m *Merge) AddInput(n)] (section 4.2); a new
    edge from [n] into the merge [m], appended to the inputs of [m] in
    call order; the producer half is returned. *)
Definition AddInput (m : NodeRef) (n : NodeRef) (h : Heap)
    : WriteEdgeRef * Heap :=
  let '((w, r), h1) := AddEdge (Some n) (Some m) h in
  (w, update m (λ x, match x with
                     | Node.Merge ins o => Node.Merge (ins ++ [r]) o
                     | _ => x
                     end) h1).

(** Modelled from the spec: [(a *AuxiliaryFields) Iterator(ref)] (section
    4.8); the reference joins the requested fields of the shared node and
    a new output edge of the node is returned for it. *)
Definition Iterator (a : NodeRef) (ref : influxql.VarRef) (h : Heap)
    : ReadEdgeRef * Heap :=
  let '((w, r), h1) := NewEdge (Some a) h in
  (r, update a (λ x, match x with
                     | Node.AuxiliaryFields aux i o os =>
                         Node.AuxiliaryFields (aux ++ [ref]) i o (os ++ [w])
                     | _ => x
                     end) h1).

(** Modelled from the spec: [(e *ReadEdge) Insert(n)] (section 4.8), the
    splice of node [n] into the edge ending in [e]: the producer that fed
    [e] now feeds a new consumer half bound to [n], and [e] is fed by a
    new producer half bound to [n].  Both new halves are returned. *)
Definition Insert (e : ReadEdgeRef) (n : NodeRef) (h : Heap)
    : (ReadEdgeRef * WriteEdgeRef) * Heap :=
  let old := r ← redges h !! e; ReadEdge.Input r in
  let out := length (redges h) in
  let inp := length (wedges h) in
  let ws := match old with
            | Some w => alter (λ x, WriteEdge.mk (WriteEdge.Node x) (Some out))
                          w (wedges h)
            | None => wedges h
            end in
  ((out, inp),
   mkHeap (nodes h)
     (ws ++ [WriteEdge.mk (Some n) (Some e)])
     (alter (λ r, ReadEdge.mk (ReadEdge.Node r) (Some inp)) e (redges h)
        ++ [ReadEdge.mk (Some n) old])).

End heap.

(** ** The monad of methods: receiver state, arena, errors and panics *)

Definition M (X A : Type) : Type := X * Heap → result (A * (X * Heap)).

Global Instance M_ret {X} : MRet (M X) := λ A a s, Ok (a, s).
Global Instance M_bind {X} : MBind (M X) := λ A B f m s,
  match m s with
  | Ok (a, s') => f a s'
  | Err e => Err e
  | Panic v => Panic v
  end.

Section monad.
Context {X : Type}.

(** [return nil, err] *)
Definition fail {A} (e : error) : M X A := λ _, Err e.
(** [panic(v)] *)
Definition panic {A} (v : string) : M X A := λ _, Panic v.
(** Reading and assigning fields of the receiver. *)
Definition gets {A} (f : X → A) : M X A := λ s, Ok (f (fst s), s).
Definition modify (f : X → X) : M X unit := λ s, Ok (tt, (f (fst s), snd s)).
(** Operations on the arena. *)
Definition alloc {A} (f : Heap → A * Heap) : M X A :=
  λ s, let '(a, h) := f (snd s) in Ok (a, (fst s, h)).
Definition store (f : Heap → Heap) : M X unit :=
  λ s, Ok (tt, (fst s, f (snd s))).
Definition load {A} (f : Heap → A) : M X A := λ s, Ok (f (snd s), s).

(** [for _, x := range l { body }] *)
Fixpoint foreach {A} (body : A → M X unit) (l : list A) : M X unit :=
  match l with
  | [] => mret tt
  | x :: l' => body x ;; foreach body l'
  end.

(** [returns m s Q]: run on [s], the computation [m] returns (it neither
    fails nor panics) and its value and final state satisfy [Q]. *)
Definition returns {A} (m : M X A) (s : X * Heap)
    (Q : A → X * Heap → Prop) : Prop :=
  match m s with
  | Ok (a, s') => Q a s'
  | _ => False
  end.
End monad.

(** [switch name { case a, b, ...: }] on a string. *)
Definition oneof (name : string) (cases : list string) : bool :=
  existsb (String.eqb name) cases.

(** The compile options are the same in both drafts. *)
Record CompileOptions := mkOptions { Now : time.Time }.

(** ** First draft of the compiler (child returns its output edge) *)

Module Draft1.

Record compiledStatement := mkStatement {
  Sources : list influxql.Source;
  Dimensions : list string;
  Interval : influxql.Interval;
  FunctionCalls : list ReadEdgeRef;
  OnlySelectors : bool;
  TopBottomFunction : string;
  AuxiliaryFields : option NodeRef;
  OutputEdges : list ReadEdgeRef;
  Options : CompileOptions
}.

(** Assignments to the fields of the statement. *)
Definition setSources v c :=
  mkStatement v (Dimensions c) (Interval c) (FunctionCalls c)
    (OnlySelectors c) (TopBottomFunction c) (AuxiliaryFields c)
    (OutputEdges c) (Options c).
Definition setDimensions v c :=
  mkStatement (Sources c) v (Interval c) (FunctionCalls c)
    (OnlySelectors c) (TopBottomFunction c) (AuxiliaryFields c)
    (OutputEdges c) (Options c).
Definition setInterval v c :=
  mkStatement (Sources c) (Dimensions c) v (FunctionCalls c)
    (OnlySelectors c) (TopBottomFunction c) (AuxiliaryFields c)
    (OutputEdges c) (Options c).
Definition setFunctionCalls v c :=
  mkStatement (Sources c) (Dimensions c) (Interval c) v
    (OnlySelectors c) (TopBottomFunction c) (AuxiliaryFields c)
    (OutputEdges c) (Options c).
Definition setOnlySelectors v c :=
  mkStatement (Sources c) (Dimensions c) (Interval c) (FunctionCalls c)
    v (TopBottomFunction c) (AuxiliaryFields c)
    (OutputEdges c) (Options c).
Definition setTopBottomFunction v c :=
  mkStatement (Sources c) (Dimensions c) (Interval c) (FunctionCalls c)
    (OnlySelectors c) v (AuxiliaryFields c)
    (OutputEdges c) (Options c).
Definition setAuxiliaryFields v c :=
  mkStatement (Sources c) (Dimensions c) (Interval c) (FunctionCalls c)
    (OnlySelectors c) (TopBottomFunction c) v
    (OutputEdges c) (Options c).
Definition setOutputEdges v c :=
  mkStatement (Sources c) (Dimensions c) (Interval c) (FunctionCalls c)
    (OnlySelectors c) (TopBottomFunction c) (AuxiliaryFields c)
    v (Options c).

(** [newCompiler]; [clock] is what [time.Now()] reads. *)
Definition newCompiler (clock : time.Time) (stmt : influxql.SelectStatement)
    (opt : CompileOptions) : compiledStatement :=
  let opt := if time.IsZero (Now opt)
             then mkOptions (time.UTC clock) else opt in
  mkStatement [] [] (influxql.mkInterval 0 0) [] true "" None [] opt.

(** The body of the loop of [compileVarRef] over the sources: a leaf for
    a measurement; a source of another kind panics. *)
Definition compileVarRef_source (ref : option influxql.VarRef)
    (merge : NodeRef) (source : influxql.Source) : M compiledStatement unit :=
  match source with
  | influxql.Measurement name =>
      ic ← alloc (heap.new (Node.IteratorCreator ref name None));
      w ← alloc (heap.AddInput merge ic);
      store (heap.update ic (Node.setOutput (Some w)))
  | _ => panic "unimplemented"
  end.

(** [compileVarRef]: a merge over one leaf per source. *)
Definition compileVarRef (ref : option influxql.VarRef)
    (node : option NodeRef) : M compiledStatement ReadEdgeRef :=
  merge ← alloc (heap.new (Node.Merge [] None));
  sources ← gets Sources;
  foreach (compileVarRef_source ref merge) sources;;
  '(w, out) ← alloc (heap.AddEdge (Some merge) node);
  store (heap.update merge (Node.setOutput (Some w)));;
  mret out.

(** [compileDistinct] *)
Definition compileDistinct (Name : string) (Args : list influxql.Expr)
    : M compiledStatement ReadEdgeRef :=
  if (length Args =? 0)%nat then
    fail (errors_New "distinct function requires at least one argument")
  else if negb (length Args =? 1)%nat then
    fail (errors_New "distinct function can only have one argument")
  else
    match Args with
    | influxql.Ref arg0 :: _ =>
        d ← alloc (heap.new (Node.Distinct None None));
        input ← compileVarRef (Some arg0) (Some d);
        store (heap.update d (Node.setInput (Some input)));;
        '(w, out) ← alloc (heap.NewEdge (Some d));
        store (heap.update d (Node.setOutput (Some w)));;
        modify (λ c, setFunctionCalls (FunctionCalls c ++ [out]) c);;
        mret out
    | _ => fail (errors_New "expected field argument in distinct()")
    end.

(** [compileFunction] *)
Definition compileFunction (Name : string) (Args : list influxql.Expr)
    : M compiledStatement ReadEdgeRef :=
  if negb (1 =? length Args)%nat then
    fail (fmt_Errorf
            "invalid number of arguments for %s, expected %d, got %d"
            [AStr Name; AInt 1; AInt (Z.of_nat (length Args))])
  else
    match Args with
    | [] => panic "runtime error: index out of range"
    | arg0 :: _ =>
        (* Generate the source of the function. *)
        input ←
          (if String.eqb Name "count" then
             match arg0 with
             | influxql.Call name0 args0 =>
                 if String.eqb name0 "distinct" then
                   d ← compileDistinct name0 args0; mret (Some d)
                 else mret None
             | influxql.Distinct val =>
                 let '(name0, args0) := influxql.NewCall val in
                 d ← compileDistinct name0 args0; mret (Some d)
             | _ => mret None
             end
           else mret None);
        (* Must be a variable reference. *)
        input ←
          match input with
          | Some input => mret input
          | None =>
              match arg0 with
              | influxql.Ref arg0 => compileVarRef (Some arg0) None
              | _ => fail (fmt_Errorf "expected field argument in %s()"
                             [AStr Name])
              end
          end;
        call ← alloc (heap.new (Node.FunctionCall Name None None));
        store (heap.update call (Node.setInput (Some input)));;
        store (heap.setReadNode input (Some call));;
        (* Meta properties of the function for query validation. *)
        (if oneof Name ["top"; "bottom"] then
           tb ← gets TopBottomFunction;
           if String.eqb tb "" then modify (setTopBottomFunction Name)
           else mret tt
         else if oneof Name
                   ["max"; "min"; "first"; "last"; "percentile"; "sample"]
         then mret tt
         else modify (setOnlySelectors false));;
        '(w, out) ← alloc (heap.NewEdge (Some call));
        store (heap.update call (Node.setOutput (Some w)));;
        modify (λ c, setFunctionCalls (FunctionCalls c ++ [out]) c);;
        mret out
    end.

(** The loop of [compileTopBottom] over the interior arguments. *)
Fixpoint topBottomDimensions (Name : string) (vs : list influxql.Expr)
    (dimensions : list influxql.VarRef)
    : M compiledStatement (list influxql.VarRef) :=
  match vs with
  | [] => mret dimensions
  | influxql.Ref ref :: vs' =>
      topBottomDimensions Name vs' (dimensions ++ [ref])
  | v :: _ =>
      fail (fmt_Errorf "only fields or tags are allowed in %s(), found %s"
              [AStr Name; AExpr v])
  end.

(** [compileTopBottom] *)
Definition compileTopBottom (Name : string) (Args : list influxql.Expr)
    : M compiledStatement ReadEdgeRef :=
  tb ← gets TopBottomFunction;
  if negb (String.eqb tb "") then
    fail (fmt_Errorf
            "selector function %s() cannot be combined with other functions"
            [AStr tb])
  else if (length Args <? 2)%nat then
    fail (fmt_Errorf
            "invalid number of arguments for %s, expected at least %d, got %d"
            [AStr Name; AInt 2; AInt (Z.of_nat (length Args))])
  else
    match Args with
    | influxql.Ref ref :: _ =>
        dimensions ←
          (if (2 <? length Args)%nat then
             topBottomDimensions Name
               (take (length Args - 2) (drop 1 Args)) []
           else mret []);
        match last Args with
        | Some (influxql.IntegerLiteral limit) =>
            if limit <=? 0 then
              fail (fmt_Errorf
                      "limit (%d) in %s function must be at least 1"
                      [AInt limit; AStr Name])
            else
              modify (setTopBottomFunction Name);;
              selector ← alloc (heap.new
                                  (Node.TopBottomSelector dimensions None None));
              input ← compileVarRef (Some ref) (Some selector);
              store (heap.update selector (Node.setInput (Some input)));;
              '(w, out) ← alloc (heap.NewEdge (Some selector));
              store (heap.update selector (Node.setOutput (Some w)));;
              modify (λ c, setFunctionCalls (FunctionCalls c ++ [out]) c);;
              mret out
        | Some v =>
            fail (fmt_Errorf
                    "expected integer as last argument in %s(), found %s"
                    [AStr Name; AExpr v])
        | None => panic "runtime error: index out of range"
        end
    | _ => fail (fmt_Errorf "expected field argument in %s()" [AStr Name])
    end.

(** [compileExpr] *)
Fixpoint compileExpr (expr : influxql.Expr)
    : M compiledStatement ReadEdgeRef :=
  match expr with
  | influxql.Ref ref =>
      (* If there is no instance of AuxiliaryFields, instantiate one. *)
      aux ← gets AuxiliaryFields;
      a ← match aux with
          | Some a => mret a
          | None =>
              a ← alloc (heap.new (Node.AuxiliaryFields [] None None []));
              modify (setAuxiliaryFields (Some a));;
              mret a
          end;
      alloc (heap.Iterator a ref)
  | influxql.Call Name Args =>
      if oneof Name ["count"; "min"; "max"; "sum"; "first"; "last"; "mean"]
      then compileFunction Name Args
      else if oneof Name ["distinct"] then compileDistinct Name Args
      else if oneof Name ["top"; "bottom"] then compileTopBottom Name Args
      else fail (errors_New "unimplemented")
  | influxql.Distinct val =>
      let '(name0, args0) := influxql.NewCall val in
      compileDistinct name0 args0
  | influxql.BinaryExpr Op LHS RHS =>
      (* Check if either side is a literal. *)
      if influxql.isLiteral LHS then fail (errors_New "unimplemented")
      else if influxql.isLiteral RHS then fail (errors_New "unimplemented")
      else
        lhs ← compileExpr LHS;
        rhs ← compileExpr RHS;
        node ← alloc (heap.new (Node.BinaryExpr Op (Some lhs) (Some rhs) None));
        store (heap.setReadNode lhs (Some node));;
        store (heap.setReadNode rhs (Some node));;
        '(w, out) ← alloc (heap.NewEdge (Some node));
        store (heap.update node (Node.setOutput (Some w)));;
        mret out
  | _ => fail (errors_New "unimplemented")
  end.

(** [linkAuxiliaryFields] *)
Definition linkAuxiliaryFields : M compiledStatement unit :=
  aux ← gets AuxiliaryFields;
  calls ← gets FunctionCalls;
  match aux with
  | None =>
      if (length calls =? 0)%nat then
        fail (errors_New "at least 1 non-time field must be queried")
      else mret tt
  | Some a =>
      only ← gets OnlySelectors;
      if negb only then
        fail (fmt_Errorf
                "mixing aggregate and non-aggregate queries is not supported"
                [])
      else if (1 <? length calls)%nat then
        fail (fmt_Errorf
                "mixing multiple selector functions with tags or fields is not supported"
                [])
      else if (length calls =? 1)%nat then
        match calls !! 0%nat with
        | Some call0 =>
            '(i, o) ← alloc (heap.Insert call0 a);
            store (heap.update a (Node.setInput (Some i)));;
            store (heap.update a (Node.setOutput (Some o)))
        | None => panic "runtime error: index out of range"
        end
      else
        (* A default IteratorCreator for this AuxiliaryFields. *)
        input ← compileVarRef None (Some a);
        store (heap.update a (Node.setInput (Some input)))
  end.

(** [validateFields] *)
Definition validateFields : M compiledStatement unit :=
  calls ← gets FunctionCalls;
  tb ← gets TopBottomFunction;
  (* No multiple calls if top/bottom is present. *)
  if (1 <? length calls)%nat && negb (String.eqb tb "") then
    fail (fmt_Errorf
            "selector function %s() cannot be combined with other functions"
            [AStr tb])
  else mret tt.

Section Compile.

(** [strings.ToLower] of Go's standard library. *)
Variable ToLower : string → string.

(** The body of the loop of [Compile] over the dimensions. *)
Definition Compile_dimension (d : influxql.Dimension)
    : M compiledStatement unit :=
  match influxql.DimExpr d with
  | influxql.Ref expr =>
      if String.eqb (ToLower (influxql.Val expr)) "time" then
        fail (errors_New
                "time() is a function and expects at least one argument")
      else
        modify (λ c, setDimensions (Dimensions c ++ [influxql.Val expr]) c)
  | influxql.Call Name Args =>
      (* The call must be time() with one or two arguments. *)
      if negb (String.eqb Name "time") then
        fail (errors_New "only time() calls allowed in dimensions")
      else if (length Args <? 1)%nat || (2 <? length Args)%nat then
        fail (errors_New "time dimension expected 1 or 2 arguments")
      else
        match Args !! 0%nat with
        | Some (influxql.DurationLiteral lit) =>
            duration ← gets (λ c, influxql.Duration (Interval c));
            if negb (duration =? 0) then
              fail (errors_New "multiple time dimensions not allowed")
            else
              modify (λ c, setInterval
                (influxql.mkInterval lit (influxql.Offset (Interval c))) c);;
              if (length Args =? 2)%nat then
                duration ← gets (λ c, influxql.Duration (Interval c));
                match Args !! 1%nat with
                | Some (influxql.DurationLiteral lit1) =>
                    if duration =? 0 then panic divide_by_zero
                    else
                      modify (λ c, setInterval
                        (influxql.mkInterval (influxql.Duration (Interval c))
                           (Z.rem lit1 duration)) c)
                | Some (influxql.TimeLiteral lit1) =>
                    modify (λ c, setInterval
                      (influxql.mkInterval (influxql.Duration (Interval c))
                         (time.Sub lit1 (time.Truncate lit1 duration))) c)
                | Some (influxql.Call name1 args1) =>
                    if negb (String.eqb name1 "now") then
                      fail (errors_New
                              "time dimension offset function must be now()")
                    else if negb (length args1 =? 0)%nat then
                      fail (errors_New
                              "time dimension offset now() function requires no arguments")
                    else
                      now ← gets (λ c, Now (Options c));
                      modify (λ c, setInterval
                        (influxql.mkInterval (influxql.Duration (Interval c))
                           (time.Sub now (time.Truncate now duration))) c)
                | Some _ =>
                    fail (errors_New
                            "time dimension offset must be duration or now()")
                | None => panic "runtime error: index out of range"
                end
              else mret tt
        | Some _ =>
            fail (errors_New "time dimension must have duration argument")
        | None => panic "runtime error: index out of range"
        end
  | influxql.Wildcard _ => mret tt
  | influxql.RegexLiteral _ => fail (errors_New "unimplemented")
  | _ => fail (errors_New "only time and tag dimensions allowed")
  end.

(** The body of the loop of [Compile] over the fields. *)
Definition Compile_field (f : influxql.Field) : M compiledStatement unit :=
  if match influxql.FieldExpr f with
     | influxql.Ref ref => String.eqb (influxql.Val ref) "time"
     | _ => false
     end
  then mret tt
  else
    out ← compileExpr (influxql.FieldExpr f);
    modify (λ c, setOutputEdges (OutputEdges c ++ [out]) c).

(** The statement [Compile] starts from. *)
Definition Compile_init (clock : time.Time)
    (stmt : influxql.SelectStatement) (opt : CompileOptions)
    : compiledStatement :=
  let c := newCompiler clock stmt opt in
  let c := setSources (Sources c ++ influxql.Sources stmt) c in
  setDimensions [] c.

(** The two loops of [Compile]: the dimensions, then the fields. *)
Definition Compile_loops (dimensions : list influxql.Dimension)
    (fields : list influxql.Field) : M compiledStatement unit :=
  foreach Compile_dimension dimensions;;
  foreach Compile_field fields.

(** The steps of [Compile] after the statement is set up. *)
Definition Compile_body (stmt : influxql.SelectStatement)
    : M compiledStatement unit :=
  Compile_loops (influxql.Dimensions stmt) (influxql.Fields stmt);;
  validateFields;;
  linkAuxiliaryFields.

(** [Compile]; the compiled statement comes with the graph it owns. *)
Definition Compile (clock : time.Time) (stmt : influxql.SelectStatement)
    (opt : CompileOptions) : result (compiledStatement * Heap) :=
  match Compile_body stmt (Compile_init clock stmt opt, empty_heap) with
  | Ok (_, s) => Ok s
  | Err e => Err e
  | Panic v => Panic v
  end.

End Compile.

(** What the loop over the dimensions leaves alone: every field of the
    statement but [Dimensions] and [Interval]. *)
Definition beside_dimensions (c : compiledStatement) :=
  (Sources c, FunctionCalls c, OnlySelectors c, TopBottomFunction c,
   AuxiliaryFields c, OutputEdges c, Options c).

(** [extends c c']: what compiling expressions can change in the
    statement.  The sources, dimensions, interval and options stay; the
    registered function calls only grow; [TopBottomFunction] and
    [AuxiliaryFields] stay once set; [OnlySelectors] stays once false. *)
Record extends (c c' : compiledStatement) : Prop := mkExtends {
  ext_Sources : Sources c' = Sources c;
  ext_Dimensions : Dimensions c' = Dimensions c;
  ext_Interval : Interval c' = Interval c;
  ext_Options : Options c' = Options c;
  ext_FunctionCalls : FunctionCalls c `prefix_of` FunctionCalls c';
  ext_TopBottomFunction :
    TopBottomFunction c ≠ "" → TopBottomFunction c' = TopBottomFunction c;
  ext_AuxiliaryFields :
    is_Some (AuxiliaryFields c) → AuxiliaryFields c' = AuxiliaryFields c;
  ext_OnlySelectors : OnlySelectors c = false → OnlySelectors c' = false
}.

(** [kept n sources c]: the statement [c] reads from [sources], has [n]
    registered function calls, only selectors, and no top/bottom
    function. *)
Definition kept (n : nat) (sources : list influxql.Source)
    (c : compiledStatement) : Prop :=
  length (FunctionCalls c) = n ∧ OnlySelectors c = true ∧
  TopBottomFunction c = "" ∧ Sources c = sources.

End Draft1.

(** ** Second draft of the compiler (parent hands down an unbound edge) *)

Module Draft2.

(** [Field], the field constructed after linking. *)
Record Field := mkResolved { FieldName : string }.

(** [wildcard], a wildcard within a field. *)
Record wildcard := mkWildcard {
  NameFilters : list influxql.Regexp;
  TypeFilters : gset influxql.DataType.t
}.

(** A [*compiledStatement] is nil or the address of the statement under
    compilation, the only one a call of [Compile] allocates. *)
Definition StatementRef : Type := unit.

(** [compiledField], the compilation state of a field; an unresolved
    symbol is opaque. *)
Record compiledField := mkCompiledField {
  global : option StatementRef;
  Field_ : influxql.Field;
  Output : option ReadEdgeRef;
  Symbols : list string;
  Wildcard : option wildcard
}.

Record compiledStatement := mkStatement {
  Sources : list influxql.Source;
  Dimensions : list string;
  Interval : influxql.Interval;
  FunctionCalls : list (option ReadEdgeRef);
  OnlySelectors : bool;
  TopBottomFunction : string;
  AuxiliaryFields : option NodeRef;
  Fields : list compiledField;
  Options : CompileOptions
}.

(** Assignments to the fields of the statement. *)
Definition setSources v c :=
  mkStatement v (Dimensions c) (Interval c) (FunctionCalls c)
    (OnlySelectors c) (TopBottomFunction c) (AuxiliaryFields c)
    (Fields c) (Options c).
Definition setDimensions v c :=
  mkStatement (Sources c) v (Interval c) (FunctionCalls c)
    (OnlySelectors c) (TopBottomFunction c) (AuxiliaryFields c)
    (Fields c) (Options c).
Definition setInterval v c :=
  mkStatement (Sources c) (Dimensions c) v (FunctionCalls c)
    (OnlySelectors c) (TopBottomFunction c) (AuxiliaryFields c)
    (Fields c) (Options c).
Definition setFunctionCalls v c :=
  mkStatement (Sources c) (Dimensions c) (Interval c) v
    (OnlySelectors c) (TopBottomFunction c) (AuxiliaryFields c)
    (Fields c) (Options c).
Definition setOnlySelectors v c :=
  mkStatement (Sources c) (Dimensions c) (Interval c) (FunctionCalls c)
    v (TopBottomFunction c) (AuxiliaryFields c)
    (Fields c) (Options c).
Definition setTopBottomFunction v c :=
  mkStatement (Sources c) (Dimensions c) (Interval c) (FunctionCalls c)
    (OnlySelectors c) v (AuxiliaryFields c)
    (Fields c) (Options c).
Definition setAuxiliaryFields v c :=
  mkStatement (Sources c) (Dimensions c) (Interval c) (FunctionCalls c)
    (OnlySelectors c) (TopBottomFunction c) v
    (Fields c) (Options c).
Definition setFields v c :=
  mkStatement (Sources c) (Dimensions c) (Interval c) (FunctionCalls c)
    (OnlySelectors c) (TopBottomFunction c) (AuxiliaryFields c)
    v (Options c).
Definition setWildcard v f :=
  mkCompiledField (global f) (Field_ f) (Output f) (Symbols f) v.

(** [newCompiler]; [clock] is what [time.Now()] reads. *)
Definition newCompiler (clock : time.Time) (stmt : influxql.SelectStatement)
    (opt : CompileOptions) : compiledStatement :=
  let opt := if time.IsZero (Now opt)
             then mkOptions (time.UTC clock) else opt in
  mkStatement [] [] (influxql.mkInterval 0 0) [] true "" None [] opt.

(** *** Methods of the statement *)

(** [requireAuxiliaryFields] *)
Definition requireAuxiliaryFields : M compiledStatement unit :=
  aux ← gets AuxiliaryFields;
  match aux with
  | None =>
      a ← alloc (heap.new (Node.AuxiliaryFields [] None None []));
      modify (setAuxiliaryFields (Some a))
  | Some _ => mret tt
  end.

(** The body of the loop of [compileVarRef] over the sources: a leaf for
    a measurement; a source of another kind returns an error. *)
Definition compileVarRef_source (ref : option influxql.VarRef)
    (merge : NodeRef) (source : influxql.Source) : M compiledStatement unit :=
  match source with
  | influxql.Measurement name =>
      ic ← alloc (heap.new (Node.IteratorCreator ref name None));
      w ← alloc (heap.AddInput merge ic);
      store (heap.update ic (Node.setOutput (Some w)))
  | _ => fail (errors_New "unimplemented")
  end.

(** [compileVarRef]: a merge over one leaf per source. *)
Definition compileVarRef (ref : option influxql.VarRef) (out : WriteEdgeRef)
    : M compiledStatement unit :=
  merge ← alloc (heap.new (Node.Merge [] (Some out)));
  sources ← gets Sources;
  foreach (compileVarRef_source ref merge) sources;;
  store (heap.setWriteNode out (Some merge)).

(** [linkAuxiliaryFields] *)
Definition linkAuxiliaryFields : M compiledStatement unit :=
  aux ← gets AuxiliaryFields;
  calls ← gets FunctionCalls;
  match aux with
  | None =>
      if (length calls =? 0)%nat then
        fail (errors_New "at least 1 non-time field must be queried")
      else mret tt
  | Some a =>
      only ← gets OnlySelectors;
      if negb only then
        fail (fmt_Errorf
                "mixing aggregate and non-aggregate queries is not supported"
                [])
      else if (1 <? length calls)%nat then
        fail (fmt_Errorf
                "mixing multiple selector functions with tags or fields is not supported"
                [])
      else if (length calls =? 1)%nat then
        match calls !! 0%nat with
        | Some (Some call0) =>
            '(i, o) ← alloc (heap.Insert call0 a);
            store (heap.update a (Node.setInput (Some i)));;
            store (heap.update a (Node.setOutput (Some o)))
        | Some None => panic nil_dereference
        | None => panic "runtime error: index out of range"
        end
      else
        (* A default IteratorCreator for this AuxiliaryFields. *)
        '(out, input) ← alloc (heap.AddEdge None (Some a));
        store (heap.update a (Node.setInput (Some input)));;
        compileVarRef None out
  end.

(** [validateFields] *)
Definition validateFields : M compiledStatement unit :=
  calls ← gets FunctionCalls;
  tb ← gets TopBottomFunction;
  if (1 <? length calls)%nat && negb (String.eqb tb "") then
    fail (fmt_Errorf
            "selector function %s() cannot be combined with other functions"
            [AStr tb])
  else mret tt.

(** *** Methods of a field *)

(** The state of a method of a field: the field, and the statement its
    [global] pointer may refer to. *)
Definition FieldState : Type := compiledField * compiledStatement.

(** An access to the statement through [c.global]: a nil pointer
    dereference when [global] is nil. *)
Definition via_global {A} (m : M compiledStatement A) : M FieldState A :=
  λ s,
    match global (fst (fst s)) with
    | None => Panic nil_dereference
    | Some _ =>
        match m (snd (fst s), snd s) with
        | Ok (a, (c', h')) => Ok (a, ((fst (fst s), c'), h'))
        | Err e => Err e
        | Panic v => Panic v
        end
    end.

(** An assignment to a field of the receiver. *)
Definition modify_field (f : compiledField → compiledField)
    : M FieldState unit :=
  modify (λ s : FieldState, (f (fst s), snd s)).

(** [wildcard] *)
Definition wildcard_ : M FieldState unit :=
  modify_field (λ f,
    match Wildcard f with
    | None => setWildcard (Some (mkWildcard [] ∅)) f
    | Some _ => f
    end).

(** The assignments to the wildcard; they follow a call of [wildcard],
    so the pointer is not nil. *)
Definition update_wildcard (g : wildcard → wildcard) : M FieldState unit :=
  w ← gets (λ s : FieldState, Wildcard (fst s));
  match w with
  | Some w => modify_field (setWildcard (Some (g w)))
  | None => panic nil_dereference
  end.

(** [wildcardFilter] *)
Definition wildcardFilter (filter : influxql.Regexp) : M FieldState unit :=
  wildcard_;;
  update_wildcard (λ w, mkWildcard (NameFilters w ++ [filter]) (TypeFilters w)).

(** [wildcardFunction] *)
Definition wildcardFunction (name : string) : M FieldState unit :=
  wildcard_;;
  if oneof name
       ["count"; "first"; "last"; "distinct"; "elapsed"; "mode"; "sample"]
  then update_wildcard (λ w,
         mkWildcard (NameFilters w)
           ({[influxql.DataType.Boolean]} ∪ TypeFilters w))
  else if oneof name ["min"; "max"] then mret tt
  else update_wildcard (λ w,
         mkWildcard (NameFilters w)
           ({[influxql.DataType.String]} ∪ TypeFilters w)).

(** [wildcardFunctionFilter] *)
Definition wildcardFunctionFilter (name : string) (filter : influxql.Regexp)
    : M FieldState unit :=
  wildcardFunction name;;
  update_wildcard (λ w, mkWildcard (NameFilters w ++ [filter]) (TypeFilters w)).

(** [c.global.FunctionCalls = append(c.global.FunctionCalls, out.Output)] *)
Definition registerFunctionCall (out : WriteEdgeRef) : M FieldState unit :=
  via_global (
    r ← load (heap.writeOutput out);
    modify (λ c, setFunctionCalls (FunctionCalls c ++ [r]) c)).

(** [compileDistinct] *)
Definition compileDistinct (Name : string) (Args : list influxql.Expr)
    (out : WriteEdgeRef) (nested : bool) : M FieldState unit :=
  if (length Args =? 0)%nat then
    fail (errors_New "distinct function requires at least one argument")
  else if negb (length Args =? 1)%nat then
    fail (errors_New "distinct function can only have one argument")
  else
    match Args with
    | influxql.Ref arg0 :: _ =>
        (* Add the distinct node to the graph. *)
        d ← alloc (heap.new (Node.Distinct None (Some out)));
        (if negb nested then registerFunctionCall out else mret tt);;
        store (heap.setWriteNode out (Some d));;
        '(out, input) ← alloc (heap.AddEdge None (Some d));
        store (heap.update d (Node.setInput (Some input)));;
        (* Add the variable reference to complete the graph. *)
        via_global (compileVarRef (Some arg0) out)
    | _ => fail (errors_New "expected field argument in distinct()")
    end.

(** [compileFunction] *)
Definition compileFunction (Name : string) (Args : list influxql.Expr)
    (out : WriteEdgeRef) : M FieldState unit :=
  if negb (1 =? length Args)%nat then
    fail (fmt_Errorf
            "invalid number of arguments for %s, expected %d, got %d"
            [AStr Name; AInt 1; AInt (Z.of_nat (length Args))])
  else
    (* Create the function call and send its output to the write edge. *)
    call ← alloc (heap.new (Node.FunctionCall Name None (Some out)));
    registerFunctionCall out;;
    store (heap.setWriteNode out (Some call));;
    '(out, input) ← alloc (heap.AddEdge None (Some call));
    store (heap.update call (Node.setInput (Some input)));;
    (* Meta properties of the function for query validation. *)
    (if oneof Name ["max"; "min"; "first"; "last"; "percentile"; "sample"]
     then mret tt
     else via_global (modify (setOnlySelectors false)));;
    match Args with
    | [] => panic "runtime error: index out of range"
    | arg0 :: _ =>
        (* count() allows distinct() as the function argument. *)
        nested ←
          (if String.eqb Name "count" then
             match arg0 with
             | influxql.Call name0 args0 =>
                 if String.eqb name0 "distinct" then
                   mret (Some (name0, args0))
                 else mret None
             | influxql.Distinct val => mret (Some (influxql.NewCall val))
             | _ => mret None
             end
           else mret None);
        match nested with
        | Some (name0, args0) => compileDistinct name0 args0 out true
        | None =>
            (* Must be a variable reference, wildcard, or regexp. *)
            match arg0 with
            | influxql.Ref arg0 => via_global (compileVarRef (Some arg0) out)
            | influxql.Wildcard _ => wildcardFunction Name
            | influxql.RegexLiteral val => wildcardFunctionFilter Name val
            | _ => fail (fmt_Errorf "expected field argument in %s()"
                           [AStr Name])
            end
        end
    end.

(** The loop of [compileTopBottom] over the interior arguments. *)
Fixpoint topBottomDimensions (Name : string) (vs : list influxql.Expr)
    (dimensions : list influxql.VarRef)
    : M FieldState (list influxql.VarRef) :=
  match vs with
  | [] => mret dimensions
  | influxql.Ref ref :: vs' =>
      topBottomDimensions Name vs' (dimensions ++ [ref])
  | v :: _ =>
      fail (fmt_Errorf "only fields or tags are allowed in %s(), found %s"
              [AStr Name; AExpr v])
  end.

(** [compileTopBottom] *)
Definition compileTopBottom (Name : string) (Args : list influxql.Expr)
    (out : WriteEdgeRef) : M FieldState unit :=
  tb ← via_global (gets TopBottomFunction);
  if negb (String.eqb tb "") then
    fail (fmt_Errorf
            "selector function %s() cannot be combined with other functions"
            [AStr tb])
  else if (length Args <? 2)%nat then
    fail (fmt_Errorf
            "invalid number of arguments for %s, expected at least %d, got %d"
            [AStr Name; AInt 2; AInt (Z.of_nat (length Args))])
  else
    match Args with
    | influxql.Ref ref :: _ =>
        dimensions ←
          (if (2 <? length Args)%nat then
             topBottomDimensions Name
               (take (length Args - 2) (drop 1 Args)) []
           else mret []);
        match last Args with
        | Some (influxql.IntegerLiteral limit) =>
            if limit <=? 0 then
              fail (fmt_Errorf
                      "limit (%d) in %s function must be at least 1"
                      [AInt limit; AStr Name])
            else
              via_global (modify (setTopBottomFunction Name));;
              selector ← alloc (heap.new
                (Node.TopBottomSelector dimensions None (Some out)));
              store (heap.setWriteNode out (Some selector));;
              '(out, input) ← alloc (heap.AddEdge None (Some selector));
              store (heap.update selector (Node.setInput (Some input)));;
              via_global (compileVarRef (Some ref) out)
        | Some v =>
            fail (fmt_Errorf
                    "expected integer as last argument in %s(), found %s"
                    [AStr Name; AExpr v])
        | None => panic "runtime error: index out of range"
        end
    | _ => fail (fmt_Errorf "expected field argument in %s()" [AStr Name])
    end.

(** [compileExpr]: creates the node that executes the expression and
    connects it to the write edge [out]. *)
Fixpoint compileExpr (expr : influxql.Expr) (out : WriteEdgeRef)
    : M FieldState unit :=
  match expr with
  | influxql.Ref ref =>
      (* A bare variable reference requires auxiliary fields. *)
      via_global requireAuxiliaryFields
  | influxql.Wildcard _ =>
      via_global requireAuxiliaryFields;;
      wildcard_;;
      fail (errors_New "unimplemented")
  | influxql.RegexLiteral val =>
      via_global requireAuxiliaryFields;;
      wildcardFilter val;;
      fail (errors_New "unimplemented")
  | influxql.Call Name Args =>
      if oneof Name ["count"; "min"; "max"; "sum"; "first"; "last"; "mean"]
      then compileFunction Name Args out
      else if oneof Name ["distinct"] then compileDistinct Name Args out false
      else if oneof Name ["top"; "bottom"] then compileTopBottom Name Args out
      else fail (errors_New "unimplemented")
  | influxql.Distinct val =>
      let '(name0, args0) := influxql.NewCall val in
      compileDistinct name0 args0 out false
  | influxql.BinaryExpr Op LHS RHS =>
      (* Check if either side is a literal. *)
      if influxql.isLiteral LHS then fail (errors_New "unimplemented")
      else if influxql.isLiteral RHS then fail (errors_New "unimplemented")
      else
        (* A binary expression and an input edge for each side. *)
        node ← alloc (heap.new (Node.BinaryExpr Op None None (Some out)));
        store (heap.setWriteNode out (Some node));;
        '(lhs, r) ← alloc (heap.AddEdge None (Some node));
        store (heap.update node (Node.setLHS (Some r)));;
        compileExpr LHS lhs;;
        '(rhs, r) ← alloc (heap.AddEdge None (Some node));
        store (heap.update node (Node.setRHS (Some r)));;
        compileExpr RHS rhs
  | _ => fail (errors_New "unimplemented")
  end.

Section Compile.

(** [strings.ToLower] of Go's standard library. *)
Variable ToLower : string → string.

(** The body of the loop of [Compile] over the dimensions. *)
Definition Compile_dimension (d : influxql.Dimension)
    : M compiledStatement unit :=
  match influxql.DimExpr d with
  | influxql.Ref expr =>
      if String.eqb (ToLower (influxql.Val expr)) "time" then
        fail (errors_New
                "time() is a function and expects at least one argument")
      else
        modify (λ c, setDimensions (Dimensions c ++ [influxql.Val expr]) c)
  | influxql.Call Name Args =>
      (* The call must be time() with one or two arguments. *)
      if negb (String.eqb Name "time") then
        fail (errors_New "only time() calls allowed in dimensions")
      else if (length Args <? 1)%nat || (2 <? length Args)%nat then
        fail (errors_New "time dimension expected 1 or 2 arguments")
      else
        match Args !! 0%nat with
        | Some (influxql.DurationLiteral lit) =>
            duration ← gets (λ c, influxql.Duration (Interval c));
            if negb (duration =? 0) then
              fail (errors_New "multiple time dimensions not allowed")
            else
              modify (λ c, setInterval
                (influxql.mkInterval lit (influxql.Offset (Interval c))) c);;
              if (length Args =? 2)%nat then
                duration ← gets (λ c, influxql.Duration (Interval c));
                match Args !! 1%nat with
                | Some (influxql.DurationLiteral lit1) =>
                    if duration =? 0 then panic divide_by_zero
                    else
                      modify (λ c, setInterval
                        (influxql.mkInterval (influxql.Duration (Interval c))
                           (Z.rem lit1 duration)) c)
                | Some (influxql.TimeLiteral lit1) =>
                    modify (λ c, setInterval
                      (influxql.mkInterval (influxql.Duration (Interval c))
                         (time.Sub lit1 (time.Truncate lit1 duration))) c)
                | Some (influxql.Call name1 args1) =>
                    if negb (String.eqb name1 "now") then
                      fail (errors_New
                              "time dimension offset function must be now()")
                    else if negb (length args1 =? 0)%nat then
                      fail (errors_New
                              "time dimension offset now() function requires no arguments")
                    else
                      now ← gets (λ c, Now (Options c));
                      modify (λ c, setInterval
                        (influxql.mkInterval (influxql.Duration (Interval c))
                           (time.Sub now (time.Truncate now duration))) c)
                | Some _ =>
                    fail (errors_New
                            "time dimension offset must be duration or now()")
                | None => panic "runtime error: index out of range"
                end
              else mret tt
        | Some _ =>
            fail (errors_New "time dimension must have duration argument")
        | None => panic "runtime error: index out of range"
        end
  | influxql.Wildcard _ => fail (errors_New "unimplemented")
  | influxql.RegexLiteral _ => fail (errors_New "unimplemented")
  | _ => fail (errors_New "only time and tag dimensions allowed")
  end.

(** Running a method of [field] from [Compile]; it gives back the field
    as the method left it. *)
Definition on_field {A} (field : compiledField) (m : M FieldState A)
    : M compiledStatement compiledField :=
  λ s,
    match m ((field, fst s), snd s) with
    | Ok (_, ((field', c'), h')) => Ok (field', (c', h'))
    | Err e => Err e
    | Panic v => Panic v
    end.

(** The body of the loop of [Compile] over the fields; the new field
    is built with no [global] pointer. *)
Definition Compile_field (f : influxql.Field) : M compiledStatement unit :=
  if match influxql.FieldExpr f with
     | influxql.Ref ref => String.eqb (influxql.Val ref) "time"
     | _ => false
     end
  then mret tt
  else
    '(input, out) ← alloc (heap.NewEdge None);
    field ← on_field (mkCompiledField None f (Some out) [] None)
              (compileExpr (influxql.FieldExpr f) input);
    modify (λ c, setFields (Fields c ++ [field]) c).

(** The statement [Compile] starts from. *)
Definition Compile_init (clock : time.Time)
    (stmt : influxql.SelectStatement) (opt : CompileOptions)
    : compiledStatement :=
  let c := newCompiler clock stmt opt in
  let c := setSources (Sources c ++ influxql.Sources stmt) c in
  setDimensions [] c.

(** The two loops of [Compile]: the dimensions, then the fields. *)
Definition Compile_loops (dimensions : list influxql.Dimension)
    (fields : list influxql.Field) : M compiledStatement unit :=
  foreach Compile_dimension dimensions;;
  foreach Compile_field fields.

(** The steps of [Compile] after the statement is set up. *)
Definition Compile_body (stmt : influxql.SelectStatement)
    : M compiledStatement unit :=
  Compile_loops (influxql.Dimensions stmt) (influxql.Fields stmt);;
  validateFields;;
  linkAuxiliaryFields.

(** [Compile] *)
Definition Compile (clock : time.Time) (stmt : influxql.SelectStatement)
    (opt : CompileOptions) : result (compiledStatement * Heap) :=
  match Compile_body stmt (Compile_init clock stmt opt, empty_heap) with
  | Ok (_, s) => Ok s
  | Err e => Err e
  | Panic v => Panic v
  end.

End Compile.

End Draft2.

(** ** Vocabulary of the statements *)

(** The error of a selector function combined with other functions. *)
Definition selector_error (X : string) : error :=
  fmt_Errorf "selector function %s() cannot be combined with other functions"
    [AStr X].

(** [time(d, ...)]: a dimension entry calling [time] on the duration
    literal [d] and the arguments [rest]. *)
Definition time_dimension (d : time.Duration) (rest : list influxql.Expr)
    : influxql.Dimension :=
  influxql.mkDimension (influxql.Call "time" (influxql.DurationLiteral d :: rest)).

(** A [time()] entry whose first argument is a nonzero duration literal. *)
Definition nonzero_time_entry (d : influxql.Dimension) : bool :=
  match influxql.DimExpr d with
  | influxql.Call name (influxql.DurationLiteral v :: _) =>
      String.eqb name "time" && negb (v =? 0)
  | _ => false
  end.

(** A field whose expression is a function call or a [distinct]. *)
Definition call_field (f : influxql.Field) : bool :=
  match influxql.FieldExpr f with
  | influxql.Call _ _ | influxql.Distinct _ => true
  | _ => false
  end.


(** A field [distinct(x)], in either syntax. *)
Definition distinct_field (x : influxql.VarRef) (f : influxql.Field) : Prop :=
  influxql.FieldExpr f = influxql.Call "distinct" [influxql.Ref x] ∨
  (influxql.FieldExpr f = influxql.Distinct (influxql.Val x) ∧
   influxql.Type_ x = influxql.DataType.Unknown).

(** ** Concrete statements *)

Module strings.
(** [strings.ToLower] restricted to ASCII text: the letters A to Z are
    mapped to lower case and every other byte is kept, where Go's function
    also lowers the letters outside ASCII.  It is used on the concrete
    statements below, whose names are ASCII; the general theorems take the
    lowering function as a parameter. *)
Definition lower (a : ascii) : ascii :=
  let n := nat_of_ascii a in
  if (65 <=? n)%nat && (n <=? 90)%nat then ascii_of_nat (n + 32) else a.
Fixpoint ToLower (s : string) : string :=
  match s with
  | EmptyString => EmptyString
  | String a s' => String (lower a) (ToLower s')
  end.
End strings.

Module examples.
Import influxql.

Definition ref (name : string) : Expr := Ref (mkVarRef name DataType.Unknown).
Definition field (e : Expr) : Field := mkField e "".
Definition cpu : list Source := [Measurement "cpu"].

(** An explicit [now], and a reading of the clock. *)
Definition opt : CompileOptions := mkOptions (63000000000 * time.Second + 7).
Definition clock : time.Time := 63000000100 * time.Second.

(** [SELECT count(distinct(value)) FROM cpu] *)
Definition count_distinct : SelectStatement :=
  mkSelect [field (Call "count" [Call "distinct" [ref "value"]])] cpu [].
(** [SELECT value FROM (SELECT ...)] *)
Definition from_subquery : SelectStatement :=
  mkSelect [field (Call "max" [ref "value"])] [SubQuery "inner"] [].
(** [SELECT value + 2 FROM cpu] *)
Definition plus_literal : SelectStatement :=
  mkSelect [field (BinaryExpr 0%nat (ref "value") (IntegerLiteral 2))] cpu [].
(** [SELECT max(value), value FROM cpu] *)
Definition max_and_value : SelectStatement :=
  mkSelect [field (Call "max" [ref "value"]); field (ref "value")] cpu [].
(** [SELECT time FROM cpu] *)
Definition only_time : SelectStatement :=
  mkSelect [field (ref "time")] cpu [].
(** [SELECT top(value, 3), max(value) FROM cpu] *)
Definition top_and_max : SelectStatement :=
  mkSelect [field (Call "top" [ref "value"; IntegerLiteral 3]);
            field (Call "max" [ref "value"])] cpu [].
(** [SELECT mean(value) FROM cpu GROUP BY time(0s), time(5m)] *)
Definition zero_then_five : SelectStatement :=
  mkSelect [field (Call "mean" [ref "value"])] cpu
    [time_dimension 0 []; time_dimension (5 * time.Minute) []].
(** [SELECT mean(value) FROM cpu GROUP BY time(1m), host, time(5m)] *)
Definition one_then_five : SelectStatement :=
  mkSelect [field (Call "mean" [ref "value"])] cpu
    [time_dimension time.Minute []; mkDimension (ref "host");
     time_dimension (5 * time.Minute) []].
(** [SELECT mean(value) FROM cpu GROUP BY time(1m), time(5m, 1m, 2m)] *)
Definition one_then_three_arguments : SelectStatement :=
  mkSelect [field (Call "mean" [ref "value"])] cpu
    [time_dimension time.Minute [];
     time_dimension (5 * time.Minute)
       [DurationLiteral time.Minute; DurationLiteral (2 * time.Minute)]].
(** [SELECT mean(value) FROM cpu GROUP BY time(1m), /h.*/, time(5m)] *)
Definition one_regex_five : SelectStatement :=
  mkSelect [field (Call "mean" [ref "value"])] cpu
    [time_dimension time.Minute []; mkDimension (RegexLiteral "h.*");
     time_dimension (5 * time.Minute) []].
(** [SELECT mean(value) FROM cpu GROUP BY time(5m, 1m)] *)
Definition five_offset_one : SelectStatement :=
  mkSelect [field (Call "mean" [ref "value"])] cpu
    [time_dimension (5 * time.Minute) [DurationLiteral time.Minute]].
(** [SELECT mean(value) FROM cpu GROUP BY time(5m, -7m)] *)
Definition five_offset_minus_seven : SelectStatement :=
  mkSelect [field (Call "mean" [ref "value"])] cpu
    [time_dimension (5 * time.Minute) [DurationLiteral (-7 * time.Minute)]].
(** [SELECT mean(value) FROM cpu GROUP BY time(5m, now())] *)
Definition five_offset_now : SelectStatement :=
  mkSelect [field (Call "mean" [ref "value"])] cpu
    [time_dimension (5 * time.Minute) [Call "now" []]].
(** [SELECT distinct(value), host FROM cpu] *)
Definition distinct_and_host : SelectStatement :=
  mkSelect [field (Call "distinct" [ref "value"]); field (ref "host")] cpu [].

(** The statement the first draft starts from, and its compilation. *)
Definition init (stmt : SelectStatement) : Draft1.compiledStatement :=
  Draft1.Compile_init clock stmt opt.
Definition run (stmt : SelectStatement)
    : result (Draft1.compiledStatement * Heap) :=
  Draft1.Compile strings.ToLower clock stmt opt.

(** What a statement compiles to; the initial state when it does not
    compile. *)
Definition compiled (stmt : SelectStatement)
    : Draft1.compiledStatement * Heap :=
  match run stmt with
  | Ok s => s
  | _ => (init stmt, empty_heap)
  end.
End examples.

(** ** Publishing the output edges *)

(** Modelled from the spec: [Plan], the consumer of the compiled output
    edges (section 6); [AddTarget] takes an edge, registers it as an
    execution target and returns nothing. *)
Module Plan.
Record t := mk { targets : list (option ReadEdgeRef) }.
Definition AddTarget (e : option ReadEdgeRef) (p : t) : t :=
  mk (targets p ++ [e]).
End Plan.

(** [Select] of the first draft: every output edge is added to the plan;
    the output edges are returned (the error is always nil). *)
Module Draft1_Select.
Definition Select (c : Draft1.compiledStatement) (plan : Plan.t)
    : list ReadEdgeRef * Plan.t :=
  (Draft1.OutputEdges c,
   foldl (λ plan out, Plan.AddTarget (Some out) plan) plan
     (Draft1.OutputEdges c)).
End Draft1_Select.

(** [Select] of the second draft: the output edge of every compiled field
    is added to the plan and collected, in the order of the fields. *)
Module Draft2_Select.
Definition Select (c : Draft2.compiledStatement) (plan : Plan.t)
    : list (option ReadEdgeRef) * Plan.t :=
  foldl (λ acc f,
           (fst acc ++ [Draft2.Output f],
            Plan.AddTarget (Draft2.Output f) (snd acc)))
    ([], plan) (Draft2.Fields c).
End Draft2_Select.

(** ** Vocabulary of the further properties *)

(** [no_panic m s]: run on [s], the computation [m] returns a value or an
    error; it does not panic. *)
Definition no_panic {X A} (m : M X A) (s : X * Heap) : Prop :=
  ∀ v, m s ≠ Panic v.

(** A field that is not the bare reference [time]: the fields [Compile]
    compiles and publishes. *)
Definition published_field (f : influxql.Field) : bool :=
  negb match influxql.FieldExpr f with
       | influxql.Ref ref => String.eqb (influxql.Val ref) "time"
       | _ => false
       end.

(** The names of the bare tag references of a dimension list, in order. *)
Definition tag_names (ds : list influxql.Dimension) : list string :=
  flat_map (λ d, match influxql.DimExpr d with
                 | influxql.Ref ref => [influxql.Val ref]
                 | _ => []
                 end) ds.

(** A dimension entry that is a wildcard. *)
Definition wildcard_dimension (d : influxql.Dimension) : bool :=
  match influxql.DimExpr d with influxql.Wildcard _ => true | _ => false end.

(** The functions [compileFunction] takes for selectors: they leave
    [OnlySelectors] as it is. *)
Definition selector_names : list string :=
  ["max"; "min"; "first"; "last"; "percentile"; "sample"].

(** The leaf a node is, if it is one: its reference and measurement. *)
Definition leaf (n : Node.t) : option (option influxql.VarRef * string) :=
  match n with
  | Node.IteratorCreator ref name _ => Some (ref, name)
  | _ => None
  end.

(** The measurement a source is, if it is one. *)
Definition measurement_name (s : influxql.Source) : option string :=
  match s with
  | influxql.Measurement name => Some name
  | influxql.SubQuery _ => None
  end.

(** What the loop over the dimensions works on: the grouping tags, the
    interval and the reference time, in each draft. *)
Definition grouping1 (c : Draft1.compiledStatement)
    : list string * influxql.Interval * time.Time :=
  (Draft1.Dimensions c, Draft1.Interval c, Now (Draft1.Options c)).
Definition grouping2 (c : Draft2.compiledStatement)
    : list string * influxql.Interval * time.Time :=
  (Draft2.Dimensions c, Draft2.Interval c, Now (Draft2.Options c)).

(** Two runs that end alike: both return, with statements related by
    [R], or both fail with the same error, or both panic with the same
    value. *)
Definition alike {X1 X2 A} (R : X1 → X2 → Prop)
    (r1 : result (A * (X1 * Heap))) (r2 : result (A * (X2 * Heap))) : Prop :=
  match r1, r2 with
  | Ok (_, (c1, _)), Ok (_, (c2, _)) => R c1 c2
  | Err e1, Err e2 => e1 = e2
  | Panic v1, Panic v2 => v1 = v2
  | _, _ => False
  end.

(** A field that is a bare reference other than [time]. *)
Definition bare_field (f : influxql.Field) : bool :=
  match influxql.FieldExpr f with
  | influxql.Ref ref => negb (String.eqb (influxql.Val ref) "time")
  | _ => false
  end.

(** A field that is a call of an aggregate [compileExpr] takes: [count],
    [sum] or [mean]. *)
Definition aggregate_field (f : influxql.Field) : bool :=
  match influxql.FieldExpr f with
  | influxql.Call name _ => oneof name ["count"; "sum"; "mean"]
  | _ => false
  end.

(** A field that is a reference or a call of a selector [compileExpr]
    takes: [min], [max], [first] or [last]. *)
Definition plain_field (f : influxql.Field) : bool :=
  match influxql.FieldExpr f with
  | influxql.Ref _ => true
  | influxql.Call name _ => oneof name ["min"; "max"; "first"; "last"]
  | _ => false
  end.

(** The errors of [linkAuxiliaryFields] on a statement that mixes. *)
Definition mixing_aggregate : error :=
  fmt_Errorf "mixing aggregate and non-aggregate queries is not supported" [].
Definition mixing_selectors : error :=
  fmt_Errorf
    "mixing multiple selector functions with tags or fields is not supported"
    [].

(** A field that is a reference, or a call on one reference of a
    function [compileExpr] hands to [compileFunction]. *)
Definition simple_field (f : influxql.Field) : bool :=
  match influxql.FieldExpr f with
  | influxql.Ref _ => true
  | influxql.Call name [influxql.Ref _] =>
      oneof name ["count"; "min"; "max"; "sum"; "first"; "last"; "mean"]
  | _ => false
  end.

(** The error of linking on a list of simple fields, if there is one: it
    depends on whether a bare reference is among them, on whether every
    call is a selector, and on the number of calls. *)
Definition simple_verdict (fields : list influxql.Field) : option error :=
  let n := length (List.filter call_field fields) in
  if existsb bare_field fields then
    if negb (forallb plain_field fields) then Some mixing_aggregate
    else if (1 <? n)%nat then Some mixing_selectors
    else None
  else if (n =? 0)%nat then
    Some (errors_New "at least 1 non-time field must be queried")
  else None.


(** ** Further statements *)

Module further_examples.
Import influxql.

(** [SELECT mean(value) FROM cpu GROUP BY host, time(5m, t), region], for
    a time literal [t]. *)
Definition by_host_and_region : SelectStatement :=
  mkSelect [examples.field (Call "mean" [examples.ref "value"])] examples.cpu
    [mkDimension (examples.ref "host");
     time_dimension (5 * time.Minute)
       [TimeLiteral (63000000000 * time.Second + 7)];
     mkDimension (examples.ref "region")].
(** [SELECT count(value), host FROM cpu] *)
Definition count_and_host : SelectStatement :=
  mkSelect [examples.field (Call "count" [examples.ref "value"]);
            examples.field (examples.ref "host")] examples.cpu [].
(** [SELECT max(value), min(value), host FROM cpu] *)
Definition max_min_and_host : SelectStatement :=
  mkSelect [examples.field (Call "max" [examples.ref "value"]);
            examples.field (Call "min" [examples.ref "value"]);
            examples.field (examples.ref "host")] examples.cpu [].
(** [SELECT max(value) FROM cpu, mem] *)
Definition cpu_and_mem : SelectStatement :=
  mkSelect [examples.field (Call "max" [examples.ref "value"])]
    [Measurement "cpu"; Measurement "mem"] [].

(** The reference [value] compiled over [cpu] and [mem]; the initial
    state when it does not compile. *)
Definition value : VarRef := mkVarRef "value" DataType.Unknown.
Definition read_value : ReadEdgeRef * (Draft1.compiledStatement * Heap) :=
  match Draft1.compileVarRef (Some value) None
          (examples.init cpu_and_mem, empty_heap) with
  | Ok x => x
  | _ => (0%nat, (examples.init cpu_and_mem, empty_heap))
  end.

(** The statement the second draft starts from, and a field of it that
    has its [global] pointer. *)
Definition init2 (stmt : SelectStatement) : Draft2.compiledStatement :=
  Draft2.Compile_init examples.clock stmt examples.opt.
End further_examples.

(** * Properties *)

(** ** Reasoning about computations that return *)

Section monad_facts.
Context {X : Type}.
Implicit Types s : X * Heap.

Lemma bind_Ok {A B} (m : M X A) (f : A → M X B) s b s' :
  (m ≫= f) s = Ok (b, s') ↔ ∃ a s1, m s = Ok (a, s1) ∧ f a s1 = Ok (b, s').
Proof.
  unfold mbind, M_bind. split.
  - destruct (m s) as [[a s1]| |]; [eauto | discriminate..].
  - intros (a & s1 & -> & ?). done.
Qed.

Lemma bind_Err {A B} (m : M X A) (f : A → M X B) s e :
  m s = Err e → (m ≫= f) s = Err e.
Proof. unfold mbind, M_bind. by intros ->. Qed.

Lemma bind_Panic {A B} (m : M X A) (f : A → M X B) s v :
  m s = Panic v → (m ≫= f) s = Panic v.
Proof. unfold mbind, M_bind. by intros ->. Qed.

Lemma bind_step {A B} (m : M X A) (f : A → M X B) s a s1 :
  m s = Ok (a, s1) → (m ≫= f) s = f a s1.
Proof. unfold mbind, M_bind. by intros ->. Qed.

(** Running the primitive steps. *)
Lemma run_ret {A B} (a : A) (f : A → M X B) s : (mret a ≫= f) s = f a s.
Proof. done. Qed.
Lemma run_gets {A B} (g : X → A) (f : A → M X B) s :
  (gets g ≫= f) s = f (g (fst s)) s.
Proof. done. Qed.
Lemma run_modify {B} (g : X → X) (f : unit → M X B) s :
  (modify g ≫= f) s = f tt (g (fst s), snd s).
Proof. done. Qed.
Lemma run_store {B} (g : Heap → Heap) (f : unit → M X B) s :
  (store g ≫= f) s = f tt (fst s, g (snd s)).
Proof. done. Qed.

Lemma ret_Ok {A} (a b : A) s s' :
  (mret a : M X A) s = Ok (b, s') ↔ b = a ∧ s' = s.
Proof. unfold mret, M_ret. split; [by intros [= -> ->] | by intros [-> ->]]. Qed.

Lemma gets_Ok {A} (f : X → A) s a s' :
  gets f s = Ok (a, s') ↔ a = f (fst s) ∧ s' = s.
Proof. unfold gets. split; [by intros [= -> ->] | by intros [-> ->]]. Qed.

Lemma modify_Ok (f : X → X) s u s' :
  modify f s = Ok (u, s') ↔ s' = (f (fst s), snd s).
Proof. unfold modify. destruct u. split; [by intros [= ->] | by intros ->]. Qed.

Lemma alloc_Ok {A} (f : Heap → A * Heap) s a s' :
  alloc f s = Ok (a, s') ↔ a = fst (f (snd s)) ∧ s' = (fst s, snd (f (snd s))).
Proof.
  unfold alloc. destruct (f (snd s)); simpl.
  split; [by intros [= -> ->] | by intros [-> ->]].
Qed.

Lemma store_Ok (f : Heap → Heap) s u s' :
  store f s = Ok (u, s') ↔ s' = (fst s, f (snd s)).
Proof. unfold store. destruct u. split; [by intros [= ->] | by intros ->]. Qed.

Lemma load_Ok {A} (f : Heap → A) s a s' :
  load f s = Ok (a, s') ↔ a = f (snd s) ∧ s' = s.
Proof. unfold load. split; [by intros [= -> ->] | by intros [-> ->]]. Qed.

Lemma fail_Ok {A} e s (x : A * (X * Heap)) : fail e s = Ok x ↔ False.
Proof. unfold fail. split; [discriminate | done]. Qed.

Lemma panic_Ok {A} v s (x : A * (X * Heap)) : panic v s = Ok x ↔ False.
Proof. unfold panic. split; [discriminate | done]. Qed.

Lemma foreach_app {A} (body : A → M X unit) l1 l2 s :
  foreach body (l1 ++ l2) s = (foreach body l1 ;; foreach body l2) s.
Proof.
  revert s. induction l1 as [|x l1 IH]; intros s; simpl.
  - done.
  - unfold mbind, M_bind in *. destruct (body x s) as [[[] s1]| |]; [|done..].
    apply IH.
Qed.

(** A loop whose body keeps a preorder on the receiver keeps it. *)
Lemma foreach_Ok {A} (R : X → X → Prop) (body : A → M X unit) l :
  PreOrder R →
  (∀ x s u s', x ∈ l → body x s = Ok (u, s') → R (fst s) (fst s')) →
  ∀ s u s', foreach body l s = Ok (u, s') → R (fst s) (fst s').
Proof.
  intros HR. induction l as [|x l IH]; intros Hbody s u s' H; simpl in H.
  - apply ret_Ok in H as [_ ->]. reflexivity.
  - apply bind_Ok in H as (u1 & s1 & H1 & H2).
    transitivity (fst s1).
    + eapply Hbody; [left | done].
    + eapply IH; [|done]. intros. eapply Hbody; [by right | done].
Qed.
End monad_facts.

Section returns_facts.
Context {X : Type}.
Implicit Types s : X * Heap.

Lemma returns_Ok {A} (m : M X A) s Q :
  returns m s Q ↔ ∃ a s', m s = Ok (a, s') ∧ Q a s'.
Proof.
  unfold returns. destruct (m s) as [[a s']| |].
  - split; [eauto | by intros (? & ? & [= -> ->] & ?)].
  - split; [done | by intros (? & ? & ? & ?)].
  - split; [done | by intros (? & ? & ? & ?)].
Qed.

Lemma returns_mono {A} (m : M X A) s (Q Q' : A → X * Heap → Prop) :
  returns m s Q → (∀ a s', Q a s' → Q' a s') → returns m s Q'.
Proof. unfold returns. destruct (m s) as [[a s']| |]; eauto. Qed.

Lemma returns_bind {A B} (m : M X A) (f : A → M X B) s Q :
  returns m s (λ a s1, returns (f a) s1 Q) → returns (m ≫= f) s Q.
Proof.
  unfold returns, mbind, M_bind. by destruct (m s) as [[a s1]| |].
Qed.

Lemma returns_ret {A} (a : A) s (Q : A → X * Heap → Prop) :
  Q a s → returns (mret a) s Q.
Proof. done. Qed.

Lemma returns_gets {A} (f : X → A) s (Q : A → X * Heap → Prop) :
  Q (f (fst s)) s → returns (gets f) s Q.
Proof. done. Qed.

Lemma returns_modify (f : X → X) s (Q : unit → X * Heap → Prop) :
  Q tt (f (fst s), snd s) → returns (modify f) s Q.
Proof. done. Qed.

Lemma returns_alloc {A} (f : Heap → A * Heap) s (Q : A → X * Heap → Prop) :
  Q (fst (f (snd s))) (fst s, snd (f (snd s))) → returns (alloc f) s Q.
Proof. unfold returns, alloc. by destruct (f (snd s)). Qed.

Lemma returns_store (f : Heap → Heap) s (Q : unit → X * Heap → Prop) :
  Q tt (fst s, f (snd s)) → returns (store f) s Q.
Proof. done. Qed.

Lemma returns_load {A} (f : Heap → A) s (Q : A → X * Heap → Prop) :
  Q (f (snd s)) s → returns (load f) s Q.
Proof. done. Qed.
End returns_facts.

(** Symbolic execution of the primitive steps of a computation. *)
Ltac returns_step :=
  lazymatch goal with
  | |- returns (_ ≫= _) _ _ => apply returns_bind
  | |- returns (@mret (M _) _ _ _) _ _ => apply returns_ret
  | |- returns (gets _) _ _ => apply returns_gets
  | |- returns (modify _) _ _ => apply returns_modify
  | |- returns (alloc _) _ _ => apply returns_alloc
  | |- returns (store _) _ _ => apply returns_store
  | |- returns (load _) _ _ => apply returns_load
  end.
Ltac returns_go := repeat (returns_step; simpl).

(** Inversion of a hypothesis saying that a computation returned. *)
Ltac inv_step :=
  match goal with
  | H : (_ ≫= _) _ = Ok _ |- _ =>
      apply bind_Ok in H; destruct H as (? & [? ?] & ? & ?)
  | H : @mret (M _) _ _ _ _ = Ok _ |- _ => apply ret_Ok in H; destruct H
  | H : gets _ _ = Ok _ |- _ => apply gets_Ok in H; destruct H
  | H : modify _ _ = Ok _ |- _ => apply modify_Ok in H
  | H : alloc _ _ = Ok _ |- _ => apply alloc_Ok in H; destruct H
  | H : store _ _ = Ok _ |- _ => apply store_Ok in H
  | H : load _ _ = Ok _ |- _ => apply load_Ok in H; destruct H
  | H : fail _ _ = Ok _ |- _ => by apply fail_Ok in H
  | H : panic _ _ = Ok _ |- _ => by apply panic_Ok in H
  | H : (let '(_, _) := ?p in _) _ = Ok _ |- _ => destruct p
  | H : (if ?b then _ else _) _ = Ok _ |- _ => destruct b eqn:?
  end.
Ltac inv_ok := repeat (inv_step; simpl in *; simplify_eq).

(** ** The first draft *)

Section Draft1_facts.
Import Draft1.
Implicit Types (c : compiledStatement) (h : Heap).

(** *** [compileVarRef] *)

Lemma compileVarRef_source_Ok ref merge source c h u c' h' :
  compileVarRef_source ref merge source (c, h) = Ok (u, (c', h')) →
  c' = c ∧ influxql.isMeasurement source = true.
Proof. destruct source; simpl; intros; inv_ok; done. Qed.

Lemma compileVarRef_sources_Ok ref merge sources c h u c' h' :
  foreach (compileVarRef_source ref merge) sources (c, h) = Ok (u, (c', h')) →
  c' = c ∧ Forall (λ s, influxql.isMeasurement s = true) sources.
Proof.
  revert h. induction sources as [|s l IH]; simpl; intros h H; inv_ok.
  - done.
  - match goal with H : compileVarRef_source _ _ _ _ = _ |- _ =>
      apply compileVarRef_source_Ok in H as [-> ?] end.
    match goal with H : foreach _ _ _ = _ |- _ => apply IH in H as [-> ?] end.
    split; [done | by constructor].
Qed.

(** A variable reference that compiles leaves the statement as it is,
    and every source is a measurement. *)
Lemma compileVarRef_Ok ref node c h r c' h' :
  compileVarRef ref node (c, h) = Ok (r, (c', h')) →
  c' = c ∧ Forall (λ s, influxql.isMeasurement s = true) (Sources c).
Proof.
  unfold compileVarRef. intros H. inv_ok.
  match goal with H : foreach _ _ _ = _ |- _ =>
    by apply compileVarRef_sources_Ok in H as [-> ?] end.
Qed.

Lemma compileVarRef_sources_measurements ref merge sources c h :
  Forall (λ s, influxql.isMeasurement s = true) sources →
  returns (foreach (compileVarRef_source ref merge) sources) (c, h)
    (λ _ s', fst s' = c).
Proof.
  intros Hall. revert h. induction Hall as [|s l Hs _ IH]; intros h; simpl.
  - done.
  - destruct s; [|done]. simpl. returns_go. apply IH.
Qed.

(** Over measurements a variable reference always compiles. *)
Lemma compileVarRef_measurements ref node c h :
  Forall (λ s, influxql.isMeasurement s = true) (Sources c) →
  returns (compileVarRef ref node) (c, h) (λ _ s', fst s' = c).
Proof.
  intros Hall. unfold compileVarRef. returns_go.
  eapply returns_mono; [by apply compileVarRef_sources_measurements|].
  intros [] [c1 h1] ?; simplify_eq/=. by returns_go.
Qed.

(** *** The statement only grows *)

Global Instance extends_preorder : PreOrder extends.
Proof.
  split.
  - intros c. by split.
  - intros c1 c2 c3 [S1 D1 I1 O1 F1 T1 A1 N1] [S2 D2 I2 O2 F2 T2 A2 N2].
    split; try congruence.
    + by etrans.
    + intros H. rewrite T2; [by apply T1 | by rewrite T1].
    + intros H. rewrite A2; [by apply A1 | by rewrite A1].
    + eauto.
Qed.

Lemma extends_length c c' :
  extends c c' → (length (FunctionCalls c) ≤ length (FunctionCalls c'))%nat.
Proof. intros []. by apply prefix_length. Qed.

(** [distinct(x)] registers its output edge and changes nothing else. *)
Lemma compileDistinct_Ok Name Args c h r c' h' :
  compileDistinct Name Args (c, h) = Ok (r, (c', h')) →
  c' = setFunctionCalls (FunctionCalls c ++ [r]) c.
Proof.
  unfold compileDistinct. intros H.
  destruct Args as [|[] [|]]; simpl in H; inv_ok.
  match goal with H : compileVarRef _ _ _ = _ |- _ =>
    apply compileVarRef_Ok in H as [-> _] end.
  done.
Qed.

Lemma compileDistinct_extends Name Args c h r c' h' :
  compileDistinct Name Args (c, h) = Ok (r, (c', h')) → extends c c'.
Proof.
  intros ->%compileDistinct_Ok. split; simpl; try done.
  by apply prefix_app_r.
Qed.

(** Inversion through the results above. *)
Ltac inv_d1 :=
  repeat first
    [ inv_step; simpl in *; simplify_eq
    | match goal with
      | H : compileVarRef _ _ _ = Ok _ |- _ =>
          apply compileVarRef_Ok in H; destruct H as [? _]; simplify_eq
      | H : compileDistinct _ _ _ = Ok _ |- _ =>
          apply compileDistinct_Ok in H; simplify_eq
      end ].

(** A function call registers its output edge last, after the edge of a
    nested [distinct] if there is one. *)
Lemma compileFunction_Ok Name Args c h r c' h' :
  compileFunction Name Args (c, h) = Ok (r, (c', h')) →
  extends c c' ∧
  AuxiliaryFields c' = AuxiliaryFields c ∧
  OutputEdges c' = OutputEdges c ∧
  ∃ pre, FunctionCalls c' = FunctionCalls c ++ pre ++ [r]
         ∧ (length pre ≤ 1)%nat.
Proof.
  unfold compileFunction. intros H.
  destruct Args as [|arg0 [|]]; simpl in H; try by inv_ok.
  destruct arg0; inv_d1.
  all: repeat match goal with H : String.eqb _ _ = true |- _ =>
                apply String.eqb_eq in H end.
  all: split; [split; simpl; try done; try congruence|].
  all: try (rewrite <- ?app_assoc; by apply prefix_app_r).
  all: do 2 (split; [done|]).
  all: simpl.
  all: first [ exists []; split; [done | simpl; lia]
             | eexists [_]; split; [by rewrite <- app_assoc | simpl; lia] ].
Qed.

Lemma topBottomDimensions_Ok Name vs dimensions s ds s' :
  topBottomDimensions Name vs dimensions s = Ok (ds, s') → s' = s.
Proof.
  revert dimensions. induction vs as [|[] vs IH]; simpl; intros dims H;
    inv_ok; eauto.
Qed.

(** [top] and [bottom] compile only while no such function is recorded;
    they record their name and register their output edge. *)
Lemma compileTopBottom_Ok Name Args c h r c' h' :
  compileTopBottom Name Args (c, h) = Ok (r, (c', h')) →
  TopBottomFunction c = "" ∧
  c' = setFunctionCalls (FunctionCalls c ++ [r]) (setTopBottomFunction Name c).
Proof.
  unfold compileTopBottom. intros H. inv_ok.
  match goal with H : negb _ = false |- _ =>
    apply negb_false_iff, String.eqb_eq in H end.
  destruct Args as [|[] Args]; inv_ok.
  all: match goal with H : (match last ?l with _ => _ end) _ = Ok _ |- _ =>
         destruct (last l) as [[]|]; inv_d1 end.
  all: repeat match goal with H : topBottomDimensions _ _ _ _ = Ok _ |- _ =>
         apply topBottomDimensions_Ok in H; simplify_eq end.
  all: done.
Qed.

Lemma compileTopBottom_extends Name Args c h r c' h' :
  compileTopBottom Name Args (c, h) = Ok (r, (c', h')) → extends c c'.
Proof.
  intros [Htb ->]%compileTopBottom_Ok. split; simpl; try done.
  by apply prefix_app_r.
Qed.

(** Compiling an expression only extends the statement. *)
Lemma compileExpr_extends expr c h r c' h' :
  compileExpr expr (c, h) = Ok (r, (c', h')) → extends c c'.
Proof.
  revert c h r c' h'.
  induction expr as [ref|Name Args|val|Op LHS IHL RHS IHR| | | | | | | | |];
    intros c h r c' h' H; simpl in H; try by inv_ok.
  - inv_ok. destruct (AuxiliaryFields c) as [a|] eqn:Ha; inv_ok.
    + reflexivity.
    + split; simpl; try done. rewrite Ha. by intros [? [=]].
  - repeat match type of H with
      | (if ?b then _ else _) _ = Ok _ => destruct b
      end.
    + by apply compileFunction_Ok in H as [? _].
    + by apply compileDistinct_extends in H.
    + by apply compileTopBottom_extends in H.
    + inv_ok.
  - by apply compileDistinct_extends in H.
  - inv_ok. etrans; [by eapply IHL | by eapply IHR].
Qed.

(** A call or a [distinct] that compiles registers at least its own
    output edge. *)
Lemma compileExpr_registers expr c h r c' h' :
  match expr with
  | influxql.Call _ _ | influxql.Distinct _ => True
  | _ => False
  end →
  compileExpr expr (c, h) = Ok (r, (c', h')) →
  (length (FunctionCalls c) < length (FunctionCalls c'))%nat.
Proof.
  destruct expr as [|Name Args|val| | | | | | | | | |]; try done;
    intros _ H; simpl in H.
  - repeat match type of H with
      | (if ?b then _ else _) _ = Ok _ => destruct b
      end.
    + apply compileFunction_Ok in H as (_ & _ & _ & pre & -> & _).
      rewrite !length_app. simpl. lia.
    + apply compileDistinct_Ok in H as ->. simpl.
      rewrite length_app. simpl. lia.
    + apply compileTopBottom_Ok in H as [_ ->]. simpl.
      rewrite length_app. simpl. lia.
    + inv_ok.
  - apply compileDistinct_Ok in H as ->. simpl.
    rewrite length_app. simpl. lia.
Qed.

End Draft1_facts.

Section Draft1_Compile_facts.
Import Draft1.
Variable ToLower : string → string.
Implicit Types (c : compiledStatement) (h : Heap).

(** *** The loop over the dimensions *)

(** A dimension changes nothing but [Dimensions] and [Interval]. *)
Lemma Compile_dimension_beside d c h u c' h' :
  Compile_dimension ToLower d (c, h) = Ok (u, (c', h')) →
  beside_dimensions c' = beside_dimensions c.
Proof.
  unfold Compile_dimension. intros H.
  destruct (influxql.DimExpr d) as [ |Name Args| | | | | | | | | | |];
    inv_ok; try done.
  destruct Args as [|[] Args]; simpl in *; inv_ok; try done.
  destruct Args as [|[] Args]; simpl in *; inv_ok; done.
Qed.

(** Once a nonzero duration is set, a dimension leaves the interval. *)
Lemma Compile_dimension_nonzero d c h u c' h' :
  influxql.Duration (Interval c) ≠ 0 →
  Compile_dimension ToLower d (c, h) = Ok (u, (c', h')) →
  Interval c' = Interval c.
Proof.
  unfold Compile_dimension. intros Hd H.
  destruct (influxql.DimExpr d) as [ |Name Args| | | | | | | | | | |];
    inv_ok; try done.
  destruct Args as [|[] Args]; simpl in *; inv_ok.
  all: match goal with H : negb _ = false |- _ =>
         apply negb_false_iff, Z.eqb_eq in H end.
  all: done.
Qed.

Lemma Compile_dimensions_beside ds c h u c' h' :
  foreach (Compile_dimension ToLower) ds (c, h) = Ok (u, (c', h')) →
  beside_dimensions c' = beside_dimensions c.
Proof.
  intros H.
  apply (foreach_Ok (λ c c', beside_dimensions c' = beside_dimensions c))
    in H; [done| |].
  - split; [done | intros ???; congruence].
  - intros x [] ? [] _ ?. by eapply Compile_dimension_beside.
Qed.

Lemma Compile_dimensions_nonzero ds c h u c' h' :
  influxql.Duration (Interval c) ≠ 0 →
  foreach (Compile_dimension ToLower) ds (c, h) = Ok (u, (c', h')) →
  Interval c' = Interval c.
Proof.
  intros Hd H.
  refine (foreach_Ok (λ c c', influxql.Duration (Interval c) ≠ 0 →
                              Interval c' = Interval c)
            _ ds _ _ (c, h) u (c', h') H Hd).
  - split; [done|]. intros c1 c2 c3 H12 H23 ?.
    rewrite H23; [eauto | rewrite H12; eauto].
  - intros x [] ? [] _ ??. by eapply Compile_dimension_nonzero.
Qed.

(** What an accepted [time(d, ...)] entry does to the interval. *)
Lemma Compile_dimension_time d rest c h u c' h' :
  Compile_dimension ToLower
    (influxql.mkDimension
       (influxql.Call "time" (influxql.DurationLiteral d :: rest)))
    (c, h) = Ok (u, (c', h')) →
  influxql.Duration (Interval c) = 0 ∧
  influxql.Duration (Interval c') = d ∧
  (∀ o, rest = [influxql.DurationLiteral o] →
        d ≠ 0 ∧ influxql.Offset (Interval c') = Z.rem o d) ∧
  (∀ t, rest = [influxql.TimeLiteral t] →
        influxql.Offset (Interval c') = time.Sub t (time.Truncate t d)) ∧
  (∀ args, rest = [influxql.Call "now" args] →
        influxql.Offset (Interval c')
        = time.Sub (Now (Options c)) (time.Truncate (Now (Options c)) d)).
Proof.
  unfold Compile_dimension. simpl. intros H.
  destruct rest as [|e [|]]; simpl in H; inv_ok;
    repeat match goal with H : negb _ = false |- _ =>
             apply negb_false_iff, Z.eqb_eq in H end.
  - repeat split; done.
  - destruct e; inv_ok; repeat split; try done; intros; simplify_eq;
      try done.
    by apply Z.eqb_neq.
Qed.

(** *** The loop over the fields *)

(** A field is skipped (a bare [time]), or its expression is compiled
    and its output edge published. *)
Lemma Compile_field_Ok f c h u c' h' :
  Compile_field f (c, h) = Ok (u, (c', h')) →
  (c' = c ∧ call_field f = false) ∨
  (∃ r c1, compileExpr (influxql.FieldExpr f) (c, h) = Ok (r, (c1, h')) ∧
           c' = setOutputEdges (OutputEdges c1 ++ [r]) c1).
Proof.
  unfold Compile_field, call_field. intros H.
  destruct (match influxql.FieldExpr f with
            | influxql.Ref ref => String.eqb (influxql.Val ref) "time"
            | _ => false
            end) eqn:Hskip.
  - apply ret_Ok in H as [_ [= -> ->]]. left.
    by destruct (influxql.FieldExpr f).
  - apply bind_Ok in H as (r & [c1 h1] & Hc & Hm).
    apply modify_Ok in Hm as [= -> ->]. right. eauto.
Qed.

Lemma Compile_field_extends f c h u c' h' :
  Compile_field f (c, h) = Ok (u, (c', h')) → extends c c'.
Proof.
  intros [[-> _]|(r & c1 & Hc & ->)]%Compile_field_Ok; [reflexivity|].
  apply compileExpr_extends in Hc. etrans; [done|]. by split.
Qed.

Lemma Compile_fields_extends fs c h u c' h' :
  foreach Compile_field fs (c, h) = Ok (u, (c', h')) → extends c c'.
Proof.
  intros H. apply (foreach_Ok extends) in H; [done|apply _|].
  intros x [] ? [] _ ?. by eapply Compile_field_extends.
Qed.

(** *** Validation and linking *)

Lemma validateFields_Ok c h u c' h' :
  validateFields (c, h) = Ok (u, (c', h')) →
  c' = c ∧ h' = h ∧
  ((length (FunctionCalls c) ≤ 1)%nat ∨ TopBottomFunction c = "").
Proof.
  unfold validateFields. intros H. inv_ok.
  repeat split.
  match goal with H : _ && _ = false |- _ =>
    apply andb_false_iff in H; destruct H as [Hl|Hr] end.
  - left. by apply Nat.ltb_ge in Hl.
  - right. by apply negb_false_iff, String.eqb_eq in Hr.
Qed.

Lemma linkAuxiliaryFields_Ok c h u c' h' :
  linkAuxiliaryFields (c, h) = Ok (u, (c', h')) →
  c' = c ∧
  (is_Some (AuxiliaryFields c) ∨ FunctionCalls c ≠ []) ∧
  (is_Some (AuxiliaryFields c) →
     OnlySelectors c = true ∧ (length (FunctionCalls c) ≤ 1)%nat).
Proof.
  unfold linkAuxiliaryFields. intros H. inv_ok.
  destruct (AuxiliaryFields c) as [a|] eqn:Ha; inv_ok.
  - destruct (FunctionCalls c !! 0%nat); inv_ok.
    match goal with H : negb _ = false |- _ => apply negb_false_iff in H end.
    match goal with H : (_ <? _)%nat = false |- _ => apply Nat.ltb_ge in H end.
    eauto 10.
  - match goal with H : negb _ = false |- _ => apply negb_false_iff in H end.
    match goal with H : (_ <? _)%nat = false |- _ => apply Nat.ltb_ge in H end.
    match goal with H : compileVarRef _ _ _ = Ok _ |- _ =>
      apply compileVarRef_Ok in H as [-> _] end.
    eauto 10.
  - match goal with H : (_ =? _)%nat = false |- _ => apply Nat.eqb_neq in H end.
    split; [done|]. split; [|by intros [? [=]]].
    right. intros E. by rewrite E in *.
Qed.

(** A successful [Compile], step by step. *)
Lemma Compile_Ok clock stmt opt c h :
  Compile ToLower clock stmt opt = Ok (c, h) →
  ∃ c0 h0 h1,
    foreach (Compile_dimension ToLower) (influxql.Dimensions stmt)
      (Compile_init clock stmt opt, empty_heap) = Ok (tt, (c0, h0)) ∧
    foreach Compile_field (influxql.Fields stmt) (c0, h0)
      = Ok (tt, (c, h1)) ∧
    validateFields (c, h1) = Ok (tt, (c, h1)) ∧
    linkAuxiliaryFields (c, h1) = Ok (tt, (c, h)).
Proof.
  unfold Compile, Compile_body, Compile_loops. intros H.
  match type of H with match ?m with _ => _ end = _ =>
    destruct m as [[[] [c' h']]| |] eqn:E; simplify_eq end.
  inv_ok.
  repeat match goal with u : unit |- _ => destruct u end.
  match goal with H : validateFields _ = Ok _ |- _ =>
    pose proof H as Hv; apply validateFields_Ok in H as (-> & -> & _) end.
  match goal with H : linkAuxiliaryFields _ = Ok _ |- _ =>
    pose proof H as Hl; apply linkAuxiliaryFields_Ok in H as (-> & _) end.
  eauto 10.
Qed.

End Draft1_Compile_facts.

(** ** Sources that are not measurements (claim C2) *)

Section sources.
Implicit Types (h : Heap).

Lemma d1_measurement_source ref merge name (c : Draft1.compiledStatement) h :
  ∃ h', Draft1.compileVarRef_source ref merge (influxql.Measurement name)
          (c, h) = Ok (tt, (c, h')).
Proof. by eexists. Qed.

Lemma d1_sources_panic ref merge sources (c : Draft1.compiledStatement) h :
  Exists (λ s, influxql.isMeasurement s = false) sources →
  foreach (Draft1.compileVarRef_source ref merge) sources (c, h)
  = Panic "unimplemented".
Proof.
  intros Hex. revert h.
  induction sources as [|s l IH]; intros h; [by inversion Hex|].
  simpl. destruct s as [name|id].
  - destruct (d1_measurement_source ref merge name c h) as [h' E].
    rewrite (bind_step _ _ _ _ _ E). apply IH.
    by inversion Hex; simplify_eq/=.
  - done.
Qed.

(** C2, first draft: when some source of the statement is not a
    measurement, compiling a variable reference does not return an
    error value; it panics with "unimplemented". *)
Theorem C2_first_draft_panics ref node (c : Draft1.compiledStatement) h :
  Exists (λ s, influxql.isMeasurement s = false) (Draft1.Sources c) →
  Draft1.compileVarRef ref node (c, h) = Panic "unimplemented".
Proof.
  intros Hex. unfold Draft1.compileVarRef.
  unfold mbind at 1, M_bind at 1. simpl.
  unfold mbind at 1, M_bind at 1. simpl.
  apply bind_Panic. by apply d1_sources_panic.
Qed.

Lemma C2_witness :
  Draft1.compileVarRef
    (Some (influxql.mkVarRef "value" influxql.DataType.Unknown)) None
    (examples.init examples.from_subquery, empty_heap)
  = Panic "unimplemented".
Proof.
  apply (C2_first_draft_panics
           (Some (influxql.mkVarRef "value" influxql.DataType.Unknown)) None
           (examples.init examples.from_subquery) empty_heap).
  apply Exists_cons_hd. reflexivity.
Defined.

(** The whole compilation of [SELECT max(value) FROM (subquery)] panics in
    the first draft. *)
Lemma first_draft_subquery_panics :
  examples.run examples.from_subquery = Panic "unimplemented".
Proof. by vm_compute. Qed.

Lemma d2_measurement_source ref merge name (c : Draft2.compiledStatement) h :
  ∃ h', Draft2.compileVarRef_source ref merge (influxql.Measurement name)
          (c, h) = Ok (tt, (c, h')).
Proof. by eexists. Qed.

Lemma d2_sources_error ref merge sources (c : Draft2.compiledStatement) h :
  Exists (λ s, influxql.isMeasurement s = false) sources →
  foreach (Draft2.compileVarRef_source ref merge) sources (c, h)
  = Err (errors_New "unimplemented").
Proof.
  intros Hex. revert h.
  induction sources as [|s l IH]; intros h; [by inversion Hex|].
  simpl. destruct s as [name|id].
  - destruct (d2_measurement_source ref merge name c h) as [h' E].
    rewrite (bind_step _ _ _ _ _ E). apply IH.
    by inversion Hex; simplify_eq/=.
  - done.
Qed.

(** The second draft does what the claim says: the same source list makes
    [compileVarRef] return the error "unimplemented". *)
Lemma d2_compileVarRef_unimplemented ref out (c : Draft2.compiledStatement) h :
  Exists (λ s, influxql.isMeasurement s = false) (Draft2.Sources c) →
  Draft2.compileVarRef ref out (c, h) = Err (errors_New "unimplemented").
Proof.
  intros Hex. unfold Draft2.compileVarRef.
  unfold mbind at 1, M_bind at 1. simpl.
  unfold mbind at 1, M_bind at 1. simpl.
  apply bind_Err. by apply d2_sources_error.
Qed.

Lemma d2_sources_measurements ref merge sources
    (c : Draft2.compiledStatement) h :
  Forall (λ s, influxql.isMeasurement s = true) sources →
  returns (foreach (Draft2.compileVarRef_source ref merge) sources) (c, h)
    (λ _ s', fst s' = c).
Proof.
  intros Hall. revert h. induction Hall as [|s l Hs _ IH]; intros h; simpl.
  - done.
  - destruct s; [|done]. simpl. returns_go. apply IH.
Qed.

(** The kind is checked source by source: the second draft returns from
    [compileVarRef] when every source is a measurement. *)
Lemma d2_compileVarRef_measurements ref out (c : Draft2.compiledStatement) h :
  Forall (λ s, influxql.isMeasurement s = true) (Draft2.Sources c) →
  returns (Draft2.compileVarRef ref out) (c, h) (λ _ s', fst s' = c).
Proof.
  intros Hall. unfold Draft2.compileVarRef. returns_go.
  eapply returns_mono; [by apply d2_sources_measurements|].
  intros [] [c1 h1] ?; simplify_eq/=. by returns_go.
Qed.
End sources.

(** ** [count(distinct(x))] (claim C1) *)

Section count_distinct.
Implicit Types (h : Heap) (x : influxql.VarRef).

Lemma d1_compileDistinct_returns Name x (c : Draft1.compiledStatement) h :
  Forall (λ s, influxql.isMeasurement s = true) (Draft1.Sources c) →
  returns (Draft1.compileDistinct Name [influxql.Ref x]) (c, h)
    (λ r s', fst s' = Draft1.setFunctionCalls (Draft1.FunctionCalls c ++ [r]) c).
Proof.
  intros Hall. unfold Draft1.compileDistinct. simpl. returns_go.
  eapply returns_mono; [by apply compileVarRef_measurements|].
  intros r [c1 h1] ?; simplify_eq/=. by returns_go.
Qed.

Lemma d1_count_distinct_returns x (c : Draft1.compiledStatement) h :
  Forall (λ s, influxql.isMeasurement s = true) (Draft1.Sources c) →
  returns (Draft1.compileFunction "count"
             [influxql.Call "distinct" [influxql.Ref x]]) (c, h)
    (λ r s', ∃ d, Draft1.FunctionCalls (fst s')
                  = Draft1.FunctionCalls c ++ [d; r]).
Proof.
  intros Hall. unfold Draft1.compileFunction. simpl. returns_go.
  eapply returns_mono; [by apply d1_compileDistinct_returns|].
  intros d [c1 h1] ?; simplify_eq/=. returns_go.
  exists d. by rewrite <- app_assoc.
Qed.

(** C1, first draft: over measurements [count(distinct(x))] compiles and
    registers two function-call output edges, the one of the nested
    [distinct] and then the one of [count]; in either syntax of
    [distinct]. *)
Theorem C1_first_draft_registers_two x inner (c : Draft1.compiledStatement) h :
  Forall (λ s, influxql.isMeasurement s = true) (Draft1.Sources c) →
  inner = influxql.Call "distinct" [influxql.Ref x] ∨
  (inner = influxql.Distinct (influxql.Val x) ∧
   influxql.Type_ x = influxql.DataType.Unknown) →
  ∃ r d c' h',
    Draft1.compileExpr (influxql.Call "count" [inner]) (c, h)
    = Ok (r, (c', h')) ∧
    Draft1.FunctionCalls c' = Draft1.FunctionCalls c ++ [d; r] ∧
    length (Draft1.FunctionCalls c') = (length (Draft1.FunctionCalls c) + 2)%nat.
Proof.
  intros Hall Hinner.
  assert (Draft1.compileExpr (influxql.Call "count" [inner])
          = Draft1.compileFunction "count"
              [influxql.Call "distinct" [influxql.Ref x]]) as ->.
  { destruct Hinner as [->|[-> Hx]]; [done|].
    destruct x as [v t]; simpl in *; by subst. }
  pose proof (d1_count_distinct_returns x c h Hall) as H.
  apply returns_Ok in H as (r & [c' h'] & E & d & Hd); simpl in *.
  exists r, d, c', h'. split; [done|]. split; [done|].
  rewrite Hd, length_app. simpl. lia.
Qed.

Lemma C1_witness :
  ∃ r d c' h',
    Draft1.compileExpr
      (influxql.Call "count" [influxql.Call "distinct" [examples.ref "value"]])
      (examples.init examples.count_distinct, empty_heap)
    = Ok (r, (c', h')) ∧
    Draft1.FunctionCalls c'
    = Draft1.FunctionCalls (examples.init examples.count_distinct) ++ [d; r] ∧
    length (Draft1.FunctionCalls c')
    = (length (Draft1.FunctionCalls (examples.init examples.count_distinct))
       + 2)%nat.
Proof.
  apply (C1_first_draft_registers_two
           (influxql.mkVarRef "value" influxql.DataType.Unknown)
           (influxql.Call "distinct" [examples.ref "value"])
           (examples.init examples.count_distinct) empty_heap).
  - repeat constructor.
  - left. reflexivity.
Defined.

(** The whole compilation of [SELECT count(distinct(value)) FROM cpu]
    succeeds in the first draft with two registered function calls. *)
Lemma first_draft_count_distinct :
  ∃ c h, examples.run examples.count_distinct = Ok (c, h) ∧
         length (Draft1.FunctionCalls c) = 2%nat.
Proof. eexists _, _. split; by vm_compute. Qed.

Lemma returns_via_global {A} (m : M Draft2.compiledStatement A)
    (s : Draft2.FieldState * Heap) Q :
  is_Some (Draft2.global (fst (fst s))) →
  returns m (snd (fst s), snd s)
    (λ a s', Q a ((fst (fst s), fst s'), snd s')) →
  returns (Draft2.via_global m) s Q.
Proof.
  intros [g Hg]. unfold returns, Draft2.via_global. rewrite Hg.
  by destruct (m _) as [[a [c' h']]| |].
Qed.

(** The second draft does what the claim says: [count(distinct(x))]
    registers one output edge, the one of [count]. *)
Lemma d2_count_distinct_registers_one x out
    (f : Draft2.compiledField) (c : Draft2.compiledStatement) h :
  is_Some (Draft2.global f) →
  Forall (λ s, influxql.isMeasurement s = true) (Draft2.Sources c) →
  ∃ f' c' h',
    Draft2.compileFunction "count"
      [influxql.Call "distinct" [influxql.Ref x]] out ((f, c), h)
    = Ok (tt, ((f', c'), h')) ∧
    Draft2.FunctionCalls c'
    = Draft2.FunctionCalls c ++ [heap.writeOutput out h].
Proof.
  intros Hg Hall.
  enough (returns (Draft2.compileFunction "count"
                     [influxql.Call "distinct" [influxql.Ref x]] out)
            ((f, c), h)
            (λ _ s', Draft2.FunctionCalls (snd (fst s'))
                     = Draft2.FunctionCalls c ++ [heap.writeOutput out h]))
    as H.
  { apply returns_Ok in H as ([] & [[f' c'] h'] & E & ?). by exists f', c', h'. }
  unfold Draft2.compileFunction. simpl. returns_go.
  unfold Draft2.registerFunctionCall.
  apply returns_via_global; [done|]. returns_go.
  apply returns_via_global; [done|]. returns_go.
  unfold Draft2.compileDistinct. simpl. returns_go.
  apply returns_via_global; [done|]. simpl.
  eapply returns_mono; [by apply d2_compileVarRef_measurements|].
  intros [] [c1 h1] ?; simplify_eq/=. done.
Qed.
End count_distinct.

(** ** Binary expressions with a literal side (claim C3) *)

Section binary_literal.
Import influxql.

(** [SELECT value + 2 FROM cpu], computed in the first draft: one side is
    a literal, and the statement does not compile; the error is
    "unimplemented". *)
Lemma plus_literal_unimplemented :
  isLiteral (examples.ref "value") = false ∧
  isLiteral (IntegerLiteral 2) = true ∧
  examples.run examples.plus_literal = Err (errors_New "unimplemented").
Proof. by vm_compute. Qed.

(** C3: the code does not do what the claim says.  In both drafts a
    binary expression with a literal on either side (or on both) is the
    failing computation itself: it runs no step before it returns the
    error "unimplemented", so neither side is compiled and no node or edge
    is allocated, whatever the state.  A binary expression that compiles
    has no literal side, and both of its sides were compiled, left then
    right. *)
Theorem C3_literal_side_unimplemented Op LHS RHS :
  (isLiteral LHS = true ∨ isLiteral RHS = true →
   (Draft1.compileExpr (BinaryExpr Op LHS RHS)
    = fail (errors_New "unimplemented")) ∧
   (∀ out, Draft2.compileExpr (BinaryExpr Op LHS RHS) out
           = fail (errors_New "unimplemented")) ∧
   (∀ s, Draft1.compileExpr (BinaryExpr Op LHS RHS) s
         = Err (errors_New "unimplemented")) ∧
   (∀ out s, Draft2.compileExpr (BinaryExpr Op LHS RHS) out s
             = Err (errors_New "unimplemented"))) ∧
  (∀ s r s', Draft1.compileExpr (BinaryExpr Op LHS RHS) s = Ok (r, s') →
     isLiteral LHS = false ∧ isLiteral RHS = false ∧
     ∃ lhs s1 rhs s2,
       Draft1.compileExpr LHS s = Ok (lhs, s1) ∧
       Draft1.compileExpr RHS s1 = Ok (rhs, s2) ∧
       fst s' = fst s2).
Proof.
  split.
  - intros Hlit.
    assert (Draft1.compileExpr (BinaryExpr Op LHS RHS)
            = fail (errors_New "unimplemented")) as H1.
    { simpl. destruct (isLiteral LHS); [done|].
      destruct (isLiteral RHS); [done|]. by destruct Hlit. }
    assert (∀ out, Draft2.compileExpr (BinaryExpr Op LHS RHS) out
                   = fail (errors_New "unimplemented")) as H2.
    { intros out. simpl. destruct (isLiteral LHS); [done|].
      destruct (isLiteral RHS); [done|]. by destruct Hlit. }
    split; [exact H1|]. split; [exact H2|]. split.
    + intros s. by rewrite H1.
    + intros out s. by rewrite H2.
  - intros s r s' H. simpl in H.
    destruct (isLiteral LHS); [by inv_ok|].
    destruct (isLiteral RHS); [by inv_ok|].
    do 2 (split; [done|]).
    apply bind_Ok in H as (lhs & s1 & Hl & H).
    apply bind_Ok in H as (rhs & s2 & Hr & H).
    exists lhs, s1, rhs, s2. do 2 (split; [done|]).
    destruct s2 as [c2 h2], s' as [c' h']. by inv_ok.
Qed.

Lemma C3_witness :
  ((Draft1.compileExpr
      (BinaryExpr 0%nat (examples.ref "value") (IntegerLiteral 2))
    = fail (errors_New "unimplemented")) ∧
   (∀ out, Draft2.compileExpr
             (BinaryExpr 0%nat (examples.ref "value") (IntegerLiteral 2)) out
           = fail (errors_New "unimplemented")) ∧
   (∀ s, Draft1.compileExpr
           (BinaryExpr 0%nat (examples.ref "value") (IntegerLiteral 2)) s
         = Err (errors_New "unimplemented")) ∧
   (∀ out s, Draft2.compileExpr
           (BinaryExpr 0%nat (examples.ref "value") (IntegerLiteral 2)) out s
         = Err (errors_New "unimplemented"))) ∧
  (∃ r s',
     Draft1.compileExpr
       (BinaryExpr 0%nat (examples.ref "value") (examples.ref "host"))
       (examples.init examples.only_time, empty_heap) = Ok (r, s') ∧
     isLiteral (examples.ref "value") = false ∧
     isLiteral (examples.ref "host") = false ∧
     ∃ lhs s1 rhs s2,
       Draft1.compileExpr (examples.ref "value")
         (examples.init examples.only_time, empty_heap) = Ok (lhs, s1) ∧
       Draft1.compileExpr (examples.ref "host") s1 = Ok (rhs, s2) ∧
       fst s' = fst s2).
Proof.
  split.
  - apply (C3_literal_side_unimplemented 0%nat (examples.ref "value")
             (IntegerLiteral 2)).
    right. reflexivity.
  - eexists _, _. split; [vm_compute; reflexivity|].
    eapply (proj2 (C3_literal_side_unimplemented 0%nat
                     (examples.ref "value") (examples.ref "host"))
              (examples.init examples.only_time, empty_heap)).
    vm_compute. reflexivity.
Defined.
End binary_literal.

(** ** Auxiliary fields and function calls after compilation (claim C4) *)

Lemma d2_compileVarRef_Ok ref out (c : Draft2.compiledStatement) h u c' h' :
  Draft2.compileVarRef ref out (c, h) = Ok (u, (c', h')) → c' = c.
Proof.
  unfold Draft2.compileVarRef. intros H. inv_ok.
  match goal with H : foreach _ _ _ = _ |- _ =>
    apply (foreach_Ok (λ c c', c' = c)) in H; [done| |] end.
  - split; [done | intros ???; congruence].
  - intros x s1 [] s2 _ Hx. destruct x, s1, s2; simpl in *; by inv_ok.
Qed.

(** Linking in the second draft accepts and refuses the same statements. *)
Lemma d2_linkAuxiliaryFields_Ok (c : Draft2.compiledStatement) h u c' h' :
  Draft2.linkAuxiliaryFields (c, h) = Ok (u, (c', h')) →
  c' = c ∧
  (is_Some (Draft2.AuxiliaryFields c) ∨ Draft2.FunctionCalls c ≠ []) ∧
  (is_Some (Draft2.AuxiliaryFields c) →
     Draft2.OnlySelectors c = true ∧
     (length (Draft2.FunctionCalls c) ≤ 1)%nat).
Proof.
  unfold Draft2.linkAuxiliaryFields. intros H. inv_ok.
  destruct (Draft2.AuxiliaryFields c) as [a|] eqn:Ha; inv_ok.
  - destruct (Draft2.FunctionCalls c !! 0%nat) as [[]|]; inv_ok.
    match goal with H : negb _ = false |- _ => apply negb_false_iff in H end.
    match goal with H : (_ <? _)%nat = false |- _ => apply Nat.ltb_ge in H end.
    eauto 10.
  - match goal with H : negb _ = false |- _ => apply negb_false_iff in H end.
    match goal with H : (_ <? _)%nat = false |- _ => apply Nat.ltb_ge in H end.
    match goal with H : Draft2.compileVarRef _ _ _ = Ok _ |- _ =>
      apply d2_compileVarRef_Ok in H as -> end.
    eauto 10.
  - match goal with H : (_ =? _)%nat = false |- _ => apply Nat.eqb_neq in H end.
    split; [done|]. split; [|by intros [? [=]]].
    right. intros E. by rewrite E in *.
Qed.

Lemma d2_linkAuxiliaryFields_neither (c : Draft2.compiledStatement) h :
  Draft2.AuxiliaryFields c = None → Draft2.FunctionCalls c = [] →
  Draft2.linkAuxiliaryFields (c, h)
  = Err (errors_New "at least 1 non-time field must be queried").
Proof.
  intros Haux Hcalls. unfold Draft2.linkAuxiliaryFields.
  rewrite !run_gets. simpl. by rewrite Hcalls, Haux.
Qed.

Section auxiliary_or_function.
Import Draft1.
Variable ToLower : string → string.

(** C4, amended: after a successful compilation the auxiliary fields are
    present or a function call is registered, and both can hold: with
    auxiliary fields the statement has only selectors and at most one
    registered call.  When neither holds once the fields are compiled,
    [Compile] returns the error "at least 1 non-time field must be
    queried". *)
Theorem C4_auxiliary_or_function clock stmt opt :
  (∀ c h, Compile ToLower clock stmt opt = Ok (c, h) →
     (is_Some (AuxiliaryFields c) ∨ (1 ≤ length (FunctionCalls c))%nat) ∧
     (is_Some (AuxiliaryFields c) →
        OnlySelectors c = true ∧ (length (FunctionCalls c) ≤ 1)%nat)) ∧
  (∀ c1 h1,
     Compile_loops ToLower (influxql.Dimensions stmt) (influxql.Fields stmt)
       (Compile_init clock stmt opt, empty_heap) = Ok (tt, (c1, h1)) →
     AuxiliaryFields c1 = None → FunctionCalls c1 = [] →
     Compile ToLower clock stmt opt
     = Err (errors_New "at least 1 non-time field must be queried")).
Proof.
  split.
  - intros c h (c0 & h0 & h1 & _ & _ & _ & Hlink)%Compile_Ok.
    apply linkAuxiliaryFields_Ok in Hlink as (_ & Hor & Himp).
    split; [|done]. destruct Hor as [?|Hne]; [by left|right].
    destruct (FunctionCalls c); [done | simpl; lia].
  - intros c1 h1 Hloops Haux Hcalls.
    unfold Compile, Compile_body.
    rewrite (bind_step _ _ _ _ _ Hloops).
    assert (validateFields (c1, h1) = Ok (tt, (c1, h1))) as Hv.
    { unfold validateFields. rewrite !run_gets. simpl. by rewrite Hcalls. }
    rewrite (bind_step _ _ _ _ _ Hv).
    unfold linkAuxiliaryFields. rewrite !run_gets. simpl.
    by rewrite Hcalls, Haux.
Qed.
End auxiliary_or_function.

(** C4 as stated fails: [SELECT max(value), value] compiles with the
    auxiliary fields present and one function call registered, both at
    once; and a statement with no field to query is refused with "at least
    1 non-time field must be queried". *)
Lemma C4_counterexample :
  (∃ c h, examples.run examples.max_and_value = Ok (c, h) ∧
          is_Some (Draft1.AuxiliaryFields c) ∧
          (1 ≤ length (Draft1.FunctionCalls c))%nat) ∧
  examples.run examples.only_time
  = Err (errors_New "at least 1 non-time field must be queried") ∧
  examples.run examples.only_time
  ≠ Err (errors_New "at least one non-time field must be queried").
Proof.
  split; [|split; [by vm_compute | by vm_compute]].
  eexists _, _. split; [by vm_compute|]. split; [by eexists | simpl; lia].
Qed.

Lemma C4_witness :
  ((is_Some (Draft1.AuxiliaryFields
               (fst (examples.compiled examples.max_and_value))) ∨
    (1 ≤ length (Draft1.FunctionCalls
                   (fst (examples.compiled examples.max_and_value))))%nat) ∧
   (is_Some (Draft1.AuxiliaryFields
               (fst (examples.compiled examples.max_and_value))) →
    Draft1.OnlySelectors (fst (examples.compiled examples.max_and_value)) = true ∧
    (length (Draft1.FunctionCalls
               (fst (examples.compiled examples.max_and_value))) ≤ 1)%nat)) ∧
  examples.run examples.only_time
  = Err (errors_New "at least 1 non-time field must be queried").
Proof.
  split.
  - apply (proj1 (C4_auxiliary_or_function strings.ToLower examples.clock
                    examples.max_and_value examples.opt)
             _ (snd (examples.compiled examples.max_and_value))).
    vm_compute. reflexivity.
  - eapply (proj2 (C4_auxiliary_or_function strings.ToLower examples.clock
                     examples.only_time examples.opt)).
    + vm_compute. reflexivity.
    + reflexivity.
    + reflexivity.
Defined.

(** ** [top] and [bottom] exclude other functions (claim C5) *)

Section top_bottom.
Import Draft1.
Variable ToLower : string → string.
Implicit Types (c : compiledStatement) (h : Heap).

Lemma oneof_top_bottom Name :
  oneof Name ["top"; "bottom"] = true → Name = "top" ∨ Name = "bottom".
Proof.
  unfold oneof. simpl. rewrite orb_false_r.
  intros [H|H]%orb_true_iff; apply String.eqb_eq in H; eauto.
Qed.



Lemma Compile_loops_Ok ds fs s s' :
  Compile_loops ToLower ds fs s = Ok (tt, s') ↔
  ∃ s0, foreach (Compile_dimension ToLower) ds s = Ok (tt, s0) ∧
        foreach Compile_field fs s0 = Ok (tt, s').
Proof.
  unfold Compile_loops. rewrite bind_Ok. split.
  - intros ([] & s0 & ? & ?). eauto.
  - intros (s0 & ? & ?). eauto.
Qed.



(** Every field that is a call or a [distinct] registers a call. *)
Lemma Compile_fields_count fs c h u c' h' :
  foreach Compile_field fs (c, h) = Ok (u, (c', h')) →
  (length (FunctionCalls c) + length (List.filter call_field fs)
   ≤ length (FunctionCalls c'))%nat.
Proof.
  revert c h. induction fs as [|f fs IH]; intros c h H; simpl in H.
  - inv_ok. simpl. lia.
  - apply bind_Ok in H as ([] & [c1 h1] & Hf & Hfs).
    apply IH in Hfs. simpl.
    assert (length (FunctionCalls c)
            + (if call_field f then 1 else 0) ≤ length (FunctionCalls c1))%nat.
    { apply Compile_field_Ok in Hf as [[-> ->]|(r & c2 & Hc & ->)];
        [lia|]. simpl.
      destruct (call_field f) eqn:Hcall.
      - apply compileExpr_registers in Hc; [lia|].
        unfold call_field in Hcall. by destruct (influxql.FieldExpr f).
      - apply compileExpr_extends, extends_length in Hc. lia. }
    destruct (call_field f); simpl; lia.
Qed.



(** The text of the error. *)
Lemma selector_error_text show X :
  Error show (selector_error X)
  = "selector function " +:+ X +:+ "() cannot be combined with other functions".
Proof. done. Qed.
End top_bottom.


(** ** The time dimension (claims C6, C7 and C9) *)

Section time_dimension.
Import Draft1.
Variable ToLower : string → string.
Implicit Types (c : compiledStatement) (h : Heap).

(** With a nonzero duration set, a further well-formed [time()] entry is
    refused. *)
Lemma Compile_dimension_multiple d2 rest2 c h :
  influxql.Duration (Interval c) ≠ 0 →
  (length rest2 ≤ 1)%nat →
  Compile_dimension ToLower (time_dimension d2 rest2) (c, h)
  = Err (errors_New "multiple time dimensions not allowed").
Proof.
  intros Hd Hlen. unfold Compile_dimension. simpl.
  destruct rest2 as [|? [|]]; simpl in *; try lia.
  all: rewrite run_gets; simpl; by apply Z.eqb_neq in Hd as ->.
Qed.

(** An error in a dimension, after the dimensions before it were
    accepted, is the error of [Compile]. *)
Lemma Compile_dimension_Err clock stmt opt pre d post s1 e :
  influxql.Dimensions stmt = pre ++ d :: post →
  foreach (Compile_dimension ToLower) pre
    (Compile_init clock stmt opt, empty_heap) = Ok (tt, s1) →
  Compile_dimension ToLower d s1 = Err e →
  Compile ToLower clock stmt opt = Err e.
Proof.
  intros Hds Hpre Hd.
  assert (Compile_loops ToLower (influxql.Dimensions stmt)
            (influxql.Fields stmt) (Compile_init clock stmt opt, empty_heap)
          = Err e) as Hloops.
  { unfold Compile_loops. apply bind_Err.
    rewrite Hds, foreach_app, (bind_step _ _ _ _ _ Hpre). simpl.
    by apply bind_Err. }
  unfold Compile, Compile_body. by rewrite (bind_Err _ _ _ _ Hloops).
Qed.

(** The interval after the dimensions, when they hold an accepted
    [time(d, ...)] with [d] nonzero. *)
Lemma Compile_dimensions_interval ds d rest c h u c' h' :
  foreach (Compile_dimension ToLower) ds (c, h) = Ok (u, (c', h')) →
  time_dimension d rest ∈ ds → d ≠ 0 →
  influxql.Duration (Interval c') = d ∧
  (∀ o, rest = [influxql.DurationLiteral o] →
        influxql.Offset (Interval c') = Z.rem o d) ∧
  (∀ t, rest = [influxql.TimeLiteral t] →
        influxql.Offset (Interval c') = time.Sub t (time.Truncate t d)) ∧
  (∀ args, rest = [influxql.Call "now" args] →
        influxql.Offset (Interval c')
        = time.Sub (Now (Options c)) (time.Truncate (Now (Options c)) d)).
Proof.
  intros H (l1 & l2 & ->)%list_elem_of_split Hd.
  rewrite foreach_app in H.
  apply bind_Ok in H as ([] & [c1 h1] & H1 & H). simpl in H.
  apply bind_Ok in H as ([] & [c2 h2] & Ht & H2).
  apply Compile_dimensions_beside in H1.
  apply Compile_dimension_time in Ht as (_ & Hdur & Ho & Ht' & Hn).
  apply Compile_dimensions_nonzero in H2; [|by rewrite Hdur].
  rewrite H2. split; [done|].
  assert (Options c1 = Options c) as <-.
  { unfold beside_dimensions in H1. by simplify_eq. }
  split; [|done]. intros o Ho'. by apply Ho.
Qed.

(** At most one [time()] entry with a nonzero duration is accepted. *)
Lemma Compile_dimensions_at_most_one ds c h u c' h' :
  foreach (Compile_dimension ToLower) ds (c, h) = Ok (u, (c', h')) →
  (influxql.Duration (Interval c) ≠ 0 →
   List.filter nonzero_time_entry ds = []) ∧
  (length (List.filter nonzero_time_entry ds) ≤ 1)%nat.
Proof.
  revert c h. induction ds as [|x ds IH]; intros c h H; simpl in H.
  - split; [done | simpl; lia].
  - apply bind_Ok in H as ([] & [c1 h1] & Hx & H).
    apply IH in H as [IH0 IH1]. simpl.
    destruct (nonzero_time_entry x) eqn:Hnz.
    + destruct x as [e]. unfold nonzero_time_entry in Hnz. simpl in Hnz.
      destruct e as [ |name [|[] rest]| | | | | | | | | | |]; try done.
      apply andb_true_iff in Hnz as [->%String.eqb_eq Hv].
      apply negb_true_iff, Z.eqb_neq in Hv.
      apply Compile_dimension_time in Hx as (Hc & Hc1 & _).
      rewrite IH0 by (by rewrite Hc1). split; [done | simpl; lia].
    + split; [|done]. intros Hc. apply IH0.
      apply Compile_dimension_nonzero in Hx; [|done]. by rewrite Hx.
Qed.

(** C6, amended: when an accepted [time()] entry with a nonzero duration
    is followed, after entries that are accepted too, by another [time()]
    entry with a duration literal first and one or two arguments,
    [Compile] returns the error "multiple time dimensions not allowed";
    and a statement that compiles has at most one [time()] entry with a
    nonzero duration. *)
Theorem C6_multiple_time_dimensions clock stmt opt :
  (∀ l1 l2 l3 d1 rest1 d2 rest2 s,
     influxql.Dimensions stmt
     = l1 ++ time_dimension d1 rest1 :: l2 ++ time_dimension d2 rest2 :: l3 →
     d1 ≠ 0 → (length rest2 ≤ 1)%nat →
     foreach (Compile_dimension ToLower) (l1 ++ time_dimension d1 rest1 :: l2)
       (Compile_init clock stmt opt, empty_heap) = Ok (tt, s) →
     Compile ToLower clock stmt opt
     = Err (errors_New "multiple time dimensions not allowed")) ∧
  (∀ c h, Compile ToLower clock stmt opt = Ok (c, h) →
     (length (List.filter nonzero_time_entry (influxql.Dimensions stmt))
      ≤ 1)%nat).
Proof.
  split.
  - intros l1 l2 l3 d1 rest1 d2 rest2 [c1 h1] Hds Hd1 Hlen Hpre.
    eapply (Compile_dimension_Err _ _ _ (l1 ++ time_dimension d1 rest1 :: l2));
      [by rewrite Hds, <- app_assoc | done |].
    apply Compile_dimension_multiple; [|done].
    eapply Compile_dimensions_interval in Hpre as [-> _]; [done| |done].
    apply elem_of_app. right. left.
  - intros c h (c0 & h0 & h1 & Hds & _)%Compile_Ok.
    by apply Compile_dimensions_at_most_one in Hds as [_ ?].
Qed.

(** C7, amended: in a statement that compiles, an entry [time(d, o)]
    with [d] nonzero gives the interval the duration [d] and, when [o] is
    a duration literal, the offset [o % d]: the remainder of the division
    truncated toward zero, which has the sign of [o] and is [o mod d] when
    [o] is not negative and [d] is positive.  The offset is [t] minus [t]
    truncated to [d] when [o] is the time literal [t], and the configured
    now minus its truncation to [d] when [o] is a call of [now]. *)
Theorem C7_time_interval clock stmt opt c h d :
  Compile ToLower clock stmt opt = Ok (c, h) → d ≠ 0 →
  (∀ o, time_dimension d [influxql.DurationLiteral o]
          ∈ influxql.Dimensions stmt →
        Interval c = influxql.mkInterval d (Z.rem o d) ∧
        (0 ≤ o → 0 ≤ Z.rem o d) ∧
        (o ≤ 0 → Z.rem o d ≤ 0) ∧
        (0 ≤ o → 0 < d → Interval c = influxql.mkInterval d (o `mod` d))) ∧
  (∀ t, time_dimension d [influxql.TimeLiteral t]
          ∈ influxql.Dimensions stmt →
        Interval c
        = influxql.mkInterval d (time.Sub t (time.Truncate t d))) ∧
  (∀ args, time_dimension d [influxql.Call "now" args]
             ∈ influxql.Dimensions stmt →
        let now := Now (Options (newCompiler clock stmt opt)) in
        Now (Options c) = now ∧
        Interval c
        = influxql.mkInterval d (time.Sub now (time.Truncate now d))).
Proof.
  intros (c0 & h0 & h1 & Hds & Hfs & _)%Compile_Ok Hd.
  apply Compile_fields_extends in Hfs as [_ _ Hi Ho _ _ _ _].
  pose proof (Compile_dimensions_beside _ _ _ _ _ _ _ Hds) as Hb.
  assert (Options c0 = Options (newCompiler clock stmt opt)) as Ho0.
  { unfold beside_dimensions in Hb. by simplify_eq. }
  rewrite Hi, Ho, Ho0.
  split; [|split].
  - intros o Hin.
    eapply Compile_dimensions_interval in Hds as (Hdur & Hoff & _); [|done..].
    destruct (Interval c0) as [dur off]; simpl in *.
    rewrite Hdur, (Hoff o eq_refl).
    split; [done|].
    split; [intros; apply Z.rem_nonneg; lia|].
    split; [intros; apply Z.rem_nonpos; lia|].
    intros Hnonneg Hpos. by rewrite Z.rem_mod_nonneg by lia.
  - intros t Hin.
    eapply Compile_dimensions_interval in Hds as (Hdur & _ & Hoff & _);
      [|done..].
    destruct (Interval c0) as [dur off]; simpl in *.
    by rewrite Hdur, (Hoff t).
  - intros args Hin. split; [done|].
    eapply Compile_dimensions_interval in Hds as (Hdur & _ & _ & Hoff);
      [|done..].
    destruct (Interval c0) as [dur off]; simpl in *.
    by rewrite Hdur, (Hoff args).
Qed.

(** For a non-negative offset and a positive duration the remainder of
    Go is the mathematical modulo. *)
Lemma offset_rem_mod o d : 0 ≤ o → 0 < d → Z.rem o d = o `mod` d.
Proof. intros. apply Z.rem_mod_nonneg; lia. Qed.
End time_dimension.

(** C6 as stated fails on statements with two [time()] entries, each with
    a duration literal first: after [time(0s)] a second entry is accepted
    and the statement compiles with the interval of the second; a second
    entry with three arguments is refused for its arity; and an entry
    refused in between is the error reported. *)
Lemma C6_counterexample :
  (influxql.Dimensions examples.zero_then_five
   = [time_dimension 0 []; time_dimension (5 * time.Minute) []] ∧
   ∃ c h, examples.run examples.zero_then_five = Ok (c, h) ∧
          Draft1.Interval c = influxql.mkInterval (5 * time.Minute) 0) ∧
  examples.run examples.one_then_three_arguments
  = Err (errors_New "time dimension expected 1 or 2 arguments") ∧
  examples.run examples.one_regex_five = Err (errors_New "unimplemented").
Proof.
  split; [|by vm_compute].
  split; [done|]. eexists _, _. split; by vm_compute.
Qed.

Lemma C6_witness :
  examples.run examples.one_then_five
  = Err (errors_New "multiple time dimensions not allowed") ∧
  (length (List.filter nonzero_time_entry
             (influxql.Dimensions examples.five_offset_one)) ≤ 1)%nat.
Proof.
  split.
  - eapply (proj1 (C6_multiple_time_dimensions strings.ToLower examples.clock
                     examples.one_then_five examples.opt)
              [] [influxql.mkDimension (examples.ref "host")] []
              time.Minute [] (5 * time.Minute) []).
    + reflexivity.
    + discriminate.
    + simpl. lia.
    + vm_compute. reflexivity.
  - eapply (proj2 (C6_multiple_time_dimensions strings.ToLower examples.clock
                     examples.five_offset_one examples.opt)
              (fst (examples.compiled examples.five_offset_one))
              (snd (examples.compiled examples.five_offset_one))).
    vm_compute. reflexivity.
Defined.

Lemma C7_witness :
  Draft1.Interval (fst (examples.compiled examples.five_offset_one))
  = influxql.mkInterval (5 * time.Minute) (Z.rem time.Minute (5 * time.Minute)) ∧
  Z.rem time.Minute (5 * time.Minute) = time.Minute.
Proof.
  split; [|reflexivity].
  eapply (proj1 (proj1 (C7_time_interval strings.ToLower examples.clock
                          examples.five_offset_one examples.opt
                          (fst (examples.compiled examples.five_offset_one))
                          (snd (examples.compiled examples.five_offset_one))
                          (5 * time.Minute) _ _) time.Minute _)).
  Unshelve.
  - vm_compute. reflexivity.
  - discriminate.
  - left.
Defined.

(** C7 as stated fails on a negative offset: [GROUP BY time(5m, -7m)]
    compiles with the offset minus 2 minutes, where [-7m mod 5m] is 3
    minutes. *)
Lemma C7_counterexample :
  influxql.Dimensions examples.five_offset_minus_seven
  = [time_dimension (5 * time.Minute)
       [influxql.DurationLiteral (-7 * time.Minute)]] ∧
  5 * time.Minute ≠ 0 ∧
  (∃ c h, examples.run examples.five_offset_minus_seven = Ok (c, h) ∧
          Draft1.Interval c
          = influxql.mkInterval (5 * time.Minute) (-2 * time.Minute)) ∧
  (-7 * time.Minute) `mod` (5 * time.Minute) = 3 * time.Minute ∧
  -2 * time.Minute ≠ 3 * time.Minute.
Proof.
  split; [reflexivity|]. split; [discriminate|].
  split; [eexists _, _; split; by vm_compute|].
  split; [reflexivity | discriminate].
Qed.

(** Scenario E, computed: [GROUP BY time(5m, 1m)] gives the duration 5
    minutes and the offset 1 minute. *)
Lemma scenario_E :
  ∃ c h, examples.run examples.five_offset_one = Ok (c, h) ∧
         Draft1.Interval c = influxql.mkInterval 300000000000 60000000000.
Proof. eexists _, _. split; by vm_compute. Qed.

(** ** The second draft never binds the field to its statement *)

(** [Compile] of the second draft builds each [compiledField] without its
    [global] pointer, so compiling a bare reference (not [time])
    dereferences nil. *)
Lemma d2_Compile_field_nil_global f y (c : Draft2.compiledStatement) h :
  influxql.FieldExpr f = influxql.Ref y →
  String.eqb (influxql.Val y) "time" = false →
  Draft2.Compile_field f (c, h) = Panic nil_dereference.
Proof.
  intros Hf Hy. unfold Draft2.Compile_field. rewrite Hf, Hy. done.
Qed.

(** ** Determinism (claim C8) *)

(** C8: with an explicit [now] in the options, [Compile] does not depend
    on the clock: two runs on the same statement and options give the same
    result, the same graph and the same statement (interval included), in
    both drafts. *)
Theorem C8_deterministic_given_now ToLower stmt opt clock1 clock2 :
  time.IsZero (Now opt) = false →
  Draft1.Compile ToLower clock1 stmt opt = Draft1.Compile ToLower clock2 stmt opt ∧
  Draft2.Compile ToLower clock1 stmt opt = Draft2.Compile ToLower clock2 stmt opt.
Proof.
  intros Hnow. split.
  - unfold Draft1.Compile, Draft1.Compile_init, Draft1.newCompiler.
    by rewrite Hnow.
  - unfold Draft2.Compile, Draft2.Compile_init, Draft2.newCompiler.
    by rewrite Hnow.
Qed.

Lemma C8_witness :
  Draft1.Compile strings.ToLower 1 examples.five_offset_now examples.opt
  = Draft1.Compile strings.ToLower 301000000000 examples.five_offset_now
      examples.opt ∧
  Draft2.Compile strings.ToLower 1 examples.five_offset_now examples.opt
  = Draft2.Compile strings.ToLower 301000000000 examples.five_offset_now
      examples.opt.
Proof.
  apply (C8_deterministic_given_now strings.ToLower examples.five_offset_now
           examples.opt 1 301000000000).
  reflexivity.
Defined.

(** Without an explicit [now] the clock read at the start of the call
    decides the offset of [time(5m, now())]. *)
Lemma clock_matters_when_now_is_unset :
  Draft1.Compile strings.ToLower 1 examples.five_offset_now (mkOptions 0)
  ≠ Draft1.Compile strings.ToLower 2 examples.five_offset_now (mkOptions 0).
Proof. by vm_compute. Qed.

(** ** A zero bucket duration with a duration offset (claim C9) *)

(** C9: on a first dimension entry [time(0s, o)] with [o] a duration
    literal, [Compile] returns no error value: the offset is a remainder
    by the zero duration, and the call panics with an integer division by
    zero; in both drafts, whatever the rest of the statement. *)
Theorem C9_zero_duration_panics ToLower clock opt fields sources o rest :
  Draft1.Compile ToLower clock
    (influxql.mkSelect fields sources
       (time_dimension 0 [influxql.DurationLiteral o] :: rest)) opt
  = Panic divide_by_zero ∧
  Draft2.Compile ToLower clock
    (influxql.mkSelect fields sources
       (time_dimension 0 [influxql.DurationLiteral o] :: rest)) opt
  = Panic divide_by_zero.
Proof.
  split.
  - unfold Draft1.Compile, Draft1.Compile_body, Draft1.Compile_loops.
    by simpl.
  - unfold Draft2.Compile, Draft2.Compile_body, Draft2.Compile_loops.
    by simpl.
Qed.

(** ** A top-level [distinct] beside a bare field (claim C10) *)

Section distinct_and_field.
Import Draft1.
Variable ToLower : string → string.
Implicit Types (c : compiledStatement) (h : Heap).

Lemma Compile_field_distinct_returns x f n sources c h :
  distinct_field x f →
  Forall (λ s, influxql.isMeasurement s = true) sources →
  kept n sources c →
  returns (Compile_field f) (c, h)
    (λ _ s', kept (S n) sources (fst s') ∧
             AuxiliaryFields (fst s') = AuxiliaryFields c).
Proof.
  intros Hf Hall (Hn & Hsel & Htb & Hsrc). subst sources.
  assert (returns (compileExpr (influxql.FieldExpr f)) (c, h)
            (λ r s', fst s'
                     = setFunctionCalls (FunctionCalls c ++ [r]) c)) as Hd.
  { destruct Hf as [-> | [-> Hx]]; simpl.
    - by apply d1_compileDistinct_returns.
    - destruct x as [v t]; simpl in *; subst.
      by apply d1_compileDistinct_returns. }
  unfold Compile_field.
  assert (match influxql.FieldExpr f with
          | influxql.Ref ref => String.eqb (influxql.Val ref) "time"
          | _ => false
          end = false) as ->.
  { by destruct Hf as [-> | [-> _]]. }
  apply returns_bind. eapply returns_mono; [exact Hd|].
  intros r [c1 h1] ?; simplify_eq/=. returns_go.
  repeat split; try done. simpl. rewrite length_app. simpl. lia.
Qed.

Lemma Compile_field_ref_returns y f n sources c h :
  influxql.FieldExpr f = influxql.Ref y →
  kept n sources c →
  returns (Compile_field f) (c, h) (λ _ s', kept n sources (fst s')).
Proof.
  intros Hf Hk. unfold Compile_field. rewrite Hf.
  destruct (String.eqb (influxql.Val y) "time").
  { returns_go. exact Hk. }
  simpl. returns_go. destruct Hk as (? & ? & ? & ?).
  destruct (AuxiliaryFields c); returns_go.
  all: unfold kept; simpl; eauto.
Qed.

(** One registered call of a selector-only statement passes validation
    and linking, with or without auxiliary fields. *)
Lemma validate_and_link_returns sources c h :
  Forall (λ s, influxql.isMeasurement s = true) sources →
  kept 1 sources c →
  returns (validateFields ;; linkAuxiliaryFields) (c, h) (λ _ s', fst s' = c).
Proof.
  intros Hall (Hn & Hsel & Htb & Hsrc).
  unfold validateFields, linkAuxiliaryFields. returns_go.
  rewrite Hn. simpl. returns_go.
  destruct (AuxiliaryFields c) as [a|]; [|by rewrite Hn].
  returns_go. rewrite Hsel, Hn. simpl.
  destruct (FunctionCalls c) as [|r [|]]; simplify_eq/=. by returns_go.
Qed.

(** C10: a top-level [distinct(x)] that compiles registers its output
    edge and leaves [OnlySelectors] as it was; and a statement over
    measurements whose dimensions are accepted and whose fields are one
    [distinct(x)] and one bare reference, in either order, compiles: the
    check of linking against mixing aggregates with bare fields passes. *)
Theorem C10_distinct_keeps_only_selectors :
  (∀ Name Args c h r c' h',
     compileDistinct Name Args (c, h) = Ok (r, (c', h')) →
     OnlySelectors c' = OnlySelectors c ∧
     FunctionCalls c' = FunctionCalls c ++ [r]) ∧
  (∀ clock stmt opt x y f1 f2 s0,
     Forall (λ s, influxql.isMeasurement s = true) (influxql.Sources stmt) →
     foreach (Compile_dimension ToLower) (influxql.Dimensions stmt)
       (Compile_init clock stmt opt, empty_heap) = Ok (tt, s0) →
     distinct_field x f1 →
     influxql.FieldExpr f2 = influxql.Ref y →
     influxql.Fields stmt = [f1; f2] ∨ influxql.Fields stmt = [f2; f1] →
     ∃ c h, Compile ToLower clock stmt opt = Ok (c, h) ∧
            OnlySelectors c = true ∧
            length (FunctionCalls c) = 1%nat).
Proof.
  split.
  - intros Name Args c h r c' h' ->%compileDistinct_Ok. done.
  - intros clock stmt opt x y f1 f2 [c0 h0] Hall Hds Hf1 Hf2 Hfs.
    assert (kept 0 (influxql.Sources stmt) c0) as Hk.
    { pose proof (Compile_dimensions_beside _ _ _ _ _ _ _ Hds) as Hb.
      unfold beside_dimensions in Hb. simplify_eq/=.
      unfold kept. by match goal with H : FunctionCalls c0 = [] |- _ =>
                     rewrite H end. }
    enough (returns (Compile_body ToLower stmt)
              (Compile_init clock stmt opt, empty_heap)
              (λ _ s', kept 1 (influxql.Sources stmt) (fst s'))) as H.
    { apply returns_Ok in H as ([] & [c h] & E & (? & ? & _)).
      exists c, h. unfold Compile. by rewrite E. }
    unfold Compile_body, Compile_loops.
    apply returns_bind, returns_bind, returns_Ok.
    eexists tt, (c0, h0). split; [done|].
    assert (returns (foreach Compile_field (influxql.Fields stmt)) (c0, h0)
              (λ _ s', kept 1 (influxql.Sources stmt) (fst s'))) as Hfields.
    { destruct Hfs as [-> | ->]; simpl.
      - apply returns_bind.
        eapply returns_mono;
          [by eapply Compile_field_distinct_returns|].
        intros [] [c1 h1] [Hk1 _]. simpl in Hk1.
        apply returns_bind.
        eapply returns_mono; [by eapply Compile_field_ref_returns|].
        intros [] [c2 h2] Hk2. done.
      - apply returns_bind.
        eapply returns_mono; [by eapply Compile_field_ref_returns|].
        intros [] [c1 h1] Hk1. simpl in Hk1.
        apply returns_bind.
        eapply returns_mono;
          [by eapply Compile_field_distinct_returns|].
        intros [] [c2 h2] [Hk2 _]. done. }
    eapply returns_mono; [exact Hfields|].
    intros [] [c1 h1] Hk1. simpl in Hk1.
    eapply returns_mono; [by eapply validate_and_link_returns|].
    intros [] [c2 h2] ?; by simplify_eq/=.
Qed.
End distinct_and_field.

Lemma C10_witness :
  (Draft1.OnlySelectors
     (Draft1.setFunctionCalls [2%nat] (examples.init examples.distinct_and_host))
   = Draft1.OnlySelectors (examples.init examples.distinct_and_host) ∧
   Draft1.FunctionCalls
     (Draft1.setFunctionCalls [2%nat] (examples.init examples.distinct_and_host))
   = Draft1.FunctionCalls (examples.init examples.distinct_and_host) ++ [2%nat]) ∧
  ∃ c h, examples.run examples.distinct_and_host = Ok (c, h) ∧
         Draft1.OnlySelectors c = true ∧
         length (Draft1.FunctionCalls c) = 1%nat.
Proof.
  split.
  - eapply (proj1 (C10_distinct_keeps_only_selectors strings.ToLower)
              "distinct" [examples.ref "value"]
              (examples.init examples.distinct_and_host) empty_heap).
    vm_compute. reflexivity.
  - eapply (proj2 (C10_distinct_keeps_only_selectors strings.ToLower)
              examples.clock examples.distinct_and_host examples.opt
              (influxql.mkVarRef "value" influxql.DataType.Unknown)
              (influxql.mkVarRef "host" influxql.DataType.Unknown)
              (examples.field (influxql.Call "distinct" [examples.ref "value"]))
              (examples.field (examples.ref "host"))).
    + repeat constructor.
    + vm_compute. reflexivity.
    + left. reflexivity.
    + reflexivity.
    + left. reflexivity.
Defined.

(** * Further properties *)

(** ** Reasoning about computations that do not panic *)

Section panic_facts.
Context {X : Type}.
Implicit Types s : X * Heap.

Lemma bind_Panic_inv {A B} (m : M X A) (f : A → M X B) s v :
  (m ≫= f) s = Panic v →
  m s = Panic v ∨ ∃ a s1, m s = Ok (a, s1) ∧ f a s1 = Panic v.
Proof.
  unfold mbind, M_bind. destruct (m s) as [[a s1]| |]; [eauto | done |].
  intros [= ->]. by left.
Qed.

Lemma bind_Err_inv {A B} (m : M X A) (f : A → M X B) s e :
  (m ≫= f) s = Err e →
  m s = Err e ∨ ∃ a s1, m s = Ok (a, s1) ∧ f a s1 = Err e.
Proof.
  unfold mbind, M_bind. destruct (m s) as [[a s1]| |]; [eauto | | done].
  intros [= ->]. by left.
Qed.

Lemma no_panic_bind {A B} (m : M X A) (f : A → M X B) s :
  no_panic m s →
  (∀ a s1, m s = Ok (a, s1) → no_panic (f a) s1) →
  no_panic (m ≫= f) s.
Proof.
  intros Hm Hf v [H|(a & s1 & H1 & H2)]%bind_Panic_inv.
  - by eapply Hm.
  - by eapply Hf.
Qed.

Lemma no_panic_ret {A} (a : A) s : no_panic (mret a : M X A) s.
Proof. by intros v. Qed.
Lemma no_panic_fail {A} e s : no_panic (fail e : M X A) s.
Proof. by intros v. Qed.
Lemma no_panic_gets {A} (f : X → A) s : no_panic (gets f) s.
Proof. by intros v. Qed.
Lemma no_panic_modify (f : X → X) s : no_panic (modify f) s.
Proof. by intros v. Qed.
Lemma no_panic_alloc {A} (f : Heap → A * Heap) s : no_panic (alloc f) s.
Proof. intros v. unfold alloc. by destruct (f (snd s)). Qed.
Lemma no_panic_store (f : Heap → Heap) s : no_panic (store f) s.
Proof. by intros v. Qed.
Lemma no_panic_load {A} (f : Heap → A) s : no_panic (load f) s.
Proof. by intros v. Qed.

Lemma returns_no_panic {A} (m : M X A) s Q : returns m s Q → no_panic m s.
Proof. unfold returns. intros H v E. by rewrite E in H. Qed.

(** A loop does not panic when its body does not, on the states an
    invariant of the body holds of. *)
Lemma no_panic_foreach {A} (I : X → Prop) (body : A → M X unit) l s :
  (∀ x s, x ∈ l → I (fst s) →
     no_panic (body x) s ∧ ∀ u s', body x s = Ok (u, s') → I (fst s')) →
  I (fst s) → no_panic (foreach body l) s.
Proof.
  revert s. induction l as [|x l IH]; intros s Hbody HI; simpl.
  - apply no_panic_ret.
  - destruct (Hbody x s) as [Hnp Hinv]; [left | done |].
    apply no_panic_bind; [done|].
    intros [] s1 Hx. apply IH; [|by eapply Hinv].
    intros y s2 Hy. apply Hbody. by right.
Qed.
End panic_facts.

(** One step of showing that a computation does not panic. *)
Ltac no_panic_step :=
  lazymatch goal with
  | |- no_panic (_ ≫= _) _ => apply no_panic_bind; [|intros ? [? ?] ?]
  | |- no_panic (@mret (M _) _ _ _) _ => apply no_panic_ret
  | |- no_panic (fail _) _ => apply no_panic_fail
  | |- no_panic (gets _) _ => apply no_panic_gets
  | |- no_panic (modify _) _ => apply no_panic_modify
  | |- no_panic (alloc _) _ => apply no_panic_alloc
  | |- no_panic (store _) _ => apply no_panic_store
  | |- no_panic (load _) _ => apply no_panic_load
  | |- no_panic (if ?b then _ else _) _ => destruct b eqn:?
  | |- no_panic (let '(_, _) := ?p in _) _ => destruct p
  end.

(** ** The argument checks of the first draft *)

Section argument_checks.
Import Draft1.
Implicit Types (c : compiledStatement) (h : Heap).

Ltac inv_calls :=
  repeat first
    [ inv_step; simpl in *; simplify_eq
    | match goal with
      | H : compileVarRef _ _ _ = Ok _ |- _ =>
          apply compileVarRef_Ok in H; destruct H as [? _]; simplify_eq
      | H : compileDistinct _ _ _ = Ok _ |- _ =>
          apply compileDistinct_Ok in H; simplify_eq
      end ].

Lemma compileDistinct_ref_Ok Name x c h :
  Forall (λ s, influxql.isMeasurement s = true) (Sources c) →
  ∃ r h', compileDistinct Name [influxql.Ref x] (c, h)
          = Ok (r, (setFunctionCalls (FunctionCalls c ++ [r]) c, h')).
Proof.
  intros Hall.
  pose proof (d1_compileDistinct_returns Name x c h Hall) as H.
  apply returns_Ok in H as (r & [c' h'] & E & Hc); simpl in Hc; subst c'.
  by exists r, h'.
Qed.

(** X1.  [compileDistinct] over measurements, case by case on its
    arguments: no argument and more than one argument are two different
    errors, one argument that is not a bare reference is a third, and one
    bare reference compiles, registering the output edge it returns and
    changing nothing else in the statement. *)
Theorem X1_compileDistinct_cases Name Args c h :
  Forall (λ s, influxql.isMeasurement s = true) (Sources c) →
  match Args with
  | [] =>
      compileDistinct Name Args (c, h)
      = Err (errors_New "distinct function requires at least one argument")
  | [influxql.Ref x] =>
      ∃ r h', compileDistinct Name Args (c, h)
              = Ok (r, (setFunctionCalls (FunctionCalls c ++ [r]) c, h'))
  | [_] =>
      compileDistinct Name Args (c, h)
      = Err (errors_New "expected field argument in distinct()")
  | _ :: _ :: _ =>
      compileDistinct Name Args (c, h)
      = Err (errors_New "distinct function can only have one argument")
  end.
Proof.
  intros Hall. destruct Args as [|e [|e' Args]].
  - reflexivity.
  - destruct e; try reflexivity. by apply compileDistinct_ref_Ok.
  - destruct e; reflexivity.
Qed.

(** What [compileFunction] does to the statement when it returns. *)
Lemma compileFunction_effect Name Args c h r c' h' :
  compileFunction Name Args (c, h) = Ok (r, (c', h')) →
  OnlySelectors c'
  = (if oneof Name ("top" :: "bottom" :: selector_names)
     then OnlySelectors c else false) ∧
  TopBottomFunction c'
  = (if oneof Name ["top"; "bottom"] && String.eqb (TopBottomFunction c) ""
     then Name else TopBottomFunction c) ∧
  last (FunctionCalls c') = Some r.
Proof.
  unfold compileFunction, selector_names. intros H.
  destruct Args as [|arg0 [|]]; simpl in H; try by inv_ok.
  destruct (oneof Name ["top"; "bottom"]) eqn:Htb.
  - assert (oneof Name ["top"; "bottom"; "max"; "min"; "first"; "last";
                        "percentile"; "sample"] = true) as ->.
    { apply oneof_top_bottom in Htb as [-> | ->]; done. }
    destruct arg0; inv_calls; simpl in *; rewrite ?last_snoc;
      repeat match goal with
             | H : String.eqb (TopBottomFunction _) _ = _ |- _ => rewrite H
             end; done.
  - assert (oneof Name ["top"; "bottom"; "max"; "min"; "first"; "last";
                        "percentile"; "sample"]
            = oneof Name ["max"; "min"; "first"; "last"; "percentile"; "sample"])
      as ->.
    { unfold oneof in *. simpl in *.
      apply orb_false_iff in Htb as [-> [-> _]%orb_false_iff]. done. }
    destruct arg0; inv_calls; simpl; rewrite ?last_snoc;
      repeat match goal with
             | H : oneof _ _ = _ |- _ => rewrite H
             end; done.
Qed.
Lemma compileDistinct_Ok_args Name Args c h r s' :
  compileDistinct Name Args (c, h) = Ok (r, s') → ∃ x, Args = [influxql.Ref x].
Proof.
  unfold compileDistinct. intros H.
  destruct Args as [|[] [|]]; simpl in H; inv_ok. eauto.
Qed.

Lemma compileFunction_ref_returns Name x c h :
  Forall (λ s, influxql.isMeasurement s = true) (Sources c) →
  returns (compileFunction Name [influxql.Ref x]) (c, h) (λ _ _, True).
Proof.
  intros Hall. unfold compileFunction. simpl.
  apply returns_bind.
  assert (returns (if String.eqb Name "count"
                   then mret None else mret None : M compiledStatement _)
            (c, h) (λ i s', i = @None ReadEdgeRef ∧ s' = (c, h))) as Hnone.
  { by destruct (String.eqb Name "count"). }
  eapply returns_mono; [exact Hnone|]. intros i s1 [-> ->].
  apply returns_bind. simpl.
  eapply returns_mono; [by apply compileVarRef_measurements|].
  intros r [c1 h1] ?; simplify_eq/=. returns_go.
  repeat (lazymatch goal with
          | |- returns (if ?b then _ else _) _ _ => destruct b
          end; returns_go).
  all: done.
Qed.

Lemma compileFunction_distinct_node_returns v c h :
  Forall (λ s, influxql.isMeasurement s = true) (Sources c) →
  returns (compileFunction "count" [influxql.Distinct v]) (c, h) (λ _ _, True).
Proof.
  intros Hall. unfold compileFunction. simpl. returns_go.
  eapply returns_mono;
    [by apply (d1_compileDistinct_returns _
                 (influxql.mkVarRef v influxql.DataType.Unknown))|].
  intros d [c1 h1] ?; simplify_eq/=. by returns_go.
Qed.

(** X2.  [compileFunction] over measurements returns exactly when its one
    argument is a bare reference or, for [count], a [distinct] of a bare
    reference in either syntax.  When it returns, the output edge it
    returns is the last registered call, [OnlySelectors] is kept for
    the selector names and [top] and [bottom] and cleared for every other
    name, and [TopBottomFunction] changes only from empty to [top] or
    [bottom].  A wrong number of arguments is the arity error, whatever the
    statement. *)
Theorem X2_compileFunction_returns_iff Name Args c h :
  Forall (λ s, influxql.isMeasurement s = true) (Sources c) →
  ((∃ r s', compileFunction Name Args (c, h) = Ok (r, s')) ↔
   (∃ x, Args = [influxql.Ref x]) ∨
   (Name = "count" ∧
    ((∃ x, Args = [influxql.Call "distinct" [influxql.Ref x]]) ∨
     (∃ v, Args = [influxql.Distinct v])))) ∧
  (∀ r c' h', compileFunction Name Args (c, h) = Ok (r, (c', h')) →
     OnlySelectors c'
     = (if oneof Name ("top" :: "bottom" :: selector_names)
        then OnlySelectors c else false) ∧
     TopBottomFunction c'
     = (if oneof Name ["top"; "bottom"] && String.eqb (TopBottomFunction c) ""
        then Name else TopBottomFunction c) ∧
     last (FunctionCalls c') = Some r) ∧
  (length Args ≠ 1%nat →
   compileFunction Name Args (c, h)
   = Err (fmt_Errorf "invalid number of arguments for %s, expected %d, got %d"
            [AStr Name; AInt 1; AInt (Z.of_nat (length Args))])).
Proof.
  intros Hall. split; [|split].
  - split.
    + intros (r & [c' h'] & H). unfold compileFunction in H.
      destruct Args as [|arg0 [|]]; simpl in H; try by inv_ok.
      destruct arg0 as [x|name0 args0|v| | | | | | | | | |];
        try (left; by eauto).
      * destruct (String.eqb Name "count") eqn:Hn; [|by inv_ok].
        destruct (String.eqb name0 "distinct") eqn:Hn0; [|by inv_ok].
        apply String.eqb_eq in Hn as ->. apply String.eqb_eq in Hn0 as ->.
        apply bind_Ok in H as (i & [c1 h1] & H & _).
        apply bind_Ok in H as (d & s1 & H & _).
        apply compileDistinct_Ok_args in H as [x ->]. right. eauto.
      * destruct (String.eqb Name "count") eqn:Hn; [|by inv_ok].
        apply String.eqb_eq in Hn as ->. right. eauto.
      * destruct (String.eqb Name "count"); by inv_ok.
      * destruct (String.eqb Name "count"); by inv_ok.
      * destruct (String.eqb Name "count"); by inv_ok.
      * destruct (String.eqb Name "count"); by inv_ok.
      * destruct (String.eqb Name "count"); by inv_ok.
      * destruct (String.eqb Name "count"); by inv_ok.
      * destruct (String.eqb Name "count"); by inv_ok.
      * destruct (String.eqb Name "count"); by inv_ok.
      * destruct (String.eqb Name "count"); by inv_ok.
      * destruct (String.eqb Name "count"); by inv_ok.
    + intros [[x ->]|[-> [[x ->]|[v ->]]]].
      * pose proof (compileFunction_ref_returns Name x c h Hall) as H.
        apply returns_Ok in H as (r & s' & E & _). eauto.
      * pose proof (d1_count_distinct_returns x c h Hall) as H.
        apply returns_Ok in H as (r & s' & E & _). eauto.
      * pose proof (compileFunction_distinct_node_returns v c h Hall) as H.
        apply returns_Ok in H as (r & s' & E & _). eauto.
  - intros r c' h' H. by apply compileFunction_effect in H.
  - intros Hlen. unfold compileFunction.
    destruct Args as [|? [|]]; simpl in *; done.
Qed.
(** The arguments of a well-formed [top] or [bottom]: the field, the
    interior tags and the limit. *)
Lemma top_bottom_arguments ref (dims : list influxql.VarRef) lit :
  let Args := influxql.Ref ref :: map influxql.Ref dims ++ [lit] in
  (length Args <? 2)%nat = false ∧
  take (length Args - 2) (drop 1 Args) = map influxql.Ref dims ∧
  last Args = Some lit ∧
  ((2 <? length Args)%nat = false → dims = []).
Proof.
  simpl. rewrite length_app, length_map. simpl.
  repeat split.
  - apply Nat.ltb_ge. lia.
  - replace (length dims + 1 - 1)%nat with (length (map influxql.Ref dims))
      by (rewrite length_map; lia).
    by rewrite drop_0, take_app_length.
  - by rewrite last_cons, last_snoc.
  - intros H%Nat.ltb_ge. destruct dims; [done | simpl in H; lia].
Qed.

Lemma topBottomDimensions_refs Name (refs acc : list influxql.VarRef)
    (s : compiledStatement * Heap) :
  topBottomDimensions Name (map influxql.Ref refs) acc s
  = Ok (acc ++ refs, s).
Proof.
  revert acc. induction refs as [|x refs IH]; intros acc; simpl.
  - by rewrite app_nil_r.
  - by rewrite IH, <- app_assoc.
Qed.

Lemma topBottomDimensions_Ok_refs Name vs acc
    (s : compiledStatement * Heap) ds s' :
  topBottomDimensions Name vs acc s = Ok (ds, s') →
  ∃ refs, vs = map influxql.Ref refs ∧ ds = acc ++ refs.
Proof.
  revert acc. induction vs as [|v vs IH]; intros acc H; simpl in H.
  - inv_ok. exists []. by rewrite app_nil_r.
  - destruct v; try by inv_ok.
    apply IH in H as (refs & -> & ->).
    eexists (_ :: refs). by rewrite <- app_assoc.
Qed.

Lemma compileTopBottom_returns Name ref dims limit c h :
  Forall (λ s, influxql.isMeasurement s = true) (Sources c) →
  TopBottomFunction c = "" → 0 < limit →
  returns (compileTopBottom Name
             (influxql.Ref ref :: map influxql.Ref dims
                ++ [influxql.IntegerLiteral limit])) (c, h)
    (λ _ _, True).
Proof.
  intros Hall Htb Hlimit.
  destruct (top_bottom_arguments ref dims (influxql.IntegerLiteral limit))
    as (Hlen & Hdims & Hlast & Hnil).
  unfold compileTopBottom. apply returns_bind, returns_gets.
  cbn [fst]. rewrite Htb. cbn [String.eqb negb]. rewrite Hlen.
  apply returns_bind.
  assert (returns
            (if (2 <? length (influxql.Ref ref :: map influxql.Ref dims
                                ++ [influxql.IntegerLiteral limit]))%nat
             then topBottomDimensions Name
                    (take (length (influxql.Ref ref :: map influxql.Ref dims
                                     ++ [influxql.IntegerLiteral limit]) - 2)
                       (drop 1 (influxql.Ref ref :: map influxql.Ref dims
                                  ++ [influxql.IntegerLiteral limit]))) []
             else mret [])
            (c, h) (λ ds s', ds = dims ∧ s' = (c, h))) as Hds.
  { destruct (2 <? _)%nat eqn:E.
    - rewrite Hdims. unfold returns. by rewrite topBottomDimensions_refs.
    - by rewrite (Hnil eq_refl). }
  eapply returns_mono; [exact Hds|]. intros ds s1 [-> ->].
  rewrite Hlast. apply Z.leb_gt in Hlimit as ->. returns_go.
  eapply returns_mono; [by apply compileVarRef_measurements|].
  intros r [c1 h1] ?; simplify_eq/=. by returns_go.
Qed.

(** X3.  [compileTopBottom] over measurements returns exactly when no
    top/bottom function is recorded yet and the arguments are a bare
    reference, then bare references only, then a positive integer literal;
    it then records its name and registers the output edge it returns.
    With a limit of zero or less it returns the limit error, and with less
    than two arguments the arity error. *)
Theorem X3_compileTopBottom_returns_iff Name Args c h :
  Forall (λ s, influxql.isMeasurement s = true) (Sources c) →
  ((∃ r s', compileTopBottom Name Args (c, h) = Ok (r, s')) ↔
   TopBottomFunction c = "" ∧
   ∃ ref dims limit,
     Args = influxql.Ref ref :: map influxql.Ref dims
              ++ [influxql.IntegerLiteral limit] ∧ 0 < limit) ∧
  (∀ r c' h', compileTopBottom Name Args (c, h) = Ok (r, (c', h')) →
     c' = setFunctionCalls (FunctionCalls c ++ [r])
            (setTopBottomFunction Name c)) ∧
  (TopBottomFunction c = "" →
   (∀ ref dims limit,
      Args = influxql.Ref ref :: map influxql.Ref dims
               ++ [influxql.IntegerLiteral limit] → limit ≤ 0 →
      compileTopBottom Name Args (c, h)
      = Err (fmt_Errorf "limit (%d) in %s function must be at least 1"
               [AInt limit; AStr Name])) ∧
   ((length Args < 2)%nat →
      compileTopBottom Name Args (c, h)
      = Err (fmt_Errorf
               "invalid number of arguments for %s, expected at least %d, got %d"
               [AStr Name; AInt 2; AInt (Z.of_nat (length Args))]))).
Proof.
  intros Hall. split; [|split].
  - split.
    + intros (r & [c' h'] & H).
      pose proof H as [Htb _]%compileTopBottom_Ok. split; [done|].
      unfold compileTopBottom in H. rewrite run_gets in H. cbn [fst] in H.
      rewrite Htb in H. cbn [String.eqb negb] in H.
      destruct (length Args <? 2)%nat eqn:Hlen; [by inv_ok|].
      apply Nat.ltb_ge in Hlen.
      destruct Args as [|[ref| | | | | | | | | | | |] rest]; try by inv_ok.
      destruct (exists_last (l := rest)) as (interior & lit & ->).
      { destruct rest; [simpl in Hlen; lia | done]. }
      apply bind_Ok in H as (ds & s1 & Hds & H).
      rewrite last_cons, last_snoc in H.
      destruct lit as [| | | | | | | | |limit| | |]; try by inv_ok.
      destruct (limit <=? 0) eqn:Hlimit; [by inv_ok|].
      apply Z.leb_gt in Hlimit.
      assert (∃ dims, interior = map influxql.Ref dims) as [dims ->].
      { destruct (2 <? _)%nat eqn:E.
        - simpl in Hds. rewrite length_app in Hds. simpl in Hds.
          replace (length interior + 1 - 1)%nat with (length interior)
            in Hds by lia.
          rewrite drop_0, take_app_length in Hds.
          apply topBottomDimensions_Ok_refs in Hds as (refs & -> & _). eauto.
        - apply Nat.ltb_ge in E. simpl in E. rewrite length_app in E.
          simpl in E. exists []. destruct interior; [done | simpl in E; lia]. }
      eauto.
    + intros (Htb & ref & dims & limit & -> & Hlimit).
      pose proof (compileTopBottom_returns Name ref dims limit c h
                    Hall Htb Hlimit) as H.
      apply returns_Ok in H as (r & s' & E & _). eauto.
  - intros r c' h' H. by apply compileTopBottom_Ok in H as [_ ->].
  - intros Htb. split.
    + intros ref dims limit -> Hlimit.
      destruct (top_bottom_arguments ref dims (influxql.IntegerLiteral limit))
        as (Hlen & Hdims & Hlast & Hnil).
      unfold compileTopBottom. rewrite run_gets. cbn [fst].
      rewrite Htb. cbn [String.eqb negb]. rewrite Hlen.
      assert ((if (2 <? length (influxql.Ref ref :: map influxql.Ref dims
                                  ++ [influxql.IntegerLiteral limit]))%nat
               then topBottomDimensions Name
                      (take (length (influxql.Ref ref :: map influxql.Ref dims
                                       ++ [influxql.IntegerLiteral limit]) - 2)
                         (drop 1 (influxql.Ref ref :: map influxql.Ref dims
                                    ++ [influxql.IntegerLiteral limit]))) []
               else mret []) (c, h) = Ok (dims, (c, h))) as Hds.
      { destruct (2 <? _)%nat eqn:E.
        - rewrite Hdims. by rewrite topBottomDimensions_refs.
        - by rewrite (Hnil eq_refl). }
      rewrite (bind_step _ _ _ _ _ Hds), Hlast.
      by apply Z.leb_le in Hlimit as ->.
    + intros Hlen. unfold compileTopBottom. rewrite run_gets. cbn [fst].
      rewrite Htb. cbn [String.eqb negb].
      by apply Nat.ltb_lt in Hlen as ->.
Qed.
End argument_checks.

(** ** Where the first draft panics *)

Section foreach_inversion.
Context {X A : Type}.
Implicit Types (body : A → M X unit) (s : X * Heap).

Lemma foreach_Panic_inv body l s v :
  foreach body l s = Panic v →
  ∃ l1 x l2 s1, l = l1 ++ x :: l2 ∧
                foreach body l1 s = Ok (tt, s1) ∧ body x s1 = Panic v.
Proof.
  revert s. induction l as [|x l IH]; intros s H; simpl in H; [done|].
  apply bind_Panic_inv in H as [H|([] & s1 & Hx & H)].
  - by exists [], x, l, s.
  - apply IH in H as (l1 & y & l2 & s2 & -> & H1 & Hy).
    exists (x :: l1), y, l2, s2. split; [done|]. split; [|done].
    simpl. by rewrite (bind_step _ _ _ _ _ Hx).
Qed.

Lemma foreach_Err_inv body l s e :
  foreach body l s = Err e →
  ∃ l1 x l2 s1, l = l1 ++ x :: l2 ∧
                foreach body l1 s = Ok (tt, s1) ∧ body x s1 = Err e.
Proof.
  revert s. induction l as [|x l IH]; intros s H; simpl in H; [done|].
  apply bind_Err_inv in H as [H|([] & s1 & Hx & H)].
  - by exists [], x, l, s.
  - apply IH in H as (l1 & y & l2 & s2 & -> & H1 & Hy).
    exists (x :: l1), y, l2, s2. split; [done|]. split; [|done].
    simpl. by rewrite (bind_step _ _ _ _ _ Hx).
Qed.
End foreach_inversion.

(** Inversion of a hypothesis saying that a computation panicked. *)
Ltac inv_panic_step :=
  match goal with
  | H : (_ ≫= _) _ = Panic _ |- _ =>
      apply bind_Panic_inv in H; destruct H as [H|(? & [? ?] & ? & H)]
  | H : @mret (M _) _ _ _ _ = Panic _ |- _ => destruct (no_panic_ret _ _ _ H)
  | H : fail _ _ = Panic _ |- _ => destruct (no_panic_fail _ _ _ H)
  | H : gets _ _ = Panic _ |- _ => destruct (no_panic_gets _ _ _ H)
  | H : modify _ _ = Panic _ |- _ => destruct (no_panic_modify _ _ _ H)
  | H : alloc _ _ = Panic _ |- _ => destruct (no_panic_alloc _ _ _ H)
  | H : store _ _ = Panic _ |- _ => destruct (no_panic_store _ _ _ H)
  | H : load _ _ = Panic _ |- _ => destruct (no_panic_load _ _ _ H)
  | H : panic _ _ = Panic _ |- _ => injection H as <-
  | H : (let '(_, _) := ?p in _) _ = Panic _ |- _ => destruct p
  | H : (if ?b then _ else _) _ = Panic _ |- _ => destruct b eqn:?
  end.

Section first_draft_panics.
Import Draft1.
Variable ToLower : string → string.
Implicit Types (c : compiledStatement) (h : Heap).

Lemma compileVarRef_other_source ref node c h :
  Exists (λ s, influxql.isMeasurement s = false) (Sources c) →
  compileVarRef ref node (c, h) = Panic "unimplemented".
Proof.
  intros Hex. unfold compileVarRef.
  rewrite (bind_step _ _ (c, h) _ _ eq_refl), run_gets.
  apply bind_Panic. by apply d1_sources_panic.
Qed.

(** A variable reference panics on a source that is not a measurement,
    and on nothing else. *)
Lemma compileVarRef_Panic ref node c h v :
  compileVarRef ref node (c, h) = Panic v →
  v = "unimplemented" ∧
  Exists (λ s, influxql.isMeasurement s = false) (Sources c).
Proof.
  intros H.
  destruct (decide (Forall (λ s, influxql.isMeasurement s = true) (Sources c)))
    as [Hall|Hex].
  - apply compileVarRef_measurements with (ref := ref) (node := node) (h := h)
      in Hall.
    apply returns_no_panic in Hall. by destruct (Hall v).
  - apply not_Forall_Exists in Hex; [|apply _].
    assert (Exists (λ s, influxql.isMeasurement s = false) (Sources c))
      as Hother.
    { eapply Exists_impl; [exact Hex|]. intros s Hs. simpl in Hs.
      by destruct (influxql.isMeasurement s). }
    split; [|done].
    rewrite (compileVarRef_other_source ref node c h Hother) in H.
    by injection H.
Qed.

Ltac inv_panic :=
  repeat first
    [ inv_panic_step; simpl in *; simplify_eq
    | inv_step; simpl in *; simplify_eq
    | match goal with
      | H : compileVarRef _ _ _ = Ok _ |- _ =>
          apply compileVarRef_Ok in H; destruct H as [? _]; simplify_eq
      | H : compileDistinct _ _ _ = Ok _ |- _ =>
          apply compileDistinct_Ok in H; simplify_eq
      | H : compileVarRef _ _ _ = Panic _ |- _ =>
          apply compileVarRef_Panic in H; destruct H as [? ?]; simplify_eq
      end ].

Lemma compileDistinct_Panic Name Args c h v :
  compileDistinct Name Args (c, h) = Panic v →
  v = "unimplemented" ∧
  Exists (λ s, influxql.isMeasurement s = false) (Sources c).
Proof.
  unfold compileDistinct. intros H.
  destruct Args as [|[] [|]]; simpl in H; inv_panic; done.
Qed.

Lemma compileFunction_Panic Name Args c h v :
  compileFunction Name Args (c, h) = Panic v →
  v = "unimplemented" ∧
  Exists (λ s, influxql.isMeasurement s = false) (Sources c).
Proof.
  unfold compileFunction. intros H.
  destruct Args as [|arg0 [|]]; simpl in H; try (by inv_panic).
  destruct arg0; inv_panic;
    repeat match goal with
           | H : compileDistinct _ _ _ = Panic _ |- _ =>
               apply compileDistinct_Panic in H; destruct H
           end; done.
Qed.

Lemma compileTopBottom_Panic Name Args c h v :
  compileTopBottom Name Args (c, h) = Panic v →
  v = "unimplemented" ∧
  Exists (λ s, influxql.isMeasurement s = false) (Sources c).
Proof.
  unfold compileTopBottom. intros H.
  apply bind_Panic_inv in H as [H|(tb & [c1 h1] & Htb & H)];
    [destruct (no_panic_gets _ _ _ H)|].
  apply gets_Ok in Htb as [-> [= -> ->]]. simpl in H.
  destruct (negb _); [destruct (no_panic_fail _ _ _ H)|].
  destruct (length Args <? 2)%nat; [destruct (no_panic_fail _ _ _ H)|].
  destruct Args as [|[ref| | | | | | | | | | | |] rest];
    try destruct (no_panic_fail _ _ _ H).
  apply bind_Panic_inv in H as [H|(ds & [c2 h2] & Hds & H)].
  { destruct (2 <? _)%nat; [|destruct (no_panic_ret _ _ _ H)].
    exfalso. revert H. generalize (@nil influxql.VarRef).
    induction (take _ _) as [|e l IH]; intros acc H; simpl in H.
    - destruct (no_panic_ret _ _ _ H).
    - destruct e; try destruct (no_panic_fail _ _ _ H). by eapply IH. }
  assert ((c2, h2) = (c, h)) as [= -> ->].
  { destruct (2 <? _)%nat.
    - by apply topBottomDimensions_Ok in Hds.
    - by apply ret_Ok in Hds as [_ ->]. }
  rewrite last_cons in H.
  destruct (last rest) as [lit|]; [|destruct (no_panic_fail _ _ _ H)].
  - destruct lit; inv_panic; done.
Qed.
Lemma compileExpr_Panic expr c h v :
  compileExpr expr (c, h) = Panic v →
  v = "unimplemented" ∧
  Exists (λ s, influxql.isMeasurement s = false) (Sources c).
Proof.
  revert c h.
  induction expr as [ref|Name Args|val|Op LHS IHL RHS IHR| | | | | | | | |];
    intros c h H; simpl in H; try destruct (no_panic_fail _ _ _ H).
  - inv_panic. destruct (AuxiliaryFields c); by inv_panic.
  - repeat match type of H with
      | (if ?b then _ else _) _ = Panic _ => destruct b
      end.
    + by apply compileFunction_Panic in H.
    + by apply compileDistinct_Panic in H.
    + by apply compileTopBottom_Panic in H.
    + destruct (no_panic_fail _ _ _ H).
  - by apply compileDistinct_Panic in H.
  - destruct (influxql.isLiteral LHS); [destruct (no_panic_fail _ _ _ H)|].
    destruct (influxql.isLiteral RHS); [destruct (no_panic_fail _ _ _ H)|].
    apply bind_Panic_inv in H as [H|(lhs & [c1 h1] & Hl & H)]; [by eapply IHL|].
    apply bind_Panic_inv in H as [H|(rhs & [c2 h2] & Hr & H)].
    + apply IHR in H as [-> H]. split; [done|].
      apply compileExpr_extends in Hl as [<- _ _ _ _ _ _ _]. done.
    + by inv_panic.
Qed.

(** A dimension panics on [time(0s, o)] with [o] a duration literal,
    reached while no duration is set, and on nothing else. *)
Lemma Compile_dimension_Panic d c h v :
  Compile_dimension ToLower d (c, h) = Panic v →
  v = divide_by_zero ∧
  ∃ o, d = time_dimension 0 [influxql.DurationLiteral o].
Proof.
  unfold Compile_dimension. destruct d as [e]. simpl. intros H.
  destruct e as [ |Name Args| | | | | | | | | | |]; try by inv_panic.
  destruct (negb (String.eqb Name "time")) eqn:Hname; [by inv_panic|].
  apply negb_false_iff, String.eqb_eq in Hname as ->.
  destruct Args as [|a0 [|a1 [|]]]; simpl in H; try by inv_panic.
  - destruct a0; by inv_panic.
  - destruct a0; try by inv_panic.
    inv_panic. destruct a1; inv_panic.
    match goal with H : (_ =? 0) = true |- _ => apply Z.eqb_eq in H as -> end.
    split; [done|]. by eexists.
Qed.

Lemma linkAuxiliaryFields_Panic c h v :
  linkAuxiliaryFields (c, h) = Panic v →
  v = "unimplemented" ∧
  Exists (λ s, influxql.isMeasurement s = false) (Sources c).
Proof.
  unfold linkAuxiliaryFields. intros H. inv_panic.
  destruct (AuxiliaryFields c) as [a|]; inv_panic; try done.
  match goal with H : (length ?l =? 1)%nat = true |- _ =>
    destruct l as [|? [|]]; simplify_eq/= end.
Qed.

(** X4.  The first draft panics in two cases only: with the value
    "unimplemented" when a source of the statement is not a measurement,
    and with an integer division by zero when the dimensions hold an entry
    [time(0s, o)] with [o] a duration literal. *)
Theorem X4_first_draft_panics_only clock stmt opt v :
  Compile ToLower clock stmt opt = Panic v →
  (v = "unimplemented" ∧
   Exists (λ s, influxql.isMeasurement s = false) (influxql.Sources stmt)) ∨
  (v = divide_by_zero ∧
   ∃ o, time_dimension 0 [influxql.DurationLiteral o]
          ∈ influxql.Dimensions stmt).
Proof.
  unfold Compile, Compile_body, Compile_loops. intros H.
  match type of H with match ?m with _ => _ end = _ =>
    destruct m as [[[] [c' h']]| |] eqn:E; simplify_eq end.
  assert (Sources (Compile_init clock stmt opt) = influxql.Sources stmt)
    as Hinit by done.
  apply bind_Panic_inv in E as [E|([] & [c1 h1] & Hloops & E)].
  - apply bind_Panic_inv in E as [E|([] & [c0 h0] & Hds & E)].
    + apply foreach_Panic_inv in E as (l1 & d & l2 & [c1 h1] & Hl & _ & Hd).
      apply Compile_dimension_Panic in Hd as [-> [o ->]].
      right. split; [done|]. exists o. rewrite Hl.
      apply elem_of_app. right. left.
    + apply Compile_dimensions_beside in Hds.
      assert (Sources c0 = influxql.Sources stmt) as Hs0.
      { unfold beside_dimensions in Hds. by simplify_eq. }
      apply foreach_Panic_inv in E as (l1 & f & l2 & [c1 h1] & Hl & Hpre & Hf).
      apply Compile_fields_extends in Hpre as [Hs1 _ _ _ _ _ _ _].
      unfold Compile_field in Hf.
      destruct (match influxql.FieldExpr f with
                | influxql.Ref ref => String.eqb (influxql.Val ref) "time"
                | _ => false
                end); [destruct (no_panic_ret _ _ _ Hf)|].
      apply bind_Panic_inv in Hf as [Hf|(r & [c2 h2] & _ & Hf)];
        [|destruct (no_panic_modify _ _ _ Hf)].
      apply compileExpr_Panic in Hf as [-> Hex].
      left. split; [done|]. by rewrite <- Hs0, <- Hs1.
  - apply (proj1 (Compile_loops_Ok ToLower _ _ _ _)) in Hloops
      as ([c0 h0] & Hds & Hfs).
    apply Compile_dimensions_beside in Hds.
    assert (Sources c0 = influxql.Sources stmt) as Hs0.
    { unfold beside_dimensions in Hds. by simplify_eq. }
    apply Compile_fields_extends in Hfs as [Hs1 _ _ _ _ _ _ _].
    apply bind_Panic_inv in E as [E|([] & [c2 h2] & Hv & E)].
    + unfold validateFields in E. by inv_panic.
    + apply validateFields_Ok in Hv as (-> & -> & _).
      apply linkAuxiliaryFields_Panic in E as [-> Hex].
      left. split; [done|]. by rewrite <- Hs0, <- Hs1.
Qed.
End first_draft_panics.

(** ** What a compiled statement of the first draft holds *)

Section compiled_statement.
Import Draft1.
Variable ToLower : string → string.
Implicit Types (c : compiledStatement) (h : Heap).

(** Compiling an expression leaves the published output edges alone. *)
Lemma compileExpr_OutputEdges expr c h r c' h' :
  compileExpr expr (c, h) = Ok (r, (c', h')) → OutputEdges c' = OutputEdges c.
Proof.
  revert c h r c' h'.
  induction expr as [ref|Name Args|val|Op LHS IHL RHS IHR| | | | | | | | |];
    intros c h r c' h' H; simpl in H; try by inv_ok.
  - inv_ok. destruct (AuxiliaryFields c); by inv_ok.
  - repeat match type of H with
      | (if ?b then _ else _) _ = Ok _ => destruct b
      end.
    + by apply compileFunction_Ok in H as (_ & _ & ? & _).
    + by apply compileDistinct_Ok in H as ->.
    + by apply compileTopBottom_Ok in H as [_ ->].
    + inv_ok.
  - by apply compileDistinct_Ok in H as ->.
  - inv_ok. etrans; [by eapply IHR | by eapply IHL].
Qed.

Lemma Compile_field_OutputEdges f c h u c' h' :
  Compile_field f (c, h) = Ok (u, (c', h')) →
  length (OutputEdges c')
  = (length (OutputEdges c) + length (List.filter published_field [f]))%nat.
Proof.
  intros H. unfold published_field. simpl.
  unfold Compile_field in H.
  destruct (match influxql.FieldExpr f with
            | influxql.Ref ref => String.eqb (influxql.Val ref) "time"
            | _ => false
            end); simpl.
  - apply ret_Ok in H as [_ [= -> ->]]. lia.
  - apply bind_Ok in H as (r & [c1 h1] & Hc & Hm).
    apply modify_Ok in Hm as [= -> ->]. simpl.
    apply compileExpr_OutputEdges in Hc as ->. rewrite length_app. simpl. lia.
Qed.

Lemma Compile_fields_OutputEdges fs c h u c' h' :
  foreach Compile_field fs (c, h) = Ok (u, (c', h')) →
  length (OutputEdges c')
  = (length (OutputEdges c) + length (List.filter published_field fs))%nat.
Proof.
  revert c h. induction fs as [|f fs IH]; intros c h H; simpl in H.
  - inv_ok. simpl. lia.
  - apply bind_Ok in H as ([] & [c1 h1] & Hf & H).
    apply IH in H. apply Compile_field_OutputEdges in Hf.
    rewrite H, Hf. simpl. destruct (published_field f); simpl; lia.
Qed.

Lemma Select_targets c plan :
  Draft1_Select.Select c plan
  = (OutputEdges c,
     Plan.mk (Plan.targets plan ++ map Some (OutputEdges c))).
Proof.
  unfold Draft1_Select.Select. f_equal.
  revert plan. induction (OutputEdges c) as [|e l IH]; intros [ts]; simpl.
  - by rewrite app_nil_r.
  - rewrite IH. simpl. by rewrite <- app_assoc.
Qed.

(** X5.  A statement that compiles has one output edge per field that is
    not the bare reference [time], and [Select] returns these edges and
    adds them to the targets of the plan, after the targets it had, in the
    same order. *)
Theorem X5_one_output_edge_per_field clock stmt opt c h :
  Compile ToLower clock stmt opt = Ok (c, h) →
  length (OutputEdges c)
  = length (List.filter published_field (influxql.Fields stmt)) ∧
  ∀ plan, Draft1_Select.Select c plan
          = (OutputEdges c,
             Plan.mk (Plan.targets plan ++ map Some (OutputEdges c))).
Proof.
  intros (c0 & h0 & h1 & Hds & Hfs & _)%Compile_Ok. split.
  - apply Compile_fields_OutputEdges in Hfs. rewrite Hfs.
    apply Compile_dimensions_beside in Hds.
    unfold beside_dimensions in Hds.
    assert (OutputEdges c0 = []) as -> by by simplify_eq.
    done.
  - apply Select_targets.
Qed.

(** A dimension adds its name when it is a bare tag reference, and no
    name otherwise. *)
Lemma Compile_dimension_names d c h u c' h' :
  Compile_dimension ToLower d (c, h) = Ok (u, (c', h')) →
  Dimensions c' = Dimensions c ++ tag_names [d] ∧
  Forall (λ n, ToLower n ≠ "time") (tag_names [d]).
Proof.
  unfold Compile_dimension, tag_names. simpl. intros H.
  destruct (influxql.DimExpr d) as [ref|Name Args| | | | | | | | | | |];
    simpl; inv_ok; rewrite ?app_nil_r; try done.
  - split; [done|]. constructor; [|done].
    by match goal with H : String.eqb _ _ = false |- _ =>
         apply String.eqb_neq in H end.
  - destruct Args as [|[] Args]; simpl in *; inv_ok; try done.
    all: destruct Args as [|[] Args]; simpl in *; inv_ok; done.
Qed.

Lemma Compile_dimensions_names ds c h u c' h' :
  foreach (Compile_dimension ToLower) ds (c, h) = Ok (u, (c', h')) →
  Dimensions c' = Dimensions c ++ tag_names ds ∧
  Forall (λ n, ToLower n ≠ "time") (tag_names ds).
Proof.
  revert c h. induction ds as [|d ds IH]; intros c h H; simpl in H.
  - inv_ok. by rewrite app_nil_r.
  - apply bind_Ok in H as ([] & [c1 h1] & Hd & H).
    apply IH in H as [-> Hall].
    apply Compile_dimension_names in Hd as [-> Hd].
    assert (tag_names (d :: ds) = tag_names [d] ++ tag_names ds) as ->
      by (unfold tag_names; simpl; by rewrite app_nil_r).
    split; [by rewrite app_assoc | by apply Forall_app].
Qed.

(** X6.  A statement that compiles groups by the bare tag references of
    its dimension list, in their order and with their repetitions: the
    [time()] calls and the wildcards add no name, and no name that is
    [time] in lower case is among them.  Its sources are those of the
    parsed statement. *)
Theorem X6_dimensions_are_the_tags clock stmt opt c h :
  Compile ToLower clock stmt opt = Ok (c, h) →
  Dimensions c = tag_names (influxql.Dimensions stmt) ∧
  Forall (λ n, ToLower n ≠ "time") (Dimensions c) ∧
  Sources c = influxql.Sources stmt.
Proof.
  intros (c0 & h0 & h1 & Hds & Hfs & _)%Compile_Ok.
  apply Compile_fields_extends in Hfs as [Hs Hd _ _ _ _ _ _].
  pose proof (Compile_dimensions_beside _ _ _ _ _ _ _ Hds) as Hb.
  apply Compile_dimensions_names in Hds as [Hn Hall]. simpl in Hn.
  rewrite Hd, Hs, Hn. repeat split; [done|].
  unfold beside_dimensions in Hb. by simplify_eq.
Qed.
End compiled_statement.

(** ** The loops over the dimensions of the two drafts *)

Section dimension_loops.
Variable ToLower : string → string.

Lemma dimension_step_alike d c1 h1 c2 h2 :
  wildcard_dimension d = false →
  grouping1 c1 = grouping2 c2 →
  alike (λ c1' c2', grouping1 c1' = grouping2 c2')
    (Draft1.Compile_dimension ToLower d (c1, h1))
    (Draft2.Compile_dimension ToLower d (c2, h2)).
Proof.
  destruct c1 as [? ? [du1 of1] ? ? ? ? ? [now1]],
           c2 as [? ? [du2 of2] ? ? ? ? ? [now2]].
  unfold grouping1, grouping2, wildcard_dimension. simpl.
  intros Hw [= -> -> -> ->].
  unfold Draft1.Compile_dimension, Draft2.Compile_dimension.
  destruct (influxql.DimExpr d) as [ref|Name Args| | | | | | | | | | |];
    try discriminate; try reflexivity.
  - destruct (String.eqb _ _); reflexivity.
  - destruct (negb _); [reflexivity|].
    destruct (_ || _); [reflexivity|].
    destruct (Args !! 0%nat) as [[]|]; try reflexivity.
    rewrite !run_gets. simpl.
    destruct (negb (du2 =? 0)); [reflexivity|].
    rewrite !run_modify. simpl.
    destruct (length Args =? 2)%nat; [|reflexivity].
    rewrite !run_gets. simpl.
    destruct (Args !! 1%nat) as [[]|]; try reflexivity.
    + destruct (negb _); [reflexivity|].
      destruct (negb _); reflexivity.
    + destruct (_ =? 0); reflexivity.
Qed.

(** X7.  On a dimension list with no wildcard entry the loops over the
    dimensions of the two drafts end alike: from statements with the same
    tags, interval and reference time, both return with the same tags and
    interval, or both fail with the same error, or both panic with the
    same value.  (On a wildcard entry they differ: the first draft skips
    it, the second fails with [unimplemented].) *)
Theorem X7_drafts_agree_on_dimensions ds c1 h1 c2 h2 :
  Forall (λ d, wildcard_dimension d = false) ds →
  grouping1 c1 = grouping2 c2 →
  alike (λ c1' c2', grouping1 c1' = grouping2 c2')
    (foreach (Draft1.Compile_dimension ToLower) ds (c1, h1))
    (foreach (Draft2.Compile_dimension ToLower) ds (c2, h2)).
Proof.
  intros Hds. revert c1 h1 c2 h2.
  induction Hds as [|d ds Hd _ IH]; intros c1 h1 c2 h2 Hg; [exact Hg|].
  pose proof (dimension_step_alike d c1 h1 c2 h2 Hd Hg) as Hstep.
  simpl. unfold mbind, M_bind.
  destruct (Draft1.Compile_dimension ToLower d (c1, h1))
    as [[[] [c1' h1']]|e1|v1],
    (Draft2.Compile_dimension ToLower d (c2, h2))
    as [[[] [c2' h2']]|e2|v2]; simpl in Hstep; try done.
  by apply IH.
Qed.
End dimension_loops.

(** ** The offset of the time interval *)

Section interval_offset.
Import Draft1.
Variable ToLower : string → string.

(** What a time keeps beyond its truncation to [d]. *)
Lemma Sub_Truncate_bounds t d :
  (0 < d → 0 ≤ time.Sub t (time.Truncate t d) < d) ∧
  (d < 0 → time.Sub t (time.Truncate t d) = 0).
Proof.
  unfold time.Sub, time.Truncate, time.minDuration, time.maxDuration.
  assert (0 < 2 ^ 63) by done.
  split; intros Hd.
  - destruct (Z.leb_spec d 0); [lia|].
    pose proof (Z.mod_pos_bound t d Hd).
    repeat match goal with
      | |- context [?a <? ?b] => destruct (Z.ltb_spec a b)
      end; lia.
  - destruct (Z.leb_spec d 0); [|lia].
    replace (t - t) with 0 by lia.
    repeat match goal with
      | |- context [?a <? ?b] => destruct (Z.ltb_spec a b)
      end; lia.
Qed.

(** X8.  In a statement that compiles, the offset of an entry
    [time(d, o)] with [d] nonzero stays within one interval.  For a
    duration literal [o] it is smaller than [d] in absolute value and has
    the sign of [o], so a negative literal gives an offset that is negative
    or zero.  For a time literal or [now()] it lies in [0, d) when [d] is
    positive, and is zero when [d] is negative. *)
Theorem X8_offset_within_interval clock stmt opt c h d rest :
  Compile ToLower clock stmt opt = Ok (c, h) →
  time_dimension d rest ∈ influxql.Dimensions stmt → d ≠ 0 →
  let off := influxql.Offset (Interval c) in
  (∀ o, rest = [influxql.DurationLiteral o] →
        Z.abs off < Z.abs d ∧ (0 ≤ o → 0 ≤ off) ∧ (o ≤ 0 → off ≤ 0)) ∧
  (∀ e, rest = [e] →
        (∃ t, e = influxql.TimeLiteral t) ∨
        (∃ args, e = influxql.Call "now" args) →
        (0 < d → 0 ≤ off < d) ∧ (d < 0 → off = 0)).
Proof.
  intros (c0 & h0 & h1 & Hds & Hfs & _)%Compile_Ok Hin Hd off.
  apply Compile_fields_extends in Hfs as [_ _ Hi _ _ _ _ _].
  eapply Compile_dimensions_interval in Hds as (_ & Ho & Ht & Hn); [|done..].
  subst off. rewrite Hi. split.
  - intros o ->. rewrite (Ho o eq_refl).
    pose proof (Z.rem_bound_abs o d Hd).
    repeat split; [lia| |].
    + intros. apply Z.rem_nonneg; lia.
    + intros. apply Z.rem_nonpos; lia.
  - intros e -> [[t ->]|[args ->]].
    + rewrite (Ht t eq_refl). apply Sub_Truncate_bounds.
    + rewrite (Hn args eq_refl). apply Sub_Truncate_bounds.
Qed.
End interval_offset.

(** ** Statements that mix fields and functions *)

Section mixing.
Import Draft1.
Variable ToLower : string → string.
Implicit Types (c : compiledStatement) (h : Heap).

Lemma Compile_field_bare f c h u c' h' :
  bare_field f = true →
  Compile_field f (c, h) = Ok (u, (c', h')) →
  is_Some (AuxiliaryFields c') ∧
  OnlySelectors c' = OnlySelectors c ∧
  TopBottomFunction c' = TopBottomFunction c.
Proof.
  unfold bare_field, Compile_field.
  destruct (influxql.FieldExpr f) as [ref| | | | | | | | | | | |]; try done.
  intros ->%negb_true_iff H. simpl in H. inv_ok.
  destruct (AuxiliaryFields c) as [a|] eqn:Ha; inv_ok; simpl.
  - by rewrite Ha.
  - done.
Qed.

Lemma Compile_field_aggregate f c h u c' h' :
  aggregate_field f = true →
  Compile_field f (c, h) = Ok (u, (c', h')) →
  OnlySelectors c' = false.
Proof.
  unfold aggregate_field, Compile_field.
  destruct (influxql.FieldExpr f) as [|Name Args| | | | | | | | | | |];
    try done.
  intros Hn H. apply bind_Ok in H as (r & [c1 h1] & Hc & Hm).
  apply modify_Ok in Hm as [= -> ->]. simpl.
  assert (Name = "count" ∨ Name = "sum" ∨ Name = "mean") as Hname.
  { unfold oneof in Hn. simpl in Hn. rewrite orb_false_r in Hn.
    apply orb_true_iff in Hn as [Hn|Hn];
      [|apply orb_true_iff in Hn as [Hn|Hn]];
      apply String.eqb_eq in Hn; eauto. }
  destruct Hname as [->|[->| ->]]; simpl in Hc;
    by apply compileFunction_effect in Hc as [-> _].
Qed.

Lemma Compile_field_plain f c h u c' h' :
  plain_field f = true →
  Compile_field f (c, h) = Ok (u, (c', h')) →
  OnlySelectors c' = OnlySelectors c ∧
  TopBottomFunction c' = TopBottomFunction c.
Proof.
  unfold plain_field, Compile_field.
  destruct (influxql.FieldExpr f) as [ref|Name Args| | | | | | | | | | |];
    try done.
  - intros _ H. destruct (String.eqb _ _); simpl in H; inv_ok; [done|].
    destruct (AuxiliaryFields c); by inv_ok.
  - intros Hn H. apply bind_Ok in H as (r & [c1 h1] & Hc & Hm).
    apply modify_Ok in Hm as [= -> ->]. simpl.
    assert (Name = "min" ∨ Name = "max" ∨ Name = "first" ∨ Name = "last")
      as Hname.
    { unfold oneof in Hn. simpl in Hn. rewrite orb_false_r in Hn.
      repeat (apply orb_true_iff in Hn as [Hn|Hn]);
        apply String.eqb_eq in Hn; eauto. }
    destruct Hname as [->|[->|[->| ->]]]; simpl in Hc;
      by apply compileFunction_effect in Hc as (-> & -> & _).
Qed.

(** What the loop over the fields leaves in the statement. *)
Lemma Compile_fields_bare fs c h u c' h' :
  foreach Compile_field fs (c, h) = Ok (u, (c', h')) →
  Exists (λ f, bare_field f = true) fs → is_Some (AuxiliaryFields c').
Proof.
  intros H (f & Hin & Hf)%Exists_exists.
  apply list_elem_of_split in Hin as (l1 & l2 & ->).
  rewrite foreach_app in H.
  apply bind_Ok in H as ([] & [c1 h1] & _ & H). simpl in H.
  apply bind_Ok in H as ([] & [c2 h2] & Hstep & H).
  apply (Compile_field_bare _ _ _ _ _ _ Hf) in Hstep as [Ha _].
  apply Compile_fields_extends in H as [_ _ _ _ _ _ He _].
  by rewrite (He Ha).
Qed.

Lemma Compile_fields_aggregate fs c h u c' h' :
  foreach Compile_field fs (c, h) = Ok (u, (c', h')) →
  Exists (λ f, aggregate_field f = true) fs → OnlySelectors c' = false.
Proof.
  intros H (f & Hin & Hf)%Exists_exists.
  apply list_elem_of_split in Hin as (l1 & l2 & ->).
  rewrite foreach_app in H.
  apply bind_Ok in H as ([] & [c1 h1] & _ & H). simpl in H.
  apply bind_Ok in H as ([] & [c2 h2] & Hstep & H).
  apply (Compile_field_aggregate _ _ _ _ _ _ Hf) in Hstep.
  apply Compile_fields_extends in H as [_ _ _ _ _ _ _ He].
  by apply He.
Qed.

Lemma Compile_fields_plain fs c h u c' h' :
  Forall (λ f, plain_field f = true) fs →
  foreach Compile_field fs (c, h) = Ok (u, (c', h')) →
  OnlySelectors c' = OnlySelectors c ∧
  TopBottomFunction c' = TopBottomFunction c.
Proof.
  intros Hfs. revert c h.
  induction Hfs as [|f fs Hf _ IH]; intros c h H; simpl in H.
  - by inv_ok.
  - apply bind_Ok in H as ([] & [c1 h1] & Hstep & H).
    apply IH in H as [-> ->].
    by apply (Compile_field_plain _ _ _ _ _ _ Hf) in Hstep.
Qed.

(** Validation, then a next step. *)
Lemma validateFields_run {B} (k : M compiledStatement B) c h :
  (validateFields ;; k) (c, h)
  = if (1 <? length (FunctionCalls c))%nat
       && negb (String.eqb (TopBottomFunction c) "")
    then Err (selector_error (TopBottomFunction c))
    else k (c, h).
Proof.
  unfold validateFields, mbind, M_bind, gets. simpl.
  by destruct (_ && _).
Qed.

(** X9.  A statement with an aggregate ([count], [sum] or [mean]) as one
    field and a bare reference other than [time] as another never
    compiles.  When its dimensions and fields are accepted one by one, the
    error is that of a selector combined with other functions if a
    [top] or [bottom] was recorded with more than one call, and the
    mixing of aggregate and non-aggregate queries otherwise. *)
Theorem X9_aggregate_with_bare_field clock stmt opt :
  Exists (λ f, aggregate_field f = true) (influxql.Fields stmt) →
  Exists (λ f, bare_field f = true) (influxql.Fields stmt) →
  (∀ c h, Compile ToLower clock stmt opt ≠ Ok (c, h)) ∧
  (∀ c1 h1,
     Compile_loops ToLower (influxql.Dimensions stmt) (influxql.Fields stmt)
       (Compile_init clock stmt opt, empty_heap) = Ok (tt, (c1, h1)) →
     Compile ToLower clock stmt opt
     = Err (if (1 <? length (FunctionCalls c1))%nat
               && negb (String.eqb (TopBottomFunction c1) "")
            then selector_error (TopBottomFunction c1)
            else mixing_aggregate)).
Proof.
  intros Hagg Hbare.
  assert (∀ c1 h1,
     Compile_loops ToLower (influxql.Dimensions stmt) (influxql.Fields stmt)
       (Compile_init clock stmt opt, empty_heap) = Ok (tt, (c1, h1)) →
     Compile ToLower clock stmt opt
     = Err (if (1 <? length (FunctionCalls c1))%nat
               && negb (String.eqb (TopBottomFunction c1) "")
            then selector_error (TopBottomFunction c1)
            else mixing_aggregate)) as Hmain.
  { intros c1 h1 Hloops.
    pose proof Hloops as ([c0 h0] & _ & Hfs)%Compile_loops_Ok.
    pose proof (Compile_fields_bare _ _ _ _ _ _ Hfs Hbare) as [a Ha].
    pose proof (Compile_fields_aggregate _ _ _ _ _ _ Hfs Hagg) as Ho.
    unfold Compile, Compile_body.
    rewrite (bind_step _ _ _ _ _ Hloops).
    rewrite validateFields_run.
    destruct (_ && _); [done|].
    unfold linkAuxiliaryFields.
    rewrite !run_gets. simpl. rewrite Ha.
    rewrite run_gets. simpl. by rewrite Ho. }
  split; [|done].
  intros c h H.
  pose proof H as (c0 & h0 & h1 & Hds & Hfs & _)%Compile_Ok.
  assert (Compile_loops ToLower (influxql.Dimensions stmt)
            (influxql.Fields stmt) (Compile_init clock stmt opt, empty_heap)
          = Ok (tt, (c, h1))) as Hloops
    by (apply Compile_loops_Ok; eauto).
  apply Hmain in Hloops. congruence.
Qed.

(** X10.  A statement whose fields are references and calls of [min],
    [max], [first] or [last], with a bare reference other than [time] and
    two calls or more among them, never compiles: when its dimensions and
    fields are accepted one by one, the error is the mixing of multiple
    selector functions with tags or fields. *)
Theorem X10_selectors_with_bare_field clock stmt opt :
  Forall (λ f, plain_field f = true) (influxql.Fields stmt) →
  Exists (λ f, bare_field f = true) (influxql.Fields stmt) →
  (2 ≤ length (List.filter call_field (influxql.Fields stmt)))%nat →
  (∀ c h, Compile ToLower clock stmt opt ≠ Ok (c, h)) ∧
  (∀ c1 h1,
     Compile_loops ToLower (influxql.Dimensions stmt) (influxql.Fields stmt)
       (Compile_init clock stmt opt, empty_heap) = Ok (tt, (c1, h1)) →
     Compile ToLower clock stmt opt = Err mixing_selectors).
Proof.
  intros Hplain Hbare Hcalls.
  assert (∀ c1 h1,
     Compile_loops ToLower (influxql.Dimensions stmt) (influxql.Fields stmt)
       (Compile_init clock stmt opt, empty_heap) = Ok (tt, (c1, h1)) →
     Compile ToLower clock stmt opt = Err mixing_selectors) as Hmain.
  { intros c1 h1 Hloops.
    pose proof Hloops as ([c0 h0] & Hds & Hfs)%Compile_loops_Ok.
    pose proof (Compile_fields_bare _ _ _ _ _ _ Hfs Hbare) as [a Ha].
    pose proof (Compile_fields_plain _ _ _ _ _ _ Hplain Hfs) as [Ho Htb].
    pose proof (Compile_fields_count _ _ _ _ _ _ Hfs) as Hlen.
    apply Compile_dimensions_beside in Hds.
    unfold beside_dimensions in Hds. simpl in Hds.
    injection Hds as _ Hfc Ho0 Htb0 _ _ _.
    rewrite Ho0 in Ho. rewrite Htb0 in Htb.
    assert ((1 <? length (FunctionCalls c1))%nat = true) as Hgt
      by (apply Nat.ltb_lt; lia).
    unfold Compile, Compile_body.
    rewrite (bind_step _ _ _ _ _ Hloops).
    rewrite validateFields_run, Htb. simpl. rewrite andb_false_r.
    unfold linkAuxiliaryFields.
    rewrite !run_gets. simpl. rewrite Ha.
    rewrite run_gets. simpl. rewrite Ho. simpl. by rewrite Hgt. }
  split; [|done].
  intros c h H.
  pose proof H as (c0 & h0 & h1 & Hds & Hfs & _)%Compile_Ok.
  assert (Compile_loops ToLower (influxql.Dimensions stmt)
            (influxql.Fields stmt) (Compile_init clock stmt opt, empty_heap)
          = Ok (tt, (c, h1))) as Hloops
    by (apply Compile_loops_Ok; eauto).
  apply Hmain in Hloops. congruence.
Qed.
End mixing.

(** ** Statements of references and calls on one reference *)

Section simple_statements.
Import Draft1.
Variable ToLower : string → string.
Implicit Types (c : compiledStatement) (h : Heap).

Lemma compileFunction_ref_Ok Name x c h r c' h' :
  compileFunction Name [influxql.Ref x] (c, h) = Ok (r, (c', h')) →
  FunctionCalls c' = FunctionCalls c ++ [r].
Proof.
  unfold compileFunction. simpl. intros H.
  repeat first
    [ inv_step; simpl in *; simplify_eq
    | match goal with
      | H : compileVarRef _ _ _ = Ok _ |- _ =>
          apply compileVarRef_Ok in H; destruct H as [? _]; simplify_eq
      end ]; done.
Qed.

Lemma simple_names Name :
  oneof Name ["count"; "min"; "max"; "sum"; "first"; "last"; "mean"] = true →
  Name ∈ ["count"; "min"; "max"; "sum"; "first"; "last"; "mean"].
Proof.
  unfold oneof. intros (y & Hin & ->%String.eqb_eq)%existsb_exists.
  by apply list_elem_of_In.
Qed.

(** What a simple field does to the statement. *)
Lemma Compile_field_simple f c h :
  simple_field f = true →
  Forall (λ s, influxql.isMeasurement s = true) (Sources c) →
  returns (Compile_field f) (c, h)
    (λ _ s',
       Sources (fst s') = Sources c ∧
       TopBottomFunction (fst s') = TopBottomFunction c ∧
       length (FunctionCalls (fst s'))
       = (length (FunctionCalls c) + length (List.filter call_field [f]))%nat ∧
       OnlySelectors (fst s') = OnlySelectors c && plain_field f ∧
       (AuxiliaryFields (fst s') = None ↔
        AuxiliaryFields c = None ∧ bare_field f = false)).
Proof.
  unfold simple_field, Compile_field, call_field, plain_field, bare_field.
  simpl.
  destruct (influxql.FieldExpr f) as [y|Name Args| | | | | | | | | | |];
    try done.
  - intros _ _. destruct (String.eqb (influxql.Val y) "time"); simpl.
    + returns_go. rewrite andb_true_r.
      repeat split; try done; try lia; tauto.
    + returns_go. rewrite andb_true_r.
      destruct (AuxiliaryFields c) eqn:E; returns_go; simpl;
        rewrite ?E; repeat split; try done; try lia; try tauto;
        by intros [].
  - destruct Args as [|[x| | | | | | | | | | | |] [|]]; try done.
    intros Hn Hall. apply returns_bind. simpl. rewrite Hn.
    pose proof (compileFunction_ref_returns Name x c h Hall) as Hr.
    apply returns_Ok in Hr as (r & [c1 h1] & E & _).
    apply returns_Ok. exists r, (c1, h1). split; [done|].
    returns_go.
    pose proof (compileFunction_ref_Ok _ _ _ _ _ _ _ E) as Hfc.
    pose proof (compileFunction_effect _ _ _ _ _ _ _ E) as (Ho & Htb & _).
    pose proof (compileFunction_Ok _ _ _ _ _ _ _ E) as ([Hs _ _ _ _ _ _ _] & Ha & _).
    rewrite Hs, Ha, Hfc, length_app, Ho, Htb. simpl.
    apply simple_names in Hn.
    repeat (apply elem_of_cons in Hn as [->|Hn]);
      [..|by apply elem_of_nil in Hn];
      simpl; rewrite ?andb_true_r, ?andb_false_r;
      repeat split; try done; try lia; tauto.
Qed.

(** What a list of simple fields does to the statement. *)
Lemma Compile_fields_simple fs c h :
  forallb simple_field fs = true →
  Forall (λ s, influxql.isMeasurement s = true) (Sources c) →
  returns (foreach Compile_field fs) (c, h)
    (λ _ s',
       Sources (fst s') = Sources c ∧
       TopBottomFunction (fst s') = TopBottomFunction c ∧
       length (FunctionCalls (fst s'))
       = (length (FunctionCalls c) + length (List.filter call_field fs))%nat ∧
       OnlySelectors (fst s') = OnlySelectors c && forallb plain_field fs ∧
       (AuxiliaryFields (fst s') = None ↔
        AuxiliaryFields c = None ∧ existsb bare_field fs = false)).
Proof.
  revert c h. induction fs as [|f fs IH]; intros c h Hfs Hall; simpl.
  - rewrite andb_true_r. repeat split; try done; try lia; tauto.
  - apply andb_true_iff in Hfs as [Hf Hfs].
    apply returns_bind.
    eapply returns_mono; [by apply Compile_field_simple|].
    intros [] [c1 h1] (Hs & Htb & Hn & Ho & Ha). simpl in *.
    eapply returns_mono; [apply IH; [done | by rewrite Hs]|].
    intros [] [c2 h2] (Hs2 & Htb2 & Hn2 & Ho2 & Ha2). simpl in *.
    rewrite Hs2, Htb2, Hn2, Ho2, Ha2, Hs, Htb, Hn, Ho, Ha.
    split; [done|]. split; [done|].
    split; [destruct (call_field f); simpl; lia|].
    split; [by rewrite andb_assoc|].
    rewrite orb_false_iff. tauto.
Qed.

(** X11.  A statement over measurements whose dimensions are accepted and
    whose fields are references and calls of [count], [min], [max], [sum],
    [first], [last] or [mean] on one reference is settled by its fields.
    With no bare reference it compiles unless it has no call.  With a bare
    reference it is refused for mixing aggregate and non-aggregate queries
    when a call is not a selector, refused for mixing multiple selectors
    when it has two calls or more, and compiles otherwise.  When it
    compiles it registers one function call per call field. *)
Theorem X11_simple_statement clock stmt opt s0 :
  Forall (λ s, influxql.isMeasurement s = true) (influxql.Sources stmt) →
  foreach (Compile_dimension ToLower) (influxql.Dimensions stmt)
    (Compile_init clock stmt opt, empty_heap) = Ok (tt, s0) →
  forallb simple_field (influxql.Fields stmt) = true →
  match simple_verdict (influxql.Fields stmt) with
  | Some e => Compile ToLower clock stmt opt = Err e
  | None =>
      ∃ c h, Compile ToLower clock stmt opt = Ok (c, h) ∧
             length (FunctionCalls c)
             = length (List.filter call_field (influxql.Fields stmt)) ∧
             OnlySelectors c = forallb plain_field (influxql.Fields stmt)
  end.
Proof.
  destruct s0 as [c0 h0]. intros Hall Hds Hsimple.
  pose proof (Compile_dimensions_beside _ _ _ _ _ _ _ Hds) as Hb.
  unfold beside_dimensions in Hb. simpl in Hb.
  injection Hb as Hs0 Hfc0 Ho0 Htb0 Ha0 _ _.
  assert (Forall (λ s, influxql.isMeasurement s = true) (Sources c0)) as Hall0
    by by rewrite Hs0.
  pose proof (Compile_fields_simple _ c0 h0 Hsimple Hall0) as Hfs.
  apply returns_Ok in Hfs as ([] & [c1 h1] & Hfs & Hs & Htb & Hn & Ho & Ha).
  simpl in *. rewrite Hfc0 in Hn. rewrite Ho0 in Ho. rewrite Htb0 in Htb.
  rewrite Ha0 in Ha. simpl in *.
  assert (Compile_loops ToLower (influxql.Dimensions stmt)
            (influxql.Fields stmt) (Compile_init clock stmt opt, empty_heap)
          = Ok (tt, (c1, h1))) as Hloops
    by (apply Compile_loops_Ok; eauto).
  unfold Compile, Compile_body.
  rewrite (bind_step _ _ _ _ _ Hloops), validateFields_run, Htb. simpl.
  rewrite andb_false_r.
  unfold simple_verdict, linkAuxiliaryFields.
  rewrite !run_gets. simpl.
  destruct (existsb bare_field (influxql.Fields stmt)) eqn:Hbare.
  - destruct (AuxiliaryFields c1) as [a|] eqn:Ha1.
    2:{ destruct Ha as [Ha _]. by destruct (Ha eq_refl). }
    rewrite run_gets. simpl. rewrite Ho.
    destruct (forallb plain_field (influxql.Fields stmt)); simpl; [|done].
    rewrite Hn.
    destruct (List.filter call_field (influxql.Fields stmt)) as [|? [|? ?]]
      eqn:Hcalls; simpl in *.
    + assert (returns (compileVarRef None (Some a)) (c1, h1)
                (λ _ s', fst s' = c1)) as Hv
        by (apply compileVarRef_measurements; by rewrite Hs, Hs0).
      apply returns_Ok in Hv as (r & [c2 h2] & Hv & ?). simplify_eq/=.
      rewrite (bind_step _ _ _ _ _ Hv). simpl.
      eexists _, _. split; [reflexivity|]. done.
    + destruct (FunctionCalls c1) as [|e1 [|]] eqn:Hfc1; simplify_eq/=.
      unfold mbind, M_bind, alloc, store. simpl.
      destruct (heap.Insert e1 a h1) as [[i o] h2]. simpl.
      eexists _, _. split; [reflexivity|]. by rewrite Hfc1.
    + done.
  - destruct (AuxiliaryFields c1) as [a|] eqn:Ha1.
    { destruct Ha as [_ Ha]. by discriminate Ha. }
    rewrite Hn.
    destruct (length (List.filter call_field (influxql.Fields stmt)) =? 0)%nat;
      [done|].
    eexists _, _. split; [reflexivity|]. by rewrite Hn, Ho.
Qed.
End simple_statements.

(** ** The second draft: fields built with no [global] pointer *)

Section second_draft_compile.
Import Draft2.
Variable ToLower : string → string.
Implicit Types (c : compiledStatement) (h : Heap) (f : compiledField).

Lemma via_global_nil {A} (m : M compiledStatement A) f c h :
  global f = None → via_global m ((f, c), h) = Panic nil_dereference.
Proof. unfold via_global. simpl. by intros ->. Qed.

(** The steps before a recursive call leave the field alone. *)
Ltac inv_nil Hg :=
  repeat first
    [ match goal with
      | H : via_global _ _ = Ok _ |- _ =>
          by rewrite (via_global_nil _ _ _ _ Hg) in H
      | H : registerFunctionCall _ _ = Ok _ |- _ =>
          unfold registerFunctionCall in H;
          by rewrite (via_global_nil _ _ _ _ Hg) in H
      end
    | inv_step; simpl in *; simplify_eq ].

Lemma compileDistinct_nil_global Name Args out f c h x :
  global f = None →
  compileDistinct Name Args out false ((f, c), h) = Ok x → False.
Proof.
  unfold compileDistinct. destruct x as [u s']. intros Hg H.
  destruct (length Args =? 0)%nat; [by inv_ok|].
  destruct (negb _); [by inv_ok|].
  destruct Args as [|[] ?]; try by inv_ok.
  simpl in H. inv_nil Hg.
Qed.

Lemma compileFunction_nil_global Name Args out f c h x :
  global f = None →
  compileFunction Name Args out ((f, c), h) = Ok x → False.
Proof.
  unfold compileFunction. destruct x as [u s']. intros Hg H.
  destruct (negb _); [by inv_ok|].
  apply bind_Ok in H as (call & [[f1 c1] h1] & Ha & H).
  apply alloc_Ok in Ha as [_ [= -> -> ->]]. simpl in H.
  apply bind_Ok in H as ([] & s1 & Hr & _).
  unfold registerFunctionCall in Hr.
  by rewrite (via_global_nil _ _ _ _ Hg) in Hr.
Qed.

Lemma compileTopBottom_nil_global Name Args out f c h x :
  global f = None →
  compileTopBottom Name Args out ((f, c), h) = Ok x → False.
Proof.
  unfold compileTopBottom. destruct x as [u s']. intros Hg H.
  apply bind_Ok in H as (tb & s1 & Hr & _).
  by rewrite (via_global_nil _ _ _ _ Hg) in Hr.
Qed.

(** With no [global] pointer no expression compiles. *)
Lemma compileExpr_nil_global expr out f c h x :
  global f = None → compileExpr expr out ((f, c), h) = Ok x → False.
Proof.
  intros Hg. revert out c h x.
  induction expr as [ref|Name Args|val|Op LHS IHL RHS IHR| | | | | | | | |];
    intros out c h [u s'] H; simpl in H; try by inv_ok.
  - by rewrite (via_global_nil _ _ _ _ Hg) in H.
  - repeat match type of H with
      | (if ?b then _ else _) _ = Ok _ => destruct b
      end.
    + by eapply compileFunction_nil_global.
    + by eapply compileDistinct_nil_global.
    + by eapply compileTopBottom_nil_global.
    + by inv_ok.
  - by eapply compileDistinct_nil_global.
  - destruct (influxql.isLiteral LHS); [by inv_ok|].
    destruct (influxql.isLiteral RHS); [by inv_ok|].
    apply bind_Ok in H as (node & [[f1 c1] h1] & Ha & H).
    apply alloc_Ok in Ha as [_ [= -> -> ->]]. simpl in H.
    apply bind_Ok in H as ([] & [[f2 c2] h2] & Hs & H).
    apply store_Ok in Hs as [= -> -> ->]. simpl in H.
    apply bind_Ok in H as ([lhs r] & [[f3 c3] h3] & Ha & H).
    apply alloc_Ok in Ha as [_ [= -> -> ->]]. simpl in H.
    apply bind_Ok in H as ([] & [[f4 c4] h4] & Hs & H).
    apply store_Ok in Hs as [= -> -> ->]. simpl in H.
    apply bind_Ok in H as ([] & s5 & Hl & _).
    by eapply IHL.
Qed.

(** A field that [Compile] accepts is a bare reference [time]. *)
Lemma d2_Compile_field_Ok fd c h u c' h' :
  Compile_field fd (c, h) = Ok (u, (c', h')) →
  c' = c ∧ h' = h ∧ published_field fd = false.
Proof.
  unfold Compile_field, published_field. intros H.
  destruct (match influxql.FieldExpr fd with
            | influxql.Ref ref => String.eqb (influxql.Val ref) "time"
            | _ => false
            end).
  - by apply ret_Ok in H as [_ [= -> ->]].
  - exfalso.
    apply bind_Ok in H as ([input out] & [c1 h1] & Ha & H).
    apply alloc_Ok in Ha as [_ [= -> ->]]. simpl in H.
    apply bind_Ok in H as (field & s1 & Hf & _).
    unfold on_field in Hf. simpl in Hf.
    match type of Hf with match ?m with _ => _ end = _ =>
      destruct m as [[[] [[f1 c1] h1]]| |] eqn:E; [|done..] end.
    by eapply compileExpr_nil_global in E.
Qed.

Lemma d2_Compile_fields_Ok fs c h u c' h' :
  foreach Compile_field fs (c, h) = Ok (u, (c', h')) →
  c' = c ∧ h' = h ∧ Forall (λ fd, published_field fd = false) fs.
Proof.
  revert c h. induction fs as [|fd fs IH]; intros c h H; simpl in H.
  - by apply ret_Ok in H as [_ [= -> ->]].
  - apply bind_Ok in H as ([] & [c1 h1] & Hf & H).
    apply d2_Compile_field_Ok in Hf as (-> & -> & Hp).
    apply IH in H as (-> & -> & Hall). by repeat constructor.
Qed.

(** A dimension registers no call and needs no auxiliary fields. *)
Lemma d2_Compile_dimension_beside d c h u c' h' :
  Compile_dimension ToLower d (c, h) = Ok (u, (c', h')) →
  FunctionCalls c' = FunctionCalls c ∧
  AuxiliaryFields c' = AuxiliaryFields c.
Proof.
  unfold Compile_dimension. intros H.
  destruct (influxql.DimExpr d) as [ |Name Args| | | | | | | | | | |];
    inv_ok; try done.
  destruct Args as [|[] Args]; simpl in *; inv_ok; try done.
  destruct Args as [|[] Args]; simpl in *; inv_ok; done.
Qed.

Lemma d2_Compile_dimensions_beside ds c h u c' h' :
  foreach (Compile_dimension ToLower) ds (c, h) = Ok (u, (c', h')) →
  FunctionCalls c' = FunctionCalls c ∧
  AuxiliaryFields c' = AuxiliaryFields c.
Proof.
  revert c h. induction ds as [|d ds IH]; intros c h H; simpl in H.
  - by apply ret_Ok in H as [_ [= -> ->]].
  - apply bind_Ok in H as ([] & [c1 h1] & Hd & H).
    apply IH in H as [-> ->]. by eapply d2_Compile_dimension_beside.
Qed.

(** X12.  [Compile] of the second draft never returns a compiled
    statement.  It builds every field with no [global] pointer, so a field
    other than the bare reference [time] is refused or panics when it is
    compiled; and a statement whose fields are all bare references [time],
    or that has no field, is refused by linking. *)
Theorem X12_second_draft_never_compiles clock stmt opt c h :
  Compile ToLower clock stmt opt ≠ Ok (c, h).
Proof.
  unfold Compile, Compile_body, Compile_loops. intros H.
  match type of H with match ?m with _ => _ end = _ =>
    destruct m as [[[] [c' h']]| |] eqn:E; simplify_eq end.
  apply bind_Ok in E as ([] & [c1 h1] & Hloops & E).
  apply bind_Ok in Hloops as ([] & [c0 h0] & Hds & Hfs).
  apply d2_Compile_dimensions_beside in Hds as [Hfc Ha].
  apply d2_Compile_fields_Ok in Hfs as (-> & -> & _).
  apply bind_Ok in E as ([] & [c2 h2] & Hv & Hl).
  assert (c2 = c0 ∧ h2 = h0) as [-> ->].
  { unfold validateFields in Hv. by inv_ok. }
  unfold linkAuxiliaryFields in Hl.
  rewrite !run_gets in Hl. simpl in Hl, Ha, Hfc.
  rewrite Ha, Hfc in Hl. by simpl in Hl.
Qed.
End second_draft_compile.

(** ** The leaves of a variable reference *)

Section leaves.
Import Draft1.
Implicit Types (c : compiledStatement) (h : Heap).

(** An assignment that keeps what a leaf reads keeps the leaves. *)
Lemma omap_leaf_alter (f : Node.t → Node.t) i (l : list Node.t) :
  (∀ x, leaf (f x) = leaf x) → omap leaf (alter f i l) = omap leaf l.
Proof.
  intros Hf. revert i. induction l as [|x l IH]; intros [|i]; try done.
  - simpl. by rewrite Hf.
  - specialize (IH i). unfold alter, omap in IH. simpl. by rewrite IH.
Qed.

Lemma leaf_setOutput e x : leaf (Node.setOutput e x) = leaf x.
Proof. by destruct x. Qed.

Lemma leaf_merge_input r x :
  leaf match x with
       | Node.Merge ins o => Node.Merge (ins ++ [r]) o
       | _ => x
       end = leaf x.
Proof. by destruct x. Qed.

(** One source: a leaf is allocated after the nodes there are, and the
    merge gets one input more. *)
Lemma compileVarRef_source_leaf ref m source c h u c' h' ins o :
  compileVarRef_source ref m source (c, h) = Ok (u, (c', h')) →
  nodes h !! m = Some (Node.Merge ins o) →
  ∃ r, nodes h' !! m = Some (Node.Merge (ins ++ [r]) o) ∧
       omap leaf (nodes h')
       = omap leaf (nodes h)
         ++ map (pair ref) (omap measurement_name [source]) ∧
       length (nodes h') = S (length (nodes h)).
Proof.
  destruct source as [name|]; simpl; intros H Hm; inv_ok.
  pose proof (lookup_lt_Some _ _ _ Hm) as Hlt.
  unfold heap.update. simpl.
  eexists. split; [|split].
  - rewrite list_lookup_alter_ne by lia.
    rewrite list_lookup_alter. case_decide as Hd; [|by destruct Hd].
    rewrite lookup_app_l by done. unfold NodeRef in *. by rewrite Hm.
  - rewrite omap_leaf_alter by apply leaf_setOutput.
    rewrite omap_leaf_alter by apply leaf_merge_input.
    by rewrite omap_app.
  - rewrite !length_alter, length_app. simpl. lia.
Qed.

Lemma compileVarRef_sources_leaves ref m sources c h u c' h' ins o :
  foreach (compileVarRef_source ref m) sources (c, h) = Ok (u, (c', h')) →
  nodes h !! m = Some (Node.Merge ins o) →
  ∃ rs, nodes h' !! m = Some (Node.Merge (ins ++ rs) o) ∧
        length rs = length sources ∧
        omap leaf (nodes h')
        = omap leaf (nodes h)
          ++ map (pair ref) (omap measurement_name sources) ∧
        length (nodes h') = (length (nodes h) + length sources)%nat.
Proof.
  revert c h ins. induction sources as [|s l IH]; intros c h ins H Hm;
    simpl in H.
  - apply ret_Ok in H as [_ [= -> ->]]. exists []. simpl.
    rewrite !app_nil_r. repeat split; [done|lia].
  - apply bind_Ok in H as ([] & [c1 h1] & Hs & H).
    eapply compileVarRef_source_leaf in Hs as (r & Hm1 & Hl1 & Hn1); [|done].
    eapply IH in H as (rs & Hm2 & Hlen & Hl2 & Hn2); [|done].
    exists (r :: rs). rewrite Hm2, Hl2, Hl1, Hn2, Hn1.
    repeat split.
    + by rewrite <- app_assoc.
    + simpl. by rewrite Hlen.
    + rewrite <- app_assoc. f_equal.
      change (s :: l) with ([s] ++ l). by rewrite omap_app, map_app.
    + simpl. lia.
Qed.

(** X13.  A variable reference that compiles allocates a merge node, then
    one leaf per source, in the order of the sources, each reading the
    reference from its measurement; the merge ends with one input per
    source, and no other node is added or has its reference or measurement
    changed. *)
Theorem X13_one_leaf_per_source ref node c h r c' h' :
  compileVarRef ref node (c, h) = Ok (r, (c', h')) →
  (∃ ins o, nodes h' !! length (nodes h) = Some (Node.Merge ins o) ∧
            length ins = length (Sources c)) ∧
  omap leaf (nodes h')
  = omap leaf (nodes h)
    ++ map (pair ref) (omap measurement_name (Sources c)) ∧
  omap measurement_name (Sources c) = omap measurement_name (Sources c') ∧
  length (omap measurement_name (Sources c)) = length (Sources c) ∧
  length (nodes h') = (length (nodes h) + 1 + length (Sources c))%nat.
Proof.
  unfold compileVarRef. intros H.
  apply bind_Ok in H as (m & [c1 h1] & Ha & H).
  apply alloc_Ok in Ha as [-> [= -> ->]]. simpl in H.
  rewrite run_gets in H. simpl in H.
  apply bind_Ok in H as ([] & [c2 h2] & Hloop & H).
  pose proof (compileVarRef_sources_Ok _ _ _ _ _ _ _ _ Hloop) as [-> Hall].
  eapply (compileVarRef_sources_leaves _ _ _ _ _ _ _ _ [] None) in Hloop
    as (rs & Hm & Hlen & Hl & Hn);
    [|simpl; by apply list_lookup_middle].
  simpl in *. inv_ok. unfold heap.update. simpl.
  split; [|split; [|split; [|split]]].
  - eexists _, _. split.
    + rewrite list_lookup_alter. case_decide as Hd; [|by destruct Hd].
      unfold NodeRef in *. rewrite Hm. simpl. reflexivity.
    + done.
  - rewrite omap_leaf_alter by apply leaf_setOutput.
    rewrite Hl, omap_app. simpl. by rewrite app_nil_r.
  - done.
  - clear -Hall. induction Hall as [|[] l Hs _ IH]; [done| |done].
    unfold omap in *. simpl. by rewrite IH.
  - rewrite length_alter, Hn, length_app. simpl. lia.
Qed.
End leaves.

(** ** The second draft: selection and wildcards *)

Section second_draft_fields.
Import Draft2.
Implicit Types (c : compiledStatement) (h : Heap) (f : compiledField).

Lemma d2_Select_fold fs acc plan :
  foldl (λ acc f, (fst acc ++ [Output f],
                   Plan.AddTarget (Output f) (snd acc))) (acc, plan) fs
  = (acc ++ map Output fs,
     Plan.mk (Plan.targets plan ++ map Output fs)).
Proof.
  revert acc plan. induction fs as [|f fs IH]; intros acc [ts]; simpl.
  - by rewrite !app_nil_r.
  - rewrite IH. simpl. by rewrite <- !app_assoc.
Qed.

(** X14.  [Select] of the second draft returns the output edges of the
    compiled fields, one per field and in their order, and adds the same
    edges in the same order to the targets of the plan, after the targets
    the plan had. *)
Theorem X14_second_draft_select c plan :
  Draft2_Select.Select c plan
  = (map Output (Fields c),
     Plan.mk (Plan.targets plan ++ map Output (Fields c))).
Proof. unfold Draft2_Select.Select. by rewrite d2_Select_fold. Qed.

End second_draft_fields.

(** ** The second draft: sources and auxiliary fields *)

Section second_draft_statement.
Import Draft2.
Implicit Types (c : compiledStatement) (h : Heap).

(** X16.  [compileVarRef] of the second draft never panics.  It returns,
    leaving the statement as it is, when every source is a measurement,
    and returns the error [unimplemented] when a source is of another
    kind. *)
Theorem X16_second_draft_sources ref out c h :
  (Forall (λ s, influxql.isMeasurement s = true) (Sources c) →
   ∃ h', compileVarRef ref out (c, h) = Ok (tt, (c, h'))) ∧
  (Exists (λ s, influxql.isMeasurement s = false) (Sources c) →
   compileVarRef ref out (c, h) = Err (errors_New "unimplemented")) ∧
  (∀ v, compileVarRef ref out (c, h) ≠ Panic v).
Proof.
  assert (Forall (λ s, influxql.isMeasurement s = true) (Sources c) →
          ∃ h', compileVarRef ref out (c, h) = Ok (tt, (c, h'))) as Hok.
  { intros Hall.
    pose proof (d2_compileVarRef_measurements ref out c h Hall) as Hr.
    apply returns_Ok in Hr as ([] & [c' h'] & E & Hc). simpl in Hc. subst c'.
    by exists h'. }
  split; [done|]. split; [apply d2_compileVarRef_unimplemented|].
  intros v Hv.
  destruct (decide (Forall (λ s, influxql.isMeasurement s = true) (Sources c)))
    as [Hall|Hnot].
  - destruct (Hok Hall) as [h' E]. congruence.
  - apply not_Forall_Exists in Hnot; [|apply _].
    eapply Exists_impl in Hnot.
    + apply (d2_compileVarRef_unimplemented ref out c h) in Hnot. congruence.
    + simpl. intros s Hs. by destruct (influxql.isMeasurement s).
Qed.

(** X17.  [requireAuxiliaryFields] always returns and leaves the
    statement with auxiliary fields.  It allocates their node only when
    the statement has none: on a statement that has them, and so on its
    own result, it changes nothing. *)
Theorem X17_requireAuxiliaryFields_once c h :
  ∃ c' h',
    requireAuxiliaryFields (c, h) = Ok (tt, (c', h')) ∧
    is_Some (AuxiliaryFields c') ∧
    (is_Some (AuxiliaryFields c) → c' = c ∧ h' = h) ∧
    (AuxiliaryFields c = None →
     AuxiliaryFields c' = Some (length (nodes h)) ∧
     length (nodes h') = S (length (nodes h))) ∧
    requireAuxiliaryFields (c', h') = Ok (tt, (c', h')).
Proof.
  unfold requireAuxiliaryFields. rewrite run_gets. simpl.
  destruct (AuxiliaryFields c) as [a|] eqn:Ha.
  - exists c, h. rewrite run_gets. simpl. rewrite Ha.
    repeat split; done.
  - eexists _, _. split; [reflexivity|]. simpl.
    rewrite length_app. simpl.
    repeat split; try done; try lia.
    all: by intros [? ?].
Qed.
End second_draft_statement.

(** ** The further properties on concrete statements *)

Lemma X1_witness :
  ∃ r h',
    Draft1.compileDistinct "distinct" [examples.ref "value"]
      (examples.init examples.count_distinct, empty_heap)
    = Ok (r, (Draft1.setFunctionCalls
                (Draft1.FunctionCalls (examples.init examples.count_distinct)
                 ++ [r])
                (examples.init examples.count_distinct), h')).
Proof.
  apply (X1_compileDistinct_cases "distinct" [examples.ref "value"]
           (examples.init examples.count_distinct) empty_heap).
  repeat constructor.
Defined.

Lemma X2_witness :
  ∃ r s',
    Draft1.compileFunction "count" [influxql.Distinct "value"]
      (examples.init examples.count_distinct, empty_heap) = Ok (r, s').
Proof.
  apply (proj2 (proj1 (X2_compileFunction_returns_iff "count"
                         [influxql.Distinct "value"]
                         (examples.init examples.count_distinct) empty_heap
                         ltac:(repeat constructor)))).
  right. split; [reflexivity|]. right. exists "value". reflexivity.
Defined.

Lemma X3_witness :
  ∃ r s',
    Draft1.compileTopBottom "top"
      [examples.ref "value"; examples.ref "host"; influxql.IntegerLiteral 3]
      (examples.init examples.top_and_max, empty_heap) = Ok (r, s').
Proof.
  apply (proj2 (proj1 (X3_compileTopBottom_returns_iff "top"
                         [examples.ref "value"; examples.ref "host";
                          influxql.IntegerLiteral 3]
                         (examples.init examples.top_and_max) empty_heap
                         ltac:(repeat constructor)))).
  split; [reflexivity|].
  exists further_examples.value,
    [influxql.mkVarRef "host" influxql.DataType.Unknown], 3.
  split; [reflexivity | lia].
Defined.

Lemma X4_witness :
  ("unimplemented" = "unimplemented" ∧
   Exists (λ s, influxql.isMeasurement s = false)
     (influxql.Sources examples.from_subquery)) ∨
  ("unimplemented" = divide_by_zero ∧
   ∃ o, time_dimension 0 [influxql.DurationLiteral o]
          ∈ influxql.Dimensions examples.from_subquery).
Proof.
  apply (X4_first_draft_panics_only strings.ToLower examples.clock
           examples.from_subquery examples.opt "unimplemented").
  vm_compute. reflexivity.
Defined.

Lemma X5_witness :
  length (Draft1.OutputEdges (fst (examples.compiled examples.max_and_value)))
  = length (List.filter published_field
              (influxql.Fields examples.max_and_value)) ∧
  ∀ plan,
    Draft1_Select.Select (fst (examples.compiled examples.max_and_value)) plan
    = (Draft1.OutputEdges (fst (examples.compiled examples.max_and_value)),
       Plan.mk (Plan.targets plan
                ++ map Some (Draft1.OutputEdges
                               (fst (examples.compiled
                                       examples.max_and_value))))).
Proof.
  apply (X5_one_output_edge_per_field strings.ToLower examples.clock
           examples.max_and_value examples.opt
           (fst (examples.compiled examples.max_and_value))
           (snd (examples.compiled examples.max_and_value))).
  vm_compute. reflexivity.
Defined.

Lemma X6_witness :
  Draft1.Dimensions
    (fst (examples.compiled further_examples.by_host_and_region))
  = ["host"; "region"].
Proof.
  apply (proj1 (X6_dimensions_are_the_tags strings.ToLower examples.clock
                  further_examples.by_host_and_region examples.opt
                  (fst (examples.compiled further_examples.by_host_and_region))
                  (snd (examples.compiled further_examples.by_host_and_region))
                  ltac:(vm_compute; reflexivity))).
Defined.

Lemma X7_witness :
  alike (λ c1' c2', grouping1 c1' = grouping2 c2')
    (foreach (Draft1.Compile_dimension strings.ToLower)
       (influxql.Dimensions further_examples.by_host_and_region)
       (examples.init further_examples.by_host_and_region, empty_heap))
    (foreach (Draft2.Compile_dimension strings.ToLower)
       (influxql.Dimensions further_examples.by_host_and_region)
       (further_examples.init2 further_examples.by_host_and_region,
        empty_heap)).
Proof.
  apply (X7_drafts_agree_on_dimensions strings.ToLower
           (influxql.Dimensions further_examples.by_host_and_region)
           (examples.init further_examples.by_host_and_region) empty_heap
           (further_examples.init2 further_examples.by_host_and_region)
           empty_heap).
  - repeat constructor.
  - reflexivity.
Defined.

Lemma X8_witness :
  Z.abs (influxql.Offset
           (Draft1.Interval (fst (examples.compiled examples.five_offset_one))))
  < Z.abs (5 * time.Minute) ∧
  (0 ≤ time.Minute →
   0 ≤ influxql.Offset
         (Draft1.Interval (fst (examples.compiled examples.five_offset_one)))) ∧
  (time.Minute ≤ 0 →
   influxql.Offset
     (Draft1.Interval (fst (examples.compiled examples.five_offset_one)))
   ≤ 0).
Proof.
  refine (proj1 (X8_offset_within_interval strings.ToLower examples.clock
                   examples.five_offset_one examples.opt
                   (fst (examples.compiled examples.five_offset_one))
                   (snd (examples.compiled examples.five_offset_one))
                   (5 * time.Minute) [influxql.DurationLiteral time.Minute]
                   _ _ _) time.Minute eq_refl).
  - vm_compute. reflexivity.
  - left.
  - discriminate.
Defined.

Lemma X9_witness :
  (∀ c h, examples.run further_examples.count_and_host ≠ Ok (c, h)) ∧
  (∀ c1 h1,
     Draft1.Compile_loops strings.ToLower
       (influxql.Dimensions further_examples.count_and_host)
       (influxql.Fields further_examples.count_and_host)
       (examples.init further_examples.count_and_host, empty_heap)
     = Ok (tt, (c1, h1)) →
     examples.run further_examples.count_and_host
     = Err (if (1 <? length (Draft1.FunctionCalls c1))%nat
               && negb (String.eqb (Draft1.TopBottomFunction c1) "")
            then selector_error (Draft1.TopBottomFunction c1)
            else mixing_aggregate)).
Proof.
  apply (X9_aggregate_with_bare_field strings.ToLower examples.clock
           further_examples.count_and_host examples.opt).
  - apply Exists_cons_hd. reflexivity.
  - apply Exists_cons_tl, Exists_cons_hd. reflexivity.
Defined.

Lemma X10_witness :
  (∀ c h, examples.run further_examples.max_min_and_host ≠ Ok (c, h)) ∧
  (∀ c1 h1,
     Draft1.Compile_loops strings.ToLower
       (influxql.Dimensions further_examples.max_min_and_host)
       (influxql.Fields further_examples.max_min_and_host)
       (examples.init further_examples.max_min_and_host, empty_heap)
     = Ok (tt, (c1, h1)) →
     examples.run further_examples.max_min_and_host = Err mixing_selectors).
Proof.
  apply (X10_selectors_with_bare_field strings.ToLower examples.clock
           further_examples.max_min_and_host examples.opt).
  - repeat constructor.
  - apply Exists_cons_tl, Exists_cons_tl, Exists_cons_hd. reflexivity.
  - vm_compute. lia.
Defined.

Lemma X11_witness :
  ∃ c h, examples.run examples.max_and_value = Ok (c, h) ∧
         length (Draft1.FunctionCalls c)
         = length (List.filter call_field
                     (influxql.Fields examples.max_and_value)) ∧
         Draft1.OnlySelectors c
         = forallb plain_field (influxql.Fields examples.max_and_value).
Proof.
  refine (X11_simple_statement strings.ToLower examples.clock
            examples.max_and_value examples.opt
            (examples.init examples.max_and_value, empty_heap) _ _ _).
  - repeat constructor.
  - reflexivity.
  - reflexivity.
Defined.

Lemma X13_witness :
  omap leaf (nodes (snd (snd further_examples.read_value)))
  = [(Some further_examples.value, "cpu"); (Some further_examples.value, "mem")].
Proof.
  refine (proj1 (proj2 (X13_one_leaf_per_source (Some further_examples.value)
                          None (examples.init further_examples.cpu_and_mem)
                          empty_heap (fst further_examples.read_value)
                          (fst (snd further_examples.read_value))
                          (snd (snd further_examples.read_value)) _))).
  vm_compute. reflexivity.
Defined.

